(** * Variant Analytics Dashboard (Panel version): session gate, metric
    formatting, pivot transform and chart series.

    Shallow embedding of [src/app/app.py] ([authenticate], [get_session],
    [logout], [format_metric_value], [get_display_metric_name],
    [process_pivot_data]) and of [src/app/charts.py] ([build_line_chart]).

    Conventions of the embedding:
    - Python dicts that are only read by key ([_sessions], [DEFAULT_USERS],
      [METRICS_CONFIG], [lookup], [plan_data]) are [gmap]s; the [row]
      dicts, whose key order becomes the column order of the data frame,
      are insertion-ordered association lists;
    - the clock ([datetime.now()]) and the random source
      ([secrets.token_hex]) are explicit arguments;
    - floats are IEEE 754 binary64 numbers: a finite float is given by the
      rational it denotes, and the conversions from [int] and [Decimal],
      the product and [round(x, 2)] round to the nearest float
      ([to_double]);
    - the modules [config], [bigquery_client] and [colors] are not part of
      the sources: the tables [DEFAULT_USERS] and [METRICS_CONFIG] are
      arguments of the functions that read them. *)

From Stdlib Require Import ZArith QArith Qround Qabs Qpower Lqa Ascii String
  OrdersEx.
From stdpp Require Import base option list sorting strings gmap.

Local Open Scope Z_scope.

(** ** Session management ([app.py], lines 63-114) *)

(** An entry of [DEFAULT_USERS]: [{"password": .., "name": .., "role": ..}]. *)
Record user := User {
  u_password : string;
  u_name : string;
  u_role : string
}.

(** A value of [_sessions]: [{user_id, name, role, expires_at}].  Instants
    are counted in microseconds, the resolution of [datetime]. *)
Record session := Session {
  s_user_id : string;
  s_name : string;
  s_role : string;
  s_expires_at : Z
}.

Abbreviation store := (gmap string session).

(** [timedelta(days=1)] in microseconds. *)
Definition ONE_DAY : Z := 24 * 60 * 60 * 1000000.

(** [secrets.token_hex(32)]: the 64 lower-case hexadecimal digits of 32
    random bytes.  The random bytes are given as the number [r] they
    encode (only its low 256 bits are used). *)
Definition hex_digit (n : N) : ascii :=
  match n with
  | 0 => "0" | 1 => "1" | 2 => "2" | 3 => "3" | 4 => "4" | 5 => "5"
  | 6 => "6" | 7 => "7" | 8 => "8" | 9 => "9" | 10 => "a" | 11 => "b"
  | 12 => "c" | 13 => "d" | 14 => "e" | _ => "f"
  end%N%char.

Fixpoint hex_of (digits : nat) (r : N) (acc : string) : string :=
  match digits with
  | O => acc
  | S k => hex_of k (r / 16)%N (String (hex_digit (r mod 16)%N) acc)
  end.

Definition token_hex (nbytes : nat) (r : N) : string :=
  hex_of (2 * nbytes) r EmptyString.

(** The tuple [(success, session_id, user)] returned by [authenticate]. *)
Definition auth_result : Type := bool * option string * option user.

Definition auth_failure : auth_result := (false, None, None).

(** [authenticate(user_id, password)].  [IMPORTS_OK] and [DEFAULT_USERS]
    are the module globals set by the guarded import of [config]; [r] is
    the randomness drawn by [secrets.token_hex] and [now] the reading of
    [datetime.now()]. *)
Definition authenticate (IMPORTS_OK : bool) (DEFAULT_USERS : gmap string user)
    (r : N) (now : Z) (user_id password : string) (sessions : store)
    : auth_result * store :=
  if negb IMPORTS_OK then (auth_failure, sessions)
  else
    match DEFAULT_USERS !! user_id with
    | None => (auth_failure, sessions)
    | Some usr =>
        if negb (String.eqb (u_password usr) password)
        then (auth_failure, sessions)
        else
          let session_id := token_hex 32 r in
          let expires_at := now + ONE_DAY in
          let sessions' :=
            <[session_id := {| s_user_id := user_id;
                               s_name := u_name usr;
                               s_role := u_role usr;
                               s_expires_at := expires_at |}]> sessions in
          ((true, Some session_id, Some usr), sessions')
    end.

(** Python truthiness of a session id: [None] and the empty string are
    falsy. *)
Definition truthy_id (session_id : option string) : option string :=
  match session_id with
  | Some EmptyString => None
  | other => other
  end.

(** [get_session(session_id)]. *)
Definition get_session (now : Z) (session_id : option string)
    (sessions : store) : option session * store :=
  match truthy_id session_id with
  | None => (None, sessions)
  | Some sid =>
      match sessions !! sid with
      | None => (None, sessions)
      | Some sess =>
          if now >? s_expires_at sess
          then (None, delete sid sessions)
          else (Some sess, sessions)
      end
  end.

(** [logout(session_id)]. *)
Definition logout (session_id : string) (sessions : store) : store :=
  match sessions !! session_id with
  | Some _ => delete session_id sessions
  | None => sessions
  end.

(** The stores the process can hold: [_sessions] starts empty and is only
    touched by the three functions above. *)
Inductive reachable (users : gmap string user) : store → Prop :=
  | reach_init : reachable users ∅
  | reach_authenticate ok r now uid pw st :
      reachable users st →
      reachable users (authenticate ok users r now uid pw st).2
  | reach_get_session now sid st :
      reachable users st →
      reachable users (get_session now sid st).2
  | reach_logout sid st :
      reachable users st →
      reachable users (logout sid st).

(** ** Python values and exceptions *)

(** The exceptions the modelled code can meet. *)
Inductive pyexn := KeyError | IndexError | TypeError | ValueError | OverflowError.

(** A computation that returns a value or raises. *)
Inductive exc (A : Type) : Type :=
  | Ok (a : A)
  | Raise (e : pyexn).
Arguments Ok {A} a.
Arguments Raise {A} e.

Global Instance exc_ret : MRet exc := λ A a, Ok a.
Global Instance exc_bind : MBind exc := λ A B f m,
  match m with
  | Ok a => f a
  | Raise e => Raise e
  end.

(** [try: body  except: return handler] with a bare [except]. *)
Definition try_except {A} (body : exc A) (handler : A) : A :=
  match body with
  | Ok a => a
  | Raise _ => handler
  end.

(** [d[k]] on a dict and [l[i]] on a list, for [i >= 0]. *)
Definition getitem {A} (o : option A) : exc A :=
  match o with
  | Some a => Ok a
  | None => Raise KeyError
  end.

Definition index {A} (l : list A) (i : nat) : exc A :=
  match l !! i with
  | Some a => Ok a
  | None => Raise IndexError
  end.

(** [for x in l: s = body(x, s)], stopping at the first exception. *)
Fixpoint for_each {A S} (l : list A) (body : A → S → exc S) (s : S) : exc S :=
  match l with
  | [] => Ok s
  | x :: l' =>
      match body x s with
      | Ok s' => for_each l' body s'
      | Raise e => Raise e
      end
  end.

(** A [datetime.date]. *)
Record pydate := Date {
  year : N;
  month : N;
  day : N
}.

Global Instance pydate_eq_dec : EqDecision pydate.
Proof. solve_decision. Defined.

Global Instance pydate_countable : Countable pydate.
Proof.
  refine (inj_countable' (λ d, (year d, month d, day d))
                         (λ t, Date t.1.1 t.1.2 t.2) _).
  by intros [].
Defined.

(** A Python float: an IEEE 754 binary64 number.  A finite float is
    given by the rational it denotes; minus zero, which equals zero but is
    a float of its own, has its constructor. *)
Inductive pyfloat :=
  | FNum (q : Q)
  | FNegZero
  | FInf (negative : bool)
  | FNaN.

(** The objects a column of the query result can hold: SQL NULL, an
    [int], a [float], a finite [Decimal] (its sign, coefficient and
    exponent, as in [Decimal.as_tuple]), a string or a date. *)
Inductive pyval :=
  | PyNone
  | PyInt (z : Z)
  | PyFloat (f : pyfloat)
  | PyDecimal (negative : bool) (coefficient : N) (exponent : Z)
  | PyStr (s : string)
  | PyDate (d : pydate).

(** A number returned by [round]: an [int] (one argument) or a [float]
    (with [ndigits]). *)
Inductive pynum :=
  | RInt (z : Z)
  | RFloat (f : pyfloat).

(** ** Rounding *)

(** [round(x)] of a finite float: the nearest integer, ties going to the
    even one. *)
Definition round_half_even (q : Q) : Z :=
  let f := Qfloor q in
  match Qcompare (q - inject_Z f) (1 # 2) with
  | Lt => f
  | Gt => f + 1
  | Eq => if Z.even f then f else f + 1
  end.

(** The multiple of 1/100 nearest to [q], ties going to the even one. *)
Definition round_2 (q : Q) : Q :=
  Qmake (round_half_even (q * inject_Z 100)) 100.

(** *** Binary64 arithmetic *)

Definition pow2 (e : Z) : Q := Qpower (2 # 1) e.

(** The exponent [e] of a positive rational: [2^e <= q < 2^(e+1)]. *)
Definition Qlog2 (q : Q) : Z :=
  let k := Z.log2 (Qnum q) - Z.log2 (Zpos (Qden q)) in
  if Qle_bool (pow2 k) q then k else k - 1.

(** The exponent of the last place of the binary64 numbers around [q]:
    53 significant bits, and no exponent below -1074. *)
Definition ulp_exponent (q : Q) : Z := Z.max (Qlog2 (Qabs q) - 52) (-1074).

(** The binary64 number nearest to [q], ties going to the even
    significand: the rounding of every IEEE operation and of the
    conversions from [int], [Decimal] and decimal strings.  From
    [2^1024 - 2^970] on the result is infinite; a negative number that
    rounds to zero gives minus zero. *)
Definition to_double (q : Q) : pyfloat :=
  let e := ulp_exponent q in
  let m := round_half_even (q / pow2 e) in
  let r := (inject_Z m * pow2 e)%Q in
  if (m =? 0)%Z then (if Qle_bool 0 q then FNum 0 else FNegZero)
  else if Qle_bool (pow2 1024) (Qabs r) then FInf (m <? 0)%Z
  else FNum (Qred r).

(** The rounding of [q] to 53 significant bits, before the test for
    overflow. *)
Definition rounded (q : Q) : Q :=
  (inject_Z (round_half_even (q / pow2 (ulp_exponent q)))
   * pow2 (ulp_exponent q))%Q.

(** The numbers with 53 significant bits: a significand below [2^53]
    times a power of two not below [2^-1074]. *)
Definition binary53 (r : Q) : Prop :=
  ∃ m e : Z, Z.abs m < 2 ^ 53 ∧ -1074 ≤ e ∧ (r == inject_Z m * pow2 e)%Q.

(** The finite binary64 numbers: a significand below [2^53] times a power
    of two between [2^-1074] and [2^971]. *)
Definition representable (r : Q) : Prop :=
  ∃ m e : Z, Z.abs m < 2 ^ 53 ∧ -1074 ≤ e ≤ 971
             ∧ (r == inject_Z m * pow2 e)%Q.

(** The number a finite [Decimal] denotes. *)
Definition decimal_value (negative : bool) (coefficient : N)
    (exponent : Z) : Q :=
  let v := (inject_Z (Z.of_N coefficient) * Qpower (10 # 1) exponent)%Q in
  if negative then (- v)%Q else v.

(** [round(x)]: infinities and NaN cannot be converted to [int]. *)
Definition py_round (x : pyfloat) : exc pynum :=
  match x with
  | FNum q => Ok (RInt (round_half_even q))
  | FNegZero => Ok (RInt 0)
  | FInf _ => Raise OverflowError
  | FNaN => Raise ValueError
  end.

(** [round(x, 2)] of a float: the float nearest to the two-decimal
    rounding of the number [x] denotes, with the sign of [x]; infinities
    and NaN round to themselves. *)
Definition float_round2 (x : pyfloat) : pyfloat :=
  match x with
  | FNum q =>
      let r := round_2 q in
      if (Qnum r =? 0)%Z then (if Qle_bool 0 q then FNum 0 else FNegZero)
      else to_double r
  | other => other
  end.

Definition py_round2 (x : pyfloat) : exc pynum := Ok (RFloat (float_round2 x)).

(** [x * 100]: the float nearest to the product. *)
Definition mul100 (x : pyfloat) : pyfloat :=
  match x with
  | FNum q => to_double (q * inject_Z 100)
  | other => other
  end.

(** ** Metric configuration *)

(** An entry of [METRICS_CONFIG]; each key may be missing. *)
Record metric_config := MetricConfig {
  cfg_display : option string;
  cfg_suffix : option string;
  cfg_format : option string
}.

Definition empty_config : metric_config := MetricConfig None None None.

(** ** Sorting and sets *)

(** Insertion of [x] in front of the first element that is not below it:
    the building block of a stable sort that, like Python's, only asks
    [y < x]. *)
Fixpoint insert_by {A} (lt : A → A → bool) (x : A) (l : list A) : list A :=
  match l with
  | [] => [x]
  | y :: l' => if lt y x then y :: insert_by lt x l' else x :: l
  end.

(** [sorted(l)] and [l.sort()]: stable, ascending for [lt]. *)
Definition py_sorted {A} (lt : A → A → bool) (l : list A) : list A :=
  foldr (insert_by lt) [] l.

(** [sorted(l, reverse=True)]: CPython reverses, sorts and reverses. *)
Definition py_sorted_reverse {A} (lt : A → A → bool) (l : list A) : list A :=
  reverse (py_sorted lt (reverse l)).

(** [str.__lt__]: code-point order, which is the byte order of UTF-8. *)
Definition str_ltb (a b : string) : bool :=
  match String_as_OT.compare a b with
  | Lt => true
  | _ => false
  end.

(** [tuple.__lt__] on pairs: the first components decide unless equal. *)
Definition pair_ltb {A B} `{EqDecision A} (lta : A → A → bool)
    (ltb : B → B → bool) (x y : A * B) : bool :=
  if bool_decide (x.1 = y.1) then ltb x.2 y.2 else lta x.1 y.1.

(** [date.__lt__]. *)
Definition date_ltb (d1 d2 : pydate) : bool :=
  if bool_decide (year d1 = year d2)
  then if bool_decide (month d1 = month d2)
       then (day d1 <? day d2)%N
       else (month d1 <? month d2)%N
  else (year d1 <? year d2)%N.

(** ** Dates as column labels *)

Definition dec_digit (n : N) : ascii :=
  match n with
  | 0 => "0" | 1 => "1" | 2 => "2" | 3 => "3" | 4 => "4"
  | 5 => "5" | 6 => "6" | 7 => "7" | 8 => "8" | _ => "9"
  end%N%char.

(** The [width] low decimal digits of [n], zero padded. *)
Fixpoint dec_of (width : nat) (n : N) (acc : string) : string :=
  match width with
  | O => acc
  | S k => dec_of k (n / 10)%N (String (dec_digit (n mod 10)%N) acc)
  end.

(** [d.strftime("%m/%d/%Y")], for the dates of [datetime.date] whose year
    has four digits. *)
Definition strftime_mdY (d : pydate) : string :=
  dec_of 2 (month d) (String "/" (dec_of 2 (day d) (String "/"
    (dec_of 4 (year d) EmptyString)))).

(** ** Metric formatting ([app.py], lines 132-153) *)

(** An (app, plan) pair and a key of the [lookup] dict. *)
Abbreviation combo := (string * string)%type.
Abbreviation lookup_key := (string * string * pydate)%type.

Section Transform.

(** [float(s)] on a string is the interpreter's parser: [None] when it
    raises [ValueError]. *)
Variable float_of_str : string → option pyfloat.

(** The table imported from [config]. *)
Variable METRICS_CONFIG : gmap string metric_config.

(** [float(value)]: a float is returned as it is; an [int] is rounded to
    the nearest float and raises [OverflowError] when that is infinite; a
    [Decimal] is converted through its decimal string, so rounded to the
    nearest float, infinite when too large. *)
Definition py_float (value : pyval) : exc pyfloat :=
  match value with
  | PyNone => Raise TypeError
  | PyInt z =>
      match to_double (inject_Z z) with
      | FInf _ => Raise OverflowError
      | f => Ok f
      end
  | PyFloat f => Ok f
  | PyDecimal negative coefficient exponent =>
      if (coefficient =? 0)%N
      then Ok (if negative then FNegZero else FNum 0)
      else Ok (to_double (decimal_value negative coefficient exponent))
  | PyStr s =>
      match float_of_str s with
      | Some f => Ok f
      | None => Raise ValueError
      end
  | PyDate _ => Raise TypeError
  end.

(** [value is None or pd.isna(value)]. *)
Definition is_none (value : pyval) : bool :=
  match value with
  | PyNone => true
  | _ => false
  end.

Definition pd_isna (value : pyval) : bool :=
  match value with
  | PyNone | PyFloat FNaN => true
  | _ => false
  end.

(** [format_metric_value(value, metric_name, is_crystal_ball)]. *)
Definition format_metric_value (value : pyval) (metric_name : string)
    (is_crystal_ball : bool) : option pynum :=
  if is_none value || pd_isna value then None
  else
    let config := default empty_config (METRICS_CONFIG !! metric_name) in
    let format_type := default "number"%string (cfg_format config) in
    try_except
      (if String.eqb metric_name "Rebills" && is_crystal_ball then
         x ← py_float value; r ← py_round x; mret (Some r)
       else if String.eqb format_type "percent" then
         x ← py_float value; r ← py_round2 (mul100 x); mret (Some r)
       else
         x ← py_float value; r ← py_round2 x; mret (Some r))
      None.

(** [get_display_metric_name(metric_name)]. *)
Definition get_display_metric_name (metric_name : string) : string :=
  let config := default empty_config (METRICS_CONFIG !! metric_name) in
  let display := default metric_name (cfg_display config) in
  let suffix := default EmptyString (cfg_suffix config) in
  (display ++ suffix)%string.

(** ** Pivot transform ([app.py], lines 156-192) *)

(** The column-oriented query result: a dict from column names to lists.
    The three key columns are typed; a field is [None] when the dict has
    no such key.  [metric_columns] holds the other entries. *)
Record records := Records {
  App_Name : option (list string);
  Plan_Name : option (list string);
  Reporting_Date : option (list pydate);
  metric_columns : gmap string (list pyval)
}.

(** [pivot_data.get(name)] seen as a list of objects. *)
Definition column (pivot_data : records) (name : string)
    : option (list pyval) :=
  if String.eqb name "App_Name" then fmap (M:=list) PyStr <$> App_Name pivot_data
  else if String.eqb name "Plan_Name" then fmap (M:=list) PyStr <$> Plan_Name pivot_data
  else if String.eqb name "Reporting_Date"
       then fmap (M:=list) PyDate <$> Reporting_Date pivot_data
  else metric_columns pivot_data !! name.

(** The dict [{}]. *)
Definition is_empty_dict (pivot_data : records) : bool :=
  match App_Name pivot_data, Plan_Name pivot_data,
        Reporting_Date pivot_data with
  | None, None, None => bool_decide (metric_columns pivot_data = ∅)
  | _, _, _ => false
  end.

(** A cell of a row: a string, or the number or [None] that
    [format_metric_value] returns. *)
Inductive cell :=
  | CStr (s : string)
  | CNum (v : option pynum).

(** A [row] dict, in insertion order. *)
Definition row : Type := list (string * cell).

(** [d[k] = v]: an existing key keeps its place. *)
Fixpoint dict_set {V} (k : string) (v : V) (d : list (string * V))
    : list (string * V) :=
  match d with
  | [] => [(k, v)]
  | (k', v') :: d' =>
      if String.eqb k' k then (k', v) :: d' else (k', v') :: dict_set k v d'
  end.

Fixpoint dict_get {V} (k : string) (d : list (string * V)) : option V :=
  match d with
  | [] => None
  | (k', v') :: d' => if String.eqb k' k then Some v' else dict_get k d'
  end.

(** A data frame: its column labels and, row by row, the cell of every
    column ([None]: the row has no such key). *)
Record DataFrame := {
  df_columns : list string;
  df_data : list (list (option cell))
}.

Definition add_key (cols : list string) (k : string) : list string :=
  if bool_decide (k ∈ cols) then cols else cols ++ [k].

(** [pd.DataFrame(rows)] on a list of dicts: the columns are the keys in
    the order in which they are first met. *)
Definition frame_columns (rows : list row) : list string :=
  foldl (λ cols r, foldl add_key cols r.*1) [] rows.

Definition pd_DataFrame (rows : list row) : DataFrame :=
  let columns := frame_columns rows in
  {| df_columns := columns;
     df_data := (λ r, (λ c, dict_get c r) <$> columns) <$> rows |}.

(** The body of the loop that collects [plan_combos]. *)
Definition collect_combo (pivot_data : records) (i : nat)
    (st : list combo * gset combo) : exc (list combo * gset combo) :=
  let '(plan_combos, seen) := st in
  a ← (l ← getitem (App_Name pivot_data); index l i);
  p ← (l ← getitem (Plan_Name pivot_data); index l i);
  let combo := (a, p) in
  if bool_decide (combo ∉ seen)
  then Ok (plan_combos ++ [combo], seen ∪ {[combo]})
  else Ok (plan_combos, seen).

(** The inner loop of the lookup construction, for row [i] and [key]. *)
Definition store_metric (pivot_data : records) (i : nat) (key : lookup_key)
    (metric : string) (lookup : gmap lookup_key (gmap string pyval))
    : exc (gmap lookup_key (gmap string pyval)) :=
  match column pivot_data metric with
  | Some col =>
      v ← index col i;
      inner ← getitem (lookup !! key);
      Ok (<[key := <[metric := v]> inner]> lookup)
  | None => Ok lookup
  end.

(** The body of the loop that fills [lookup]. *)
Definition fill_lookup (pivot_data : records) (selected_metrics : list string)
    (i : nat) (lookup : gmap lookup_key (gmap string pyval))
    : exc (gmap lookup_key (gmap string pyval)) :=
  a ← (l ← getitem (App_Name pivot_data); index l i);
  p ← (l ← getitem (Plan_Name pivot_data); index l i);
  d ← (l ← getitem (Reporting_Date pivot_data); index l i);
  let key := (a, p, d) in
  let lookup := if bool_decide (key ∉ dom lookup)
                then <[key := ∅]> lookup else lookup in
  for_each selected_metrics (store_metric pivot_data i key) lookup.

(** The row built for one plan and one metric. *)
Definition build_row (lookup : gmap lookup_key (gmap string pyval))
    (date_map : gmap pydate string) (unique_dates : list pydate)
    (is_crystal_ball : bool) (app_name plan_name metric : string) : exc row :=
  let row0 := [("App", CStr app_name); ("Plan", CStr plan_name);
               ("Metric", CStr (get_display_metric_name metric))]%string in
  for_each unique_dates
    (λ d r,
       let key := (app_name, plan_name, d) in
       let raw_value :=
         default PyNone (default ∅ (lookup !! key) !! metric) in
       label ← getitem (date_map !! d);
       Ok (dict_set label
             (CNum (format_metric_value raw_value metric is_crystal_ball)) r))
    row0.

(** [process_pivot_data(pivot_data, selected_metrics, is_crystal_ball)].
    [pivot_data = None] is Python's [None]; the result [Ok None] is the
    returned [None]. *)
Definition process_pivot_data (pivot_data : option records)
    (selected_metrics : list string) (is_crystal_ball : bool)
    : exc (option DataFrame) :=
  match pivot_data with
  | None => Ok None
  | Some pivot_data =>
      if is_empty_dict pivot_data then Ok None
      else
        match Reporting_Date pivot_data with
        | None => Ok None
        | Some reporting_dates =>
            if (length reporting_dates =? 0)%nat then Ok None
            else
              let unique_dates :=
                py_sorted_reverse date_ltb (remove_dups reporting_dates) in
              let date_map : gmap pydate string :=
                list_to_map ((λ d, (d, strftime_mdY d)) <$> unique_dates) in
              apps ← getitem (App_Name pivot_data);
              st ← for_each (seq 0 (length apps))
                     (collect_combo pivot_data) ([], ∅);
              let plan_combos := py_sorted (pair_ltb str_ltb str_ltb) st.1 in
              lookup ← for_each (seq 0 (length reporting_dates))
                         (fill_lookup pivot_data selected_metrics) ∅;
              rows ← for_each plan_combos
                       (λ '(app_name, plan_name) rows,
                          for_each selected_metrics
                            (λ metric rows,
                               r ← build_row lookup date_map unique_dates
                                     is_crystal_ball app_name plan_name metric;
                               Ok (rows ++ [r]))
                            rows)
                       [];
              Ok (Some (pd_DataFrame rows))
        end
  end.

End Transform.

(** ** Line charts ([charts.py], lines 21-150) *)

Module charts.

(** The argument [data]: a dict with the lists [Plan_Name],
    [Reporting_Date] and [metric_value]; a field is [None] when the dict
    has no such key.  A metric value is a number or SQL NULL ([None]). *)
Record chart_data := ChartData {
  Plan_Name : option (list string);
  Reporting_Date : option (list pydate);
  metric_value : option (list (option Q))
}.

(** A [go.Scatter] trace.  The line colour is left out: it is computed
    from [colors.build_plan_color_map], which is not part of the sources,
    and no property below depends on it. *)
Record Scatter := {
  x : list pydate;
  y : list Q;
  mode : string;
  name : string;
  line_shape : string;
  hovertemplate : string;
  showlegend : bool;
  connectgaps : bool
}.

(** A [go.Figure]: its traces and the parts of the layout that depend on
    the arguments (the theme colours come from [config]). *)
Record Figure := {
  fig_data : list Scatter;
  annotations : list string;
  xaxis_range : option (pydate * pydate);
  yaxis_tickprefix : string;
  yaxis_tickformat : string
}.

(** [float.__lt__] on finite numbers. *)
Definition num_ltb (a b : Q) : bool := negb (Qle_bool b a).

(** The dict [{}]. *)
Definition is_empty_dict (data : chart_data) : bool :=
  match Plan_Name data, Reporting_Date data, metric_value data with
  | None, None, None => true
  | _, _, _ => false
  end.

(** The figure of the empty case. *)
Definition no_data_figure : Figure :=
  {| fig_data := [];
     annotations := ["No data available for selected filters"%string];
     xaxis_range := None;
     yaxis_tickprefix := EmptyString;
     yaxis_tickformat := EmptyString |}.

(** The body of the loop that fills [plan_data]. *)
Definition organize (data : chart_data) (i : nat)
    (plan_data : gmap string (list pydate * list Q))
    : exc (gmap string (list pydate * list Q)) :=
  plan ← (l ← getitem (Plan_Name data); index l i);
  date ← (l ← getitem (Reporting_Date data); index l i);
  value ← (l ← getitem (metric_value data); index l i);
  let plan_data := if bool_decide (plan ∉ dom plan_data)
                   then <[plan := ([], [])]> plan_data else plan_data in
  entry ← getitem (plan_data !! plan);
  let entry := (entry.1 ++ [date], entry.2) in
  let entry := (entry.1, entry.2 ++ [default (0 # 1)%Q value]) in
  Ok (<[plan := entry]> plan_data).

Definition hover_template (plan format_type : string) : string :=
  if String.eqb format_type "dollar" then
    ("<b>" ++ plan ++ "</b><br>Date: %{x|%B %d, %Y}<br>Value: $%{y:,.2f}<extra></extra>")%string
  else if String.eqb format_type "percent" then
    ("<b>" ++ plan ++ "</b><br>Date: %{x|%B %d, %Y}<br>Value: %{y:.2%}<extra></extra>")%string
  else
    ("<b>" ++ plan ++ "</b><br>Date: %{x|%B %d, %Y}<br>Value: %{y:,.0f}<extra></extra>")%string.

(** The body of the loop that adds one trace per plan. *)
Definition add_plan_trace (plan_data : gmap string (list pydate * list Q))
    (format_type : string) (plan : string) (traces : list Scatter)
    : list Scatter :=
  match plan_data !! plan with
  | Some entry =>
      let sorted_pairs :=
        py_sorted (pair_ltb date_ltb num_ltb) (zip entry.1 entry.2) in
      let dates := sorted_pairs.*1 in
      let values := sorted_pairs.*2 in
      traces ++ [ {| x := dates; y := values; mode := "lines";
                     name := plan; line_shape := "linear";
                     hovertemplate := hover_template plan format_type;
                     showlegend := false; connectgaps := false |} ]
  | None => traces
  end.

(** [build_line_chart(data, display_name, format_type, date_range, theme)]:
    the pair of the figure and the list of plans.  [display_name] and
    [theme] only reach the styling. *)
Definition build_line_chart (data : option chart_data)
    (format_type : string) (date_range : option (pydate * pydate))
    : exc (Figure * list string) :=
  match data with
  | None => Ok (no_data_figure, [])
  | Some data =>
      if is_empty_dict data then Ok (no_data_figure, [])
      else
        match Plan_Name data with
        | None => Ok (no_data_figure, [])
        | Some plan_names =>
            if (length plan_names =? 0)%nat then Ok (no_data_figure, [])
            else
              let unique_plans := py_sorted str_ltb (remove_dups plan_names) in
              plan_data ← for_each (seq 0 (length plan_names))
                            (organize data) ∅;
              let traces :=
                foldl (λ traces plan,
                         add_plan_trace plan_data format_type plan traces)
                      [] unique_plans in
              let '(tickprefix, tickformat) :=
                if String.eqb format_type "dollar" then ("$", ",.2f")
                else if String.eqb format_type "percent"
                     then (EmptyString, ".1%")
                else (EmptyString, ",d") in
              Ok ({| fig_data := traces;
                     annotations := [];
                     xaxis_range := date_range;
                     yaxis_tickprefix := tickprefix;
                     yaxis_tickformat := tickformat |}, unique_plans)
        end
  end.

End charts.

(** ** Sample data used in the examples *)

Definition demo_users : gmap string user :=
  {[ "admin"%string := User "s3cret" "Administrator" "admin" ]}.

Definition demo_store : store :=
  (authenticate true demo_users 7 1000 "admin" "s3cret" ∅).2.

(** ** Vocabulary of the statements *)

(** A boolean [<] under which sorting is meaningful: asymmetric, and
    "not above" is transitive. *)
Class WeakOrderB {A} (lt : A → A → bool) : Prop := {
  ltb_asym x y : lt x y = true → lt y x = false;
  ltb_negtrans x y z : lt y x = false → lt z y = false → lt z x = false
}.

(** A boolean [<] that moreover separates distinct elements. *)
Class TotalOrderB {A} (lt : A → A → bool) : Prop := {
  total_weak :: WeakOrderB lt;
  ltb_connex x y : lt x y = false → lt y x = false → x = y
}.

(** [x] is not above [y]. *)
Definition not_above {A} (lt : A → A → bool) : relation A :=
  λ x y, lt y x = false.

(** [x] is below [y]. *)
Definition below {A} (lt : A → A → bool) : relation A :=
  λ x y, lt x y = true.

(** The metric is the count-like one of the alternate scenario. *)
Definition count_like (metric_name : string) (is_crystal_ball : bool) : Prop :=
  metric_name = "Rebills"%string ∧ is_crystal_ball = true.

(** The configured display format of the metric is "percent". *)
Definition percent_format (METRICS_CONFIG : gmap string metric_config)
    (metric_name : string) : Prop :=
  cfg_format (default empty_config (METRICS_CONFIG !! metric_name))
  = Some "percent"%string.

(** *** The query result as rows *)

Definition apps_of (pivot_data : records) : list string :=
  default [] (App_Name pivot_data).
Definition plans_of (pivot_data : records) : list string :=
  default [] (Plan_Name pivot_data).
Definition dates_of (pivot_data : records) : list pydate :=
  default [] (Reporting_Date pivot_data).

(** The (app, plan) pair and the (app, plan, date) key of every row. *)
Definition row_combos (pivot_data : records) : list combo :=
  zip (apps_of pivot_data) (plans_of pivot_data).
Definition row_keys (pivot_data : records) : list lookup_key :=
  zip (row_combos pivot_data) (dates_of pivot_data).

(** A date that [datetime.date] can hold and whose year prints with four
    digits on every platform. *)
Definition valid_date (d : pydate) : Prop :=
  (1000 ≤ year d ≤ 9999)%N ∧ (1 ≤ month d ≤ 12)%N ∧ (1 ≤ day d ≤ 31)%N.

(** The shape the data model asks of a query result: the three key
    columns are there, every column has one entry per row, and the dates
    are calendar dates. *)
Definition well_formed (pivot_data : records) : Prop :=
  is_Some (App_Name pivot_data)
  ∧ is_Some (Plan_Name pivot_data)
  ∧ is_Some (Reporting_Date pivot_data)
  ∧ length (apps_of pivot_data) = length (dates_of pivot_data)
  ∧ length (plans_of pivot_data) = length (dates_of pivot_data)
  ∧ map_Forall (λ _ col, length col = length (dates_of pivot_data))
               (metric_columns pivot_data)
  ∧ Forall valid_date (dates_of pivot_data).

(** The index of the last row that bears [key], counting from [i]. *)
Fixpoint last_row_from (i : nat) (keys : list lookup_key) (key : lookup_key)
    : option nat :=
  match keys with
  | [] => None
  | k :: keys' =>
      match last_row_from (S i) keys' key with
      | Some j => Some j
      | None => if decide (k = key) then Some i else None
      end
  end.

(** What the [lookup] dict holds for [key] and [metric] once the rows
    [keys] have been read. *)
Definition stored_value (pivot_data : records) (selected_metrics : list string)
    (keys : list lookup_key) (key : lookup_key) (metric : string)
    : option pyval :=
  if decide (metric ∈ selected_metrics) then
    col ← column pivot_data metric;
    i ← last_row_from 0 keys key;
    col !! i
  else None.

(** The cell of row [r] under the column [label]. *)
Definition frame_cell (df : DataFrame) (r : nat) (label : string)
    : option cell :=
  cells ← df_data df !! r;
  j ← fst <$> list_find (λ c, c = label) (df_columns df);
  mjoin (cells !! j).

Section TransformSpec.

Variable float_of_str : string → option pyfloat.
Variable METRICS_CONFIG : gmap string metric_config.

(** The distinct pairs in ascending order and the distinct dates, most
    recent first. *)
Definition sorted_combos (pivot_data : records) : list combo :=
  py_sorted (pair_ltb str_ltb str_ltb) (remove_dups (row_combos pivot_data)).
Definition sorted_dates (pivot_data : records) : list pydate :=
  py_sorted_reverse date_ltb (remove_dups (dates_of pivot_data)).

(** The raw value shown for [key] and [metric]: the entry of the metric's
    column at the last row bearing the key. *)
Definition raw_value (pivot_data : records) (key : lookup_key)
    (metric : string) : pyval :=
  default PyNone
    (col ← column pivot_data metric;
     i ← last_row_from 0 (row_keys pivot_data) key;
     col !! i).

(** The key columns and the labels of the date columns. *)
Definition key_columns : list string := ["App"; "Plan"; "Metric"]%string.
Definition date_labels (pivot_data : records) : list string :=
  strftime_mdY <$> sorted_dates pivot_data.

(** The [row] dict expected for a pair and a metric. *)
Definition expected_dict (pivot_data : records) (is_crystal_ball : bool)
    (c : combo) (metric : string) : row :=
  [("App", CStr c.1); ("Plan", CStr c.2);
   ("Metric", CStr (get_display_metric_name METRICS_CONFIG metric))]%string
  ++ ((λ d, (strftime_mdY d,
             CNum (format_metric_value float_of_str METRICS_CONFIG
                     (raw_value pivot_data (c, d) metric) metric
                     is_crystal_ball)))
      <$> sorted_dates pivot_data).

Definition expected_row (pivot_data : records) (is_crystal_ball : bool)
    (c : combo) (metric : string) : list cell :=
  [CStr c.1; CStr c.2;
   CStr (get_display_metric_name METRICS_CONFIG metric)]
  ++ ((λ d, CNum (format_metric_value float_of_str METRICS_CONFIG
                    (raw_value pivot_data (c, d) metric) metric
                    is_crystal_ball))
      <$> sorted_dates pivot_data).

Definition expected_frame (pivot_data : records)
    (selected_metrics : list string) (is_crystal_ball : bool) : DataFrame :=
  {| df_columns :=
       match selected_metrics with
       | [] => []
       | _ => key_columns ++ date_labels pivot_data
       end;
     df_data :=
       c ← sorted_combos pivot_data;
       metric ← selected_metrics;
       [Some <$> expected_row pivot_data is_crystal_ball c metric] |}.

End TransformSpec.

(** *** A small query result *)

(** A [float] parser that rejects every string. *)
Definition no_float : string → option pyfloat := λ _, None.

Definition sample_config : gmap string metric_config :=
  {[ "Revenue"%string := MetricConfig (Some "Revenue") (Some " ($)")
                                      (Some "dollar");
     "Conversion"%string := MetricConfig (Some "Conversion") (Some " (%)")
                                         (Some "percent") ]}%string.

Definition jan : pydate := Date 2024 1 1.
Definition feb : pydate := Date 2024 2 1.

(** Three rows; the first and the last bear the same key
    [("A", "P2", jan)], with the values 1 and 2 of Revenue. *)
Definition sample_records : records :=
  {| App_Name := Some ["A"; "A"; "A"]%string;
     Plan_Name := Some ["P2"; "P1"; "P2"]%string;
     Reporting_Date := Some [jan; feb; jan];
     metric_columns :=
       {[ "Revenue"%string := [PyInt 1; PyNone; PyInt 2] ]} |}.

(** A query result with dates but without the [App_Name] list, and one
    whose [Plan_Name] list is shorter than the others. *)
Definition headless_records : records :=
  {| App_Name := None;
     Plan_Name := Some ["P"]%string;
     Reporting_Date := Some [jan];
     metric_columns := {[ "Revenue"%string := [PyInt 1] ]} |}.

Definition uneven_records : records :=
  {| App_Name := Some ["A"; "B"]%string;
     Plan_Name := Some ["P"]%string;
     Reporting_Date := Some [jan; feb];
     metric_columns := {[ "Revenue"%string := [PyInt 1; PyInt 2] ]} |}.

(** *** The chart input as rows *)

Definition chart_plans (data : charts.chart_data) : list string :=
  default [] (charts.Plan_Name data).
Definition chart_dates (data : charts.chart_data) : list pydate :=
  default [] (charts.Reporting_Date data).
Definition chart_values (data : charts.chart_data) : list (option Q) :=
  default [] (charts.metric_value data).

Abbreviation chart_row := (string * pydate * option Q)%type.

Definition chart_rows (data : charts.chart_data) : list chart_row :=
  zip (zip (chart_plans data) (chart_dates data)) (chart_values data).

(** The three lists are there and have one entry per row. *)
Definition chart_well_formed (data : charts.chart_data) : Prop :=
  is_Some (charts.Plan_Name data)
  ∧ is_Some (charts.Reporting_Date data)
  ∧ is_Some (charts.metric_value data)
  ∧ length (chart_dates data) = length (chart_plans data)
  ∧ length (chart_values data) = length (chart_plans data).

(** The point a row contributes to the series of [plan]: its date and its
    value, 0 standing for NULL. *)
Definition point_of (plan : string) (r : chart_row) : option (pydate * Q) :=
  if decide (r.1.1 = plan) then Some (r.1.2, default (0 # 1)%Q r.2) else None.

(** The points of [plan], one per row of the plan, in the order of the
    rows. *)
Definition plan_points (rows : list chart_row) (plan : string)
    : list (pydate * Q) :=
  omap (point_of plan) rows.

Definition expected_trace (data : charts.chart_data) (format_type : string)
    (plan : string) : charts.Scatter :=
  let sorted_pairs :=
    py_sorted (pair_ltb date_ltb charts.num_ltb)
              (plan_points (chart_rows data) plan) in
  {| charts.x := sorted_pairs.*1;
     charts.y := sorted_pairs.*2;
     charts.mode := "lines";
     charts.name := plan;
     charts.line_shape := "linear";
     charts.hovertemplate := charts.hover_template plan format_type;
     charts.showlegend := false;
     charts.connectgaps := false |}.

(** Two rows of one plan, the second with a NULL value, and one row of
    another plan. *)
Definition sample_chart : charts.chart_data :=
  {| charts.Plan_Name := Some ["P1"; "P2"; "P1"; "P1"]%string;
     charts.Reporting_Date := Some [feb; jan; jan; jan];
     charts.metric_value :=
       Some [None; Some (7 # 1); Some (5 # 1); Some (5 # 1)]%Q |}.

(** A chart input with plans but without the [Reporting_Date] list. *)
Definition dateless_chart : charts.chart_data :=
  {| charts.Plan_Name := Some ["P"]%string;
     charts.Reporting_Date := None;
     charts.metric_value := Some [Some (5 # 1)]%Q |}.

(** One plan with the points [(jan, 5); (feb, NULL)]. *)
Definition sample_series : charts.chart_data :=
  {| charts.Plan_Name := Some ["P"; "P"]%string;
     charts.Reporting_Date := Some [jan; feb];
     charts.metric_value := Some [Some (5 # 1); None]%Q |}.

(** ** Login and logout handlers ([app.py], lines 236-253, 318-324 and
    440-446) *)

(** The per-user dict [session_store]: its keys [session_id] and [user],
    each possibly missing. *)
Record session_dict := SessionDict {
  ss_session_id : option string;
  ss_user : option user
}.

(** The text shown in the [error_msg] pane of the login page. *)
Inductive message :=
  | NoMessage
  | EnterBoth            (* Please enter both username and password *)
  | InvalidCredentials.  (* Invalid username or password *)

(** What [main_area] shows: the login page with its message, or a page
    behind the login (the landing page, from which the dashboard opens). *)
Inductive view :=
  | LoginPage (error_msg : message)
  | LandingPage.

(** The state the handlers act on: the module global [_sessions], the
    dict [session_store] of the browser session and the page shown. *)
Record app_state := AppState {
  st_sessions : store;
  st_session_store : session_dict;
  st_view : view
}.

(** Python truthiness of a [str]. *)
Definition truthy_str (s : string) : bool :=
  match s with
  | EmptyString => false
  | _ => true
  end.

(** [do_login(event)], [username] and [password] being the values of the
    two input widgets. *)
Definition do_login (IMPORTS_OK : bool) (DEFAULT_USERS : gmap string user)
    (r : N) (now : Z) (username password : string) (s : app_state)
    : app_state :=
  if negb (truthy_str username) || negb (truthy_str password) then
    {| st_sessions := st_sessions s;
       st_session_store := st_session_store s;
       st_view := LoginPage EnterBoth |}
  else
    let '((success, session_id, usr), sessions') :=
      authenticate IMPORTS_OK DEFAULT_USERS r now username password
                   (st_sessions s) in
    if success then
      {| st_sessions := sessions';
         st_session_store := {| ss_session_id := session_id;
                                ss_user := usr |};
         st_view := LandingPage |}
    else
      {| st_sessions := sessions';
         st_session_store := st_session_store s;
         st_view := LoginPage InvalidCredentials |}.

(** [do_logout(event)], the same on the landing page and on the
    dashboard. *)
Definition do_logout (s : app_state) : app_state :=
  let session_id := ss_session_id (st_session_store s) in
  let sessions' :=
    match truthy_id session_id with
    | Some sid => logout sid (st_sessions s)
    | None => st_sessions s
    end in
  {| st_sessions := sessions';
     st_session_store := {| ss_session_id := None; ss_user := None |};
     st_view := LoginPage NoMessage |}.

(** ** Plans by application ([app.py], lines 121-129) *)

(** The dict returned by [load_plan_groups]. *)
Record plan_groups := PlanGroups {
  pg_App_Name : option (list string);
  pg_Plan_Name : option (list string)
}.

(** The body of the loop of [get_plans_by_app]. *)
Definition add_plan (row : string * string)
    (result : gmap string (list string)) : exc (gmap string (list string)) :=
  let '(app, plan) := row in
  let result := if bool_decide (app ∉ dom result)
                then <[app := []]> result else result in
  plans ← getitem (result !! app);
  if bool_decide (plan ∉ plans)
  then Ok (<[app := plans ++ [plan]]> result)
  else Ok result.

(** [get_plans_by_app(plan_groups)]. *)
Definition get_plans_by_app (pg : plan_groups)
    : exc (gmap string (list string)) :=
  apps ← getitem (pg_App_Name pg);
  plans ← getitem (pg_Plan_Name pg);
  for_each (zip apps plans) add_plan ∅.

(** The elements of [l] in the order in which they are first met. *)
Fixpoint first_seen (l : list string) : list string :=
  match l with
  | [] => []
  | x :: l' => x :: filter (λ y, y ≠ x) (first_seen l')
  end.

(** The plans listed with [app], in the order of the rows. *)
Definition plans_of_app (rows : list (string * string)) (app : string)
    : list string :=
  (filter (λ row, row.1 = app) rows).*2.

(** ** Theme colours ([theme.py], lines 30-32 and 243-270) *)

(** [get_theme_colors(theme)]: the default [THEME_COLORS["dark"]] is
    evaluated before the lookup. *)
Definition get_theme_colors (THEME_COLORS : gmap string (gmap string string))
    (theme : string) : exc (gmap string string) :=
  dark ← getitem (THEME_COLORS !! "dark"%string);
  Ok (default dark (THEME_COLORS !! theme)).

(** The dict returned by [get_plotly_layout]. *)
Record plotly_layout := {
  paper_bgcolor : string;
  plot_bgcolor : string;
  font_family : string;
  font_size : Z;
  font_color : string;
  xaxis_gridcolor : string;
  xaxis_linecolor : string;
  xaxis_tickfont_color : string;
  yaxis_gridcolor : string;
  yaxis_linecolor : string;
  yaxis_tickfont_color : string;
  legend_font_color : string;
  legend_bgcolor : string
}.

(** [get_plotly_layout(theme)]. *)
Definition get_plotly_layout (THEME_COLORS : gmap string (gmap string string))
    (theme : string) : exc plotly_layout :=
  colors ← get_theme_colors THEME_COLORS theme;
  paper ← getitem (colors !! "card_bg"%string);
  plot ← getitem (colors !! "card_bg"%string);
  font ← getitem (colors !! "text_primary"%string);
  xgrid ← getitem (colors !! "border"%string);
  xline ← getitem (colors !! "border"%string);
  xtick ← getitem (colors !! "text_secondary"%string);
  ygrid ← getitem (colors !! "border"%string);
  yline ← getitem (colors !! "border"%string);
  ytick ← getitem (colors !! "text_secondary"%string);
  legend ← getitem (colors !! "text_primary"%string);
  Ok {| paper_bgcolor := paper; plot_bgcolor := plot;
        font_family := "Inter, sans-serif"; font_size := 12;
        font_color := font;
        xaxis_gridcolor := xgrid; xaxis_linecolor := xline;
        xaxis_tickfont_color := xtick;
        yaxis_gridcolor := ygrid; yaxis_linecolor := yline;
        yaxis_tickfont_color := ytick;
        legend_font_color := legend;
        legend_bgcolor := "rgba(0,0,0,0)" |}.

(** ** Vocabulary of the further statements *)

(** A lower-case hexadecimal digit. *)
Definition is_lower_hex (c : ascii) : bool :=
  bool_decide (c ∈ ["0"; "1"; "2"; "3"; "4"; "5"; "6"; "7"; "8"; "9";
                    "a"; "b"; "c"; "d"; "e"; "f"]%char).

Fixpoint string_forallb (P : ascii → bool) (s : string) : bool :=
  match s with
  | EmptyString => true
  | String c s' => P c && string_forallb P s'
  end.

(** *** Sample inputs of the further statements *)

(** The login page, one session being open elsewhere. *)
Definition demo_state : app_state :=
  {| st_sessions := demo_store;
     st_session_store := SessionDict None None;
     st_view := LoginPage NoMessage |}.

(** A palette with the four colours the layout reads. *)
Definition complete_palette (colors : gmap string string) : Prop :=
  is_Some (colors !! "card_bg"%string)
  ∧ is_Some (colors !! "text_primary"%string)
  ∧ is_Some (colors !! "border"%string)
  ∧ is_Some (colors !! "text_secondary"%string).

Definition sample_palette (bg : string) : gmap string string :=
  {[ "card_bg"%string := bg; "text_primary"%string := "#F1F5F9"%string;
     "border"%string := "#334155"%string;
     "text_secondary"%string := "#94A3B8"%string ]}.

Definition sample_themes : gmap string (gmap string string) :=
  {[ "dark"%string := sample_palette "#1E293B";
     "light"%string := sample_palette "#FFFFFF" ]}.

Definition sample_plan_groups : plan_groups :=
  {| pg_App_Name := Some ["A"; "B"; "A"; "A"; "B"]%string;
     pg_Plan_Name := Some ["P1"; "P2"; "P1"; "P3"]%string |}.

(** The sample query result with one more metric column. *)
Definition sample_records_wide : records :=
  {| App_Name := App_Name sample_records;
     Plan_Name := Plan_Name sample_records;
     Reporting_Date := Reporting_Date sample_records;
     metric_columns :=
       <["Refunds"%string := [PyInt 3; PyInt 4; PyNone]]>
         (metric_columns sample_records) |}.

(** ** Order of floats *)

(** The number a finite float denotes. *)
Definition float_Q (x : pyfloat) : option Q :=
  match x with
  | FNum q => Some q
  | FNegZero => Some 0%Q
  | _ => None
  end.

(** [x <= y] on floats: the two zeros are equal, and NaN compares with
    nothing. *)
Definition float_le (x y : pyfloat) : Prop :=
  match x, y with
  | FNaN, _ | _, FNaN => False
  | FInf true, _ => True
  | _, FInf false => True
  | FInf false, _ => False
  | _, FInf true => False
  | FNum a, FNum b => (a <= b)%Q
  | FNum a, FNegZero => (a <= 0)%Q
  | FNegZero, FNum b => (0 <= b)%Q
  | FNegZero, FNegZero => True
  end.

(** [<=] on the results of [round]. *)
Definition pynum_le (a b : pynum) : Prop :=
  match a, b with
  | RInt x, RInt y => x ≤ y
  | RFloat x, RFloat y => float_le x y
  | _, _ => False
  end.

(** A query result whose [Plan_Name] list is too short. *)
Definition ragged_records : records :=
  {| App_Name := Some ["A"; "A"]%string;
     Plan_Name := Some ["P"]%string;
     Reporting_Date := Some [jan; feb];
     metric_columns := ∅ |}.

(** ** What a chart shows *)

(** The series of a trace: its name and its points. *)
Definition trace_series (t : charts.Scatter)
    : string * list pydate * list Q :=
  (charts.name t, charts.x t, charts.y t).

(** The series of a result of [build_line_chart], with the list of plans. *)
Definition chart_series (r : charts.Figure * list string)
    : list (string * list pydate * list Q) * list string :=
  (trace_series <$> charts.fig_data r.1, r.2).

(** The number of points of a figure, over all traces. *)
Definition points_plotted (fig : charts.Figure) : nat :=
  sum_list ((λ t, length (charts.x t)) <$> charts.fig_data fig).

(** A chart input whose [metric_value] list is too short. *)
Definition ragged_chart : charts.chart_data :=
  {| charts.Plan_Name := Some ["P1"; "P2"; "P1"]%string;
     charts.Reporting_Date := Some [jan; feb; jan];
     charts.metric_value := Some [Some (5 # 1); None]%Q |}.

(** * Properties *)

(** ** Sessions *)

Lemma hex_of_length digits r acc :
  String.length (hex_of digits r acc) = (digits + String.length acc)%nat.
Proof.
  revert r acc. induction digits as [|k IH]; intros r acc; simpl; [done|].
  rewrite IH. simpl. lia.
Qed.

Lemma token_hex_length nbytes r :
  String.length (token_hex nbytes r) = (2 * nbytes)%nat.
Proof. unfold token_hex. rewrite hex_of_length. simpl. lia. Qed.

Lemma token_hex_nonempty r : token_hex 32 r ≠ EmptyString.
Proof.
  intros H. pose proof (token_hex_length 32 r) as Hl.
  rewrite H in Hl. discriminate Hl.
Qed.

(** Every key of a store the process can hold is a token, hence truthy. *)
Lemma reachable_keys_truthy users st sid s :
  reachable users st → st !! sid = Some s → sid ≠ EmptyString.
Proof.
  intros Hreach. revert sid s.
  induction Hreach as [|ok r now uid pw st _ IH|now sid' st _ IH|sid' st _ IH];
    intros sid s Hsid.
  - by rewrite lookup_empty in Hsid.
  - unfold authenticate in Hsid.
    destruct (negb ok); [by eapply IH|].
    destruct (users !! uid) as [usr|]; [|by eapply IH].
    destruct (negb _); [by eapply IH|]. simpl in Hsid.
    destruct (decide (token_hex 32 r = sid)) as [<-|Hne].
    + apply token_hex_nonempty.
    + rewrite lookup_insert_ne in Hsid by done. by eapply IH.
  - unfold get_session in Hsid.
    destruct (truthy_id sid') as [k|]; [|by eapply IH].
    destruct (st !! k) as [sess|] eqn:Hk; [|by eapply IH].
    destruct (now >? s_expires_at sess); [|by eapply IH]. simpl in Hsid.
    apply lookup_delete_Some in Hsid as [_ Hsid]. by eapply IH.
  - unfold logout in Hsid.
    destruct (st !! sid') eqn:Hk; [|by eapply IH].
    apply lookup_delete_Some in Hsid as [_ Hsid]. by eapply IH.
Qed.

Lemma truthy_id_Some sid : sid ≠ EmptyString → truthy_id (Some sid) = Some sid.
Proof. by destruct sid. Qed.

Lemma get_session_unknown now sid (st : store) :
  st !! sid = None → get_session now (Some sid) st = (None, st).
Proof.
  intros H. unfold get_session.
  destruct (truthy_id (Some sid)) as [k|] eqn:Hk; [|done].
  assert (k = sid) as -> by (destruct sid; simpl in Hk; congruence).
  by rewrite H.
Qed.

(** C5.  For a session of the store whose expiry instant is past,
    [get_session] returns [None] and removes the entry; calling it again
    with the same id, at any instant, returns [None] once more and leaves
    the store as it is; [None], the empty id and an id that is not a key
    of the store also give [None], the store being untouched. *)
Theorem get_session_expired users (st : store) sid s now :
  reachable users st →
  st !! sid = Some s →
  now > s_expires_at s →
  get_session now (Some sid) st = (None, delete sid st)
  ∧ delete sid st !! sid = None
  ∧ (∀ k, k ≠ sid → delete sid st !! k = st !! k)
  ∧ (∀ now', get_session now' (Some sid) (delete sid st)
             = (None, delete sid st))
  ∧ (∀ now' (st' : store),
       get_session now' None st' = (None, st')
       ∧ get_session now' (Some EmptyString) st' = (None, st')
       ∧ ∀ k, st' !! k = None → get_session now' (Some k) st' = (None, st')).
Proof.
  intros Hreach Hsid Hexp.
  pose proof (reachable_keys_truthy _ _ _ _ Hreach Hsid) as Hne.
  split; [|split; [|split; [|split]]].
  - unfold get_session. rewrite (truthy_id_Some _ Hne), Hsid.
    destruct (Z.gtb_spec now (s_expires_at s)); [done|lia].
  - apply lookup_delete_eq.
  - intros k Hk. by apply lookup_delete_ne.
  - intros now'. apply get_session_unknown, lookup_delete_eq.
  - intros now' st'. split; [reflexivity|]. split; [reflexivity|].
    intros k Hk. by apply get_session_unknown.
Qed.

Lemma get_session_expired_witness :
  get_session (1001 + ONE_DAY) (Some (token_hex 32 7)) demo_store
  = (None, delete (token_hex 32 7) demo_store).
Proof.
  refine (proj1 (get_session_expired demo_users demo_store (token_hex 32 7)
    (Session "admin" "Administrator" "admin" (1000 + ONE_DAY))
    (1001 + ONE_DAY) _ _ _)).
  - apply reach_authenticate, reach_init.
  - vm_compute. reflexivity.
  - vm_compute. reflexivity.
Defined.

(** C6.  [authenticate] fails exactly when the imports failed, the user
    id has no entry or the password differs from the stored one; the
    three causes give the same tuple [(False, None, None)] and leave the
    store as it was. *)
Theorem authenticate_failure ok users r now uid pw (st : store) :
  (ok = false
   ∨ users !! uid = None
   ∨ ∃ usr, users !! uid = Some usr ∧ u_password usr ≠ pw)
  ↔ authenticate ok users r now uid pw st = ((false, None, None), st).
Proof.
  unfold authenticate, auth_failure. split.
  - intros [->|[Hno|(usr & Hu & Hpw)]]; [done| |].
    + rewrite Hno. by destruct (negb ok).
    + rewrite Hu. apply String.eqb_neq in Hpw. rewrite Hpw.
      by destruct (negb ok).
  - destruct ok; simpl; [|by left]. intros H.
    destruct (users !! uid) as [usr|]; [|by right; left].
    destruct (String.eqb_spec (u_password usr) pw) as [Heq|Hneq]; simpl in H.
    + discriminate H.
    + right; right. eauto.
Qed.

(** C7, amended.  A call of [authenticate] with a registered id and its
    password returns the token it drew and the user record, and stores
    under the token a session expiring 24 hours after [now]; every other
    key keeps its value.  When the token is not yet a key of the store,
    all prior sessions (of this user too) remain and the store grows by
    one entry.  When the token is already a key, which the code does not
    check, its session is written over and the store does not grow. *)
Theorem authenticate_success users r now uid pw (st : store) usr :
  users !! uid = Some usr →
  u_password usr = pw →
  ∃ st',
    authenticate true users r now uid pw st
    = ((true, Some (token_hex 32 r), Some usr), st')
    ∧ st' !! token_hex 32 r
      = Some (Session uid (u_name usr) (u_role usr)
                      (now + 24 * 3600 * 1000000))
    ∧ (∀ k, k ≠ token_hex 32 r → st' !! k = st !! k)
    ∧ (st !! token_hex 32 r = None →
         (∀ k s, st !! k = Some s → st' !! k = Some s)
         ∧ dom st' = {[ token_hex 32 r ]} ∪ dom st
         ∧ size st' = S (size st))
    ∧ (is_Some (st !! token_hex 32 r) →
         dom st' = dom st ∧ size st' = size st).
Proof.
  intros Hu Hpw. eexists. unfold authenticate. rewrite Hu. simpl.
  apply String.eqb_eq in Hpw. rewrite Hpw. simpl. split; [reflexivity|].
  split; [|split; [|split]].
  - by rewrite lookup_insert_eq.
  - intros k Hk. by rewrite lookup_insert_ne.
  - intros Hfresh. split; [|split].
    + intros k s Hk. rewrite lookup_insert_ne; [done|]. congruence.
    + apply dom_insert_L.
    + by apply map_size_insert_None.
  - intros [old Hold]. split.
    + apply dom_insert_lookup_L. by eexists.
    + by eapply map_size_insert_Some.
Qed.

Lemma authenticate_success_witness :
  ∃ st',
    authenticate true demo_users 8 2000 "admin" "s3cret" demo_store
    = ((true, Some (token_hex 32 8),
        Some (User "s3cret" "Administrator" "admin")), st')
    ∧ size st' = 2%nat.
Proof.
  destruct (authenticate_success demo_users 8 2000 "admin" "s3cret" demo_store
              (User "s3cret" "Administrator" "admin"))
    as (st' & H1 & _ & _ & Hfresh & _).
  - vm_compute. reflexivity.
  - reflexivity.
  - exists st'. split; [exact H1|].
    destruct Hfresh as (_ & _ & H6); [vm_compute; reflexivity|].
    rewrite H6. vm_compute. reflexivity.
Defined.

(** C7, counterexample.  Nothing in [authenticate] checks that the token
    it draws is new: a successful call that draws the token of a session
    of the store writes over that session (here its expiry changes) and
    the store does not grow. *)
Lemma token_collision_counterexample :
  let call := authenticate true demo_users 7 2000 "admin" "s3cret"
                demo_store in
  call.1 = (true, Some (token_hex 32 7),
            Some (User "s3cret" "Administrator" "admin"))
  ∧ demo_store !! token_hex 32 7
    = Some (Session "admin" "Administrator" "admin" (1000 + ONE_DAY))
  ∧ call.2 !! token_hex 32 7
    = Some (Session "admin" "Administrator" "admin" (2000 + ONE_DAY))
  ∧ size call.2 = size demo_store.
Proof.
  cbv zeta. unfold demo_store, authenticate, demo_users.
  rewrite !lookup_singleton_eq. cbn [negb u_password String.eqb].
  repeat split; cbn; rewrite ?lookup_insert_eq, ?insert_insert_eq; done.
Qed.

(** ** Rounding *)

Lemma round_half_even_cases q :
  let f := Qfloor q in
  (round_half_even q = f ∧ (q - inject_Z f <= 1 # 2)%Q)
  ∨ (round_half_even q = f + 1 ∧ (1 # 2 <= q - inject_Z f)%Q).
Proof.
  intros f. unfold round_half_even. fold f.
  destruct (Qcompare_spec (q - inject_Z f) (1 # 2)) as [He|Hl|Hg].
  - destruct (Z.even f); [left|right]; split; try done; rewrite He; lra.
  - left. split; [done|lra].
  - right. split; [done|lra].
Qed.

(** [round_half_even q] is an integer nearest to [q]. *)
Lemma round_half_even_nearest q (z : Z) :
  (Qabs (q - inject_Z (round_half_even q)) <= Qabs (q - inject_Z z))%Q.
Proof.
  pose proof (Qfloor_le q) as Hlo. pose proof (Qlt_floor q) as Hhi.
  rewrite inject_Z_plus in Hhi.
  assert (Hz : (inject_Z z <= inject_Z (Qfloor q)
                ∨ inject_Z (Qfloor q) + 1 <= inject_Z z)%Q).
  { destruct (Z_le_gt_dec z (Qfloor q)) as [Hle|Hgt].
    - left. by rewrite <- Zle_Qle.
    - right. change 1%Q with (inject_Z 1).
      rewrite <- (inject_Z_plus (Qfloor q) 1), <- Zle_Qle. lia. }
  change (inject_Z 1) with 1%Q in Hhi.
  destruct (round_half_even_cases q) as [[-> Hr]|[-> Hr]].
  - rewrite (Qabs_pos (q - inject_Z (Qfloor q))) by lra.
    destruct Hz as [Hz|Hz].
    + rewrite Qabs_pos by lra. lra.
    + rewrite Qabs_neg by lra. lra.
  - rewrite inject_Z_plus. change (inject_Z 1) with 1%Q.
    rewrite (Qabs_neg (q - (inject_Z (Qfloor q) + 1))) by lra.
    destruct Hz as [Hz|Hz].
    + rewrite Qabs_pos by lra. lra.
    + rewrite Qabs_neg by lra. lra.
Qed.

(** On a tie the even neighbour is taken. *)
Lemma round_half_even_tie q :
  (q - inject_Z (Qfloor q) == 1 # 2)%Q → Z.even (round_half_even q) = true.
Proof.
  intros He. unfold round_half_even.
  destruct (Qcompare_spec (q - inject_Z (Qfloor q)) (1 # 2)) as [_|Hl|Hg];
    [|lra|lra].
  destruct (Z.even (Qfloor q)) eqn:Hev; [done|].
  change (Qfloor q + 1) with (Z.succ (Qfloor q)).
  rewrite Z.even_succ, <- Z.negb_even. by rewrite Hev.
Qed.

(** [round_2 q] is a multiple of 1/100 nearest to [q]. *)
Lemma round_2_nearest q (z : Z) :
  (Qabs (q - round_2 q) <= Qabs (q - (z # 100)))%Q.
Proof.
  pose proof (round_half_even_nearest (q * inject_Z 100) z) as H.
  unfold round_2. set (n := round_half_even (q * inject_Z 100)) in *.
  assert (Hn : ∀ k : Z, (q - (k # 100) == (q * inject_Z 100 - inject_Z k) * (1 # 100))%Q).
  { intros k. rewrite (Qmake_Qdiv k 100). unfold inject_Z at 2.
    change (Z.pos 100 # 1)%Q with (inject_Z 100). field. }
  rewrite (Hn n), (Hn z), !Qabs_Qmult.
  apply Qmult_le_compat_r; [exact H|done].
Qed.

(** ** Binary64 rounding *)

Lemma pow2_pos e : (0 < pow2 e)%Q.
Proof. apply Qpower_0_lt. done. Qed.

Lemma pow2_plus a b : (pow2 (a + b) == pow2 a * pow2 b)%Q.
Proof. apply Qpower_plus. done. Qed.

Lemma pow2_le a b : a ≤ b → (pow2 a <= pow2 b)%Q.
Proof. intros H. apply Qpower_le_compat_l; [done|]. done. Qed.

Lemma pow2_lt a b : a < b → (pow2 a < pow2 b)%Q.
Proof. intros H. apply Qpower_lt_compat_l; [done|]. done. Qed.

Lemma pow2_inject n : 0 ≤ n → (inject_Z (2 ^ n) == pow2 n)%Q.
Proof. intros H. by rewrite Zpower_Qpower. Qed.

Lemma pow2_succ a : (pow2 (a + 1) == 2 * pow2 a)%Q.
Proof. rewrite pow2_plus. change (pow2 1) with (2 # 1)%Q. ring. Qed.

Lemma pow2_pred a : (pow2 (a - 1) == pow2 a * (1 # 2))%Q.
Proof.
  pose proof (pow2_succ (a - 1)) as H.
  replace (a - 1 + 1) with a in H by lia. rewrite H. field.
Qed.

(** [Qlog2] is the exponent of the binade of a positive rational. *)
Lemma Qlog2_spec q :
  (0 < q)%Q → (pow2 (Qlog2 q) <= q)%Q ∧ (q < pow2 (Qlog2 q + 1))%Q.
Proof.
  intros Hq. destruct q as [n d].
  assert (Hn : 0 < n) by (unfold Qlt in Hq; simpl in Hq; lia).
  unfold Qlog2. cbn [Qnum Qden].
  set (a := Z.log2 n). set (b := Z.log2 (Z.pos d)).
  destruct (Z.log2_spec n Hn) as [Ha1 Ha2]. fold a in Ha1, Ha2.
  destruct (Z.log2_spec (Z.pos d) eq_refl) as [Hb1 Hb2]. fold b in Hb1, Hb2.
  assert (Ha0 : 0 ≤ a) by apply Z.log2_nonneg.
  assert (Hb0 : 0 ≤ b) by apply Z.log2_nonneg.
  assert (Hnq : (pow2 a <= inject_Z n)%Q ∧ (inject_Z n < pow2 (a + 1))%Q).
  { rewrite <- !pow2_inject by lia. rewrite <- Zle_Qle, <- Zlt_Qlt.
    split; [done|]. by rewrite <- Z.add_1_r in Ha2. }
  assert (Hdq : (pow2 b <= inject_Z (Z.pos d))%Q
                ∧ (inject_Z (Z.pos d) < pow2 (b + 1))%Q).
  { rewrite <- !pow2_inject by lia. rewrite <- Zle_Qle, <- Zlt_Qlt.
    split; [done|]. by rewrite <- Z.add_1_r in Hb2. }
  assert (Hq' : (n # d == inject_Z n / inject_Z (Z.pos d))%Q)
    by apply Qmake_Qdiv.
  assert (Hd0 : (0 < inject_Z (Z.pos d))%Q) by done.
  assert (Hmul : ((n # d) * inject_Z (Z.pos d) == inject_Z n)%Q).
  { rewrite Hq'. field. lra. }
  assert (Hbounds : (pow2 (a - b - 1) < n # d)%Q ∧ (n # d < pow2 (a - b + 1))%Q).
  { split.
    - apply (Qmult_lt_r _ _ (inject_Z (Z.pos d)) Hd0). rewrite Hmul.
      apply Qlt_le_trans with (pow2 (a - b - 1) * pow2 (b + 1))%Q.
      + apply Qmult_lt_l; [apply pow2_pos|apply Hdq].
      + rewrite <- pow2_plus. replace (a - b - 1 + (b + 1)) with a by lia.
        apply Hnq.
    - apply (Qmult_lt_r _ _ (inject_Z (Z.pos d)) Hd0). rewrite Hmul.
      apply Qlt_le_trans with (pow2 (a + 1)); [apply Hnq|].
      replace (a + 1) with (a - b + 1 + b) by lia. rewrite pow2_plus.
      apply Qmult_le_l; [apply pow2_pos|apply Hdq]. }
  destruct (Qle_bool (pow2 (a - b)) (n # d)) eqn:Hle.
  - apply Qle_bool_iff in Hle. split; [done|apply Hbounds].
  - assert (Hlt : (n # d < pow2 (a - b))%Q).
    { apply Qnot_le_lt. intros H. apply Qle_bool_iff in H. congruence. }
    split; [apply Qlt_le_weak, Hbounds|].
    by replace (a - b - 1 + 1) with (a - b) by lia.
Qed.

Lemma round_half_even_error q :
  (Qabs (q - inject_Z (round_half_even q)) <= 1 # 2)%Q.
Proof.
  pose proof (Qfloor_le q) as Hlo. pose proof (Qlt_floor q) as Hhi.
  rewrite inject_Z_plus in Hhi. change (inject_Z 1) with 1%Q in Hhi.
  apply Qabs_Qle_condition.
  destruct (round_half_even_cases q) as [[-> Hr]|[-> Hr]].
  - split; lra.
  - rewrite inject_Z_plus. change (inject_Z 1) with 1%Q. split; lra.
Qed.

Lemma round_half_even_comp q1 q2 :
  (q1 == q2)%Q → round_half_even q1 = round_half_even q2.
Proof.
  intros Heq. unfold round_half_even.
  rewrite (Qfloor_comp _ _ Heq).
  assert (Hc : (q1 - inject_Z (Qfloor q2) ?= 1 # 2)%Q
               = (q2 - inject_Z (Qfloor q2) ?= 1 # 2)%Q).
  { apply Qcompare_comp; [by rewrite Heq|done]. }
  by rewrite Hc.
Qed.

Lemma round_half_even_Z z : round_half_even (inject_Z z) = z.
Proof.
  unfold round_half_even. rewrite Qfloor_Z.
  destruct (Qcompare_spec (inject_Z z - inject_Z z) (1 # 2)) as [H|H|H];
    [lra|done|lra].
Qed.

(** The finite results of [to_double]: a significand times the unit of
    the last place, below [2^1024]. *)
Lemma to_double_FNum q r :
  to_double q = FNum r →
  (r == inject_Z (round_half_even (q / pow2 (ulp_exponent q)))
        * pow2 (ulp_exponent q))%Q
  ∧ (Qabs r < pow2 1024)%Q.
Proof.
  unfold to_double. cbv zeta.
  set (E := ulp_exponent q). set (m := round_half_even (q / pow2 E)).
  destruct (Z.eqb_spec m 0) as [Hm|Hm].
  - destruct (Qle_bool 0 q); [|done]. intros [= <-]. rewrite Hm.
    split; [ring|apply pow2_pos].
  - destruct (Qle_bool (pow2 1024) (Qabs (inject_Z m * pow2 E))) eqn:Hov;
      [done|].
    intros [= <-]. rewrite Qred_correct. split; [done|].
    apply Qnot_le_lt. intros H. apply Qle_bool_iff in H. congruence.
Qed.

(** The error of [to_double] is at most half a unit of the last place. *)
Lemma to_double_error q r :
  to_double q = FNum r →
  (Qabs (r - q) <= pow2 (ulp_exponent q - 1))%Q.
Proof.
  intros [Hr _]%to_double_FNum.
  set (E := ulp_exponent q) in *.
  set (m := round_half_even (q / pow2 E)) in *.
  pose proof (pow2_pos E) as HE.
  assert (Heq : (r - q == - (q / pow2 E - inject_Z m) * pow2 E)%Q).
  { rewrite Hr. field. lra. }
  rewrite Heq, Qabs_Qmult, Qabs_opp, (Qabs_pos (pow2 E)) by lra.
  rewrite pow2_pred, (Qmult_comm (pow2 E)).
  apply Qmult_le_compat_r; [|lra]. apply round_half_even_error.
Qed.

Lemma ulp_exponent_bounds q :
  ¬ (q == 0)%Q →
  -1074 ≤ ulp_exponent q
  ∧ (Qabs q < pow2 (ulp_exponent q + 53))%Q
  ∧ (ulp_exponent q = -1074 ∨ (pow2 (ulp_exponent q + 52) <= Qabs q)%Q).
Proof.
  intros Hq.
  assert (Hpos : (0 < Qabs q)%Q).
  { destruct (Qlt_le_dec 0 (Qabs q)) as [|Hle]; [done|].
    pose proof (Qabs_nonneg q). destruct Hq.
    apply Qabs_Qle_condition in Hle. lra. }
  destruct (Qlog2_spec (Qabs q) Hpos) as [Hlo Hhi].
  unfold ulp_exponent. set (L := Qlog2 (Qabs q)) in *.
  split; [lia|]. split.
  - apply Qlt_le_trans with (pow2 (L + 1)); [done|]. apply pow2_le. lia.
  - destruct (Z.max_spec (L - 52) (-1074)) as [[_ ->]|[_ ->]]; [by left|].
    right. by replace (L - 52 + 52) with L by lia.
Qed.

Lemma Z_of_Q_lt m k : (inject_Z m < inject_Z k + 1)%Q → m ≤ k.
Proof.
  change 1%Q with (inject_Z 1). rewrite <- inject_Z_plus, <- Zlt_Qlt. lia.
Qed.

Lemma Z_of_Q_gt m k : (inject_Z k - 1 < inject_Z m)%Q → k ≤ m.
Proof.
  intros H. assert (H' : (inject_Z k < inject_Z m + 1)%Q) by lra.
  by apply Z_of_Q_lt in H'.
Qed.

Lemma Qabs_scaled x y : (0 < y)%Q → (Qabs (x * y) == Qabs x * y)%Q.
Proof. intros Hy. rewrite Qabs_Qmult, (Qabs_pos y) by lra. done. Qed.

(** The significand has at most 53 bits, and exactly 53 above the
    subnormal range. *)
Lemma significand_bounds q :
  ¬ (q == 0)%Q →
  let E := ulp_exponent q in
  let m := round_half_even (q / pow2 E) in
  Z.abs m ≤ 2 ^ 53 ∧ (E = -1074 ∨ 2 ^ 52 ≤ Z.abs m).
Proof.
  intros Hq E m.
  destruct (ulp_exponent_bounds q Hq) as (_ & Hhi & Hlo). fold E in Hhi, Hlo.
  pose proof (pow2_pos E) as HE.
  set (x := (q / pow2 E)%Q) in *.
  assert (Hqx : (q == x * pow2 E)%Q) by (unfold x; field; lra).
  rewrite Hqx, Qabs_scaled in Hhi, Hlo by done.
  pose proof (round_half_even_error x) as Herr. fold m in Herr.
  apply Qabs_Qle_condition in Herr.
  assert (Hx53 : (Qabs x < inject_Z (2 ^ 53))%Q).
  { rewrite pow2_inject by lia.
    apply (Qmult_lt_r _ _ (pow2 E) HE).
    by rewrite (Qmult_comm (pow2 53)), <- pow2_plus. }
  split.
  - apply Qabs_Qlt_condition in Hx53.
    apply Z.abs_le. split.
    + apply Z_of_Q_gt. rewrite inject_Z_opp. lra.
    + apply Z_of_Q_lt. lra.
  - destruct Hlo as [Hlo|Hlo]; [by left|right].
    assert (Hx52 : (inject_Z (2 ^ 52) <= Qabs x)%Q).
    { rewrite pow2_inject by lia.
      apply (Qmult_le_r _ _ (pow2 E) HE).
      by rewrite (Qmult_comm (pow2 52)), <- pow2_plus. }
    destruct (Qlt_le_dec x 0) as [Hneg|Hpos].
    + rewrite Qabs_neg in Hx52 by lra.
      assert (m ≤ - 2 ^ 52); [|lia].
      apply Z_of_Q_lt. rewrite inject_Z_opp. lra.
    + rewrite Qabs_pos in Hx52 by lra.
      assert (2 ^ 52 ≤ m); [|lia]. apply Z_of_Q_gt. lra.
Qed.

Lemma to_double_zero q r :
  (q == 0)%Q → to_double q = FNum r → (r == 0)%Q.
Proof.
  intros Hq [Hr _]%to_double_FNum. rewrite Hr.
  rewrite (round_half_even_comp _ (inject_Z 0)), round_half_even_Z.
  - ring.
  - unfold Qdiv.
    transitivity (0 * / pow2 (ulp_exponent q))%Q; [|ring].
    apply Qmult_comp; [exact Hq|reflexivity].
Qed.

(** A finite result of [to_double] is a binary64 number. *)
Lemma to_double_representable q r :
  to_double q = FNum r → representable r.
Proof.
  intros Hd. destruct (Qeq_dec q 0) as [Hq|Hq].
  { exists 0, 0. split; [done|]. split; [lia|].
    rewrite (to_double_zero q r Hq Hd). ring. }
  destruct (to_double_FNum q r Hd) as [Hr Hfin].
  destruct (significand_bounds q Hq) as [Hm53 Hm52].
  destruct (ulp_exponent_bounds q Hq) as (HE & _ & _).
  set (E := ulp_exponent q) in *.
  set (m := round_half_even (q / pow2 E)) in *.
  pose proof (pow2_pos E) as HE0.
  assert (Habs : (Qabs r == inject_Z (Z.abs m) * pow2 E)%Q).
  { rewrite Hr, Qabs_scaled by done. done. }
  destruct (Z.eq_dec (Z.abs m) (2 ^ 53)) as [Heq|Hne].
  - exists (m / 2), (E + 1).
    assert (Hm : m = 2 * (m / 2)).
    { apply Z.div_exact; [done|].
      destruct (Z.abs_spec m) as [[_ Ha]|[_ Ha]]; rewrite Ha in Heq.
      - by rewrite Heq.
      - replace m with (- 2 ^ 53) by lia. done. }
    assert (Hlt : (pow2 (E + 53) < pow2 1024)%Q).
    { rewrite pow2_plus, (Qmult_comm (pow2 E)), <- (pow2_inject 53) by lia.
      rewrite <- Heq, <- Habs. done. }
    apply Qpower_lt_compat_l_inv in Hlt; [|done].
    split; [lia|]. split; [lia|].
    rewrite Hr, pow2_succ. rewrite Hm at 1. rewrite inject_Z_mult.
    change (inject_Z 2) with 2%Q. ring.
  - exists m, E. split; [lia|]. split; [|done]. split; [done|].
    destruct Hm52 as [->|Hm52]; [lia|].
    assert (Hlt : (pow2 (E + 52) < pow2 1024)%Q).
    { apply Qle_lt_trans with (Qabs r); [|done].
      rewrite Habs, pow2_plus, (Qmult_comm (pow2 E)), <- (pow2_inject 52)
        by lia.
      apply Qmult_le_compat_r; [|lra]. by rewrite <- Zle_Qle. }
    apply Qpower_lt_compat_l_inv in Hlt; [|done]. lia.
Qed.

Lemma rounded_zero q : (q == 0)%Q → (rounded q == 0)%Q.
Proof.
  intros Hq. unfold rounded.
  rewrite (round_half_even_comp _ (inject_Z 0)), round_half_even_Z.
  - ring.
  - unfold Qdiv.
    transitivity (0 * / pow2 (ulp_exponent q))%Q; [|ring].
    apply Qmult_comp; [exact Hq|reflexivity].
Qed.

(** No number with 53 significant bits is nearer to [q] than
    [rounded q]. *)
Lemma rounded_nearest q d :
  binary53 d → (Qabs (rounded q - q) <= Qabs (d - q))%Q.
Proof.
  intros (m' & e' & Hm' & He' & Hdm).
  destruct (Qeq_dec q 0) as [Hq|Hq].
  { pose proof (rounded_zero q Hq) as Hr0.
    apply Qle_trans with 0%Q; [|apply Qabs_nonneg].
    apply Qabs_Qle_condition. split; lra. }
  set (r := rounded q).
  assert (Hr : (r == inject_Z (round_half_even (q / pow2 (ulp_exponent q)))
                     * pow2 (ulp_exponent q))%Q) by reflexivity.
  destruct (ulp_exponent_bounds q Hq) as (HE & Hhi & Hlo).
  set (E := ulp_exponent q) in *.
  set (m := round_half_even (q / pow2 E)) in *.
  pose proof (pow2_pos E) as HE0.
  set (x := (q / pow2 E)%Q) in *.
  assert (Hqx : (q == x * pow2 E)%Q) by (unfold x; field; lra).
  assert (Hrq : (r - q == (inject_Z m - x) * pow2 E)%Q).
  { rewrite Hr, Hqx. ring. }
  assert (Hnear : ∀ z, (Qabs (r - q) <= Qabs (x - inject_Z z) * pow2 E)%Q).
  { intros z. rewrite Hrq, Qabs_scaled by done.
    apply Qmult_le_compat_r; [|lra].
    rewrite (Qabs_Qminus (inject_Z m) x). apply round_half_even_nearest. }
  destruct (Z_le_gt_dec E e') as [Hle|Hgt].
  - (* [d] is a multiple of the unit of the last place *)
    assert (Hz : (d == inject_Z (m' * 2 ^ (e' - E)) * pow2 E)%Q).
    { rewrite Hdm, inject_Z_mult, pow2_inject by lia.
      rewrite <- Qmult_assoc, <- pow2_plus.
      by replace (e' - E + E) with e' by lia. }
    eapply Qle_trans; [apply (Hnear (m' * 2 ^ (e' - E)))|].
    assert (Hdq : (d - q
                   == - (x - inject_Z (m' * 2 ^ (e' - E))) * pow2 E)%Q).
    { rewrite Hz, Hqx. ring. }
    rewrite Hdq, Qabs_scaled, Qabs_opp by done. apply Qle_refl.
  - (* [d] lies in a lower binade than [q] *)
    destruct Hlo as [Hlo|Hlo]; [lia|].
    set (B := pow2 (E + 52)) in *.
    assert (HB : (B == inject_Z (2 ^ 52) * pow2 E)%Q).
    { unfold B. rewrite pow2_plus, pow2_inject by lia. ring. }
    assert (Hdb : (Qabs d < B)%Q).
    { rewrite Hdm, Qabs_scaled by apply pow2_pos.
      change (Qabs (inject_Z m')) with (inject_Z (Z.abs m')).
      apply Qlt_le_trans with (inject_Z (2 ^ 53) * pow2 e')%Q.
      - apply Qmult_lt_r; [apply pow2_pos|]. by rewrite <- Zlt_Qlt.
      - unfold B. replace (E + 52) with (53 + (E - 1)) by lia.
        rewrite pow2_plus, <- (pow2_inject 53) by lia.
        apply Qmult_le_l; [done|]. apply pow2_le. lia. }
    apply Qabs_Qlt_condition in Hdb.
    destruct (Qlt_le_dec q 0) as [Hneg|Hpos].
    + rewrite Qabs_neg in Hlo by lra.
      pose proof (Hnear (- 2 ^ 52)) as Hn.
      assert (Hx : (x - inject_Z (- 2 ^ 52) <= 0)%Q).
      { apply (Qmult_le_r _ _ (pow2 E) HE0).
        setoid_replace ((x - inject_Z (- 2 ^ 52)) * pow2 E)%Q
          with (q + B)%Q using relation Qeq by (rewrite HB, Hqx, inject_Z_opp; ring).
        lra. }
      rewrite (Qabs_neg _ Hx) in Hn.
      setoid_replace (- (x - inject_Z (- 2 ^ 52)) * pow2 E)%Q
        with (- q - B)%Q using relation Qeq in Hn by (rewrite HB, Hqx, inject_Z_opp; ring).
      rewrite (Qabs_pos (d - q)) by lra. lra.
    + rewrite Qabs_pos in Hlo by lra.
      pose proof (Hnear (2 ^ 52)) as Hn.
      assert (Hx : (0 <= x - inject_Z (2 ^ 52))%Q).
      { apply (Qmult_le_r _ _ (pow2 E) HE0).
        setoid_replace ((x - inject_Z (2 ^ 52)) * pow2 E)%Q
          with (q - B)%Q using relation Qeq by (rewrite HB, Hqx; ring).
        lra. }
      rewrite (Qabs_pos _ Hx) in Hn.
      setoid_replace ((x - inject_Z (2 ^ 52)) * pow2 E)%Q
        with (q - B)%Q using relation Qeq in Hn by (rewrite HB, Hqx; ring).
      rewrite (Qabs_neg (d - q)) by lra. lra.
Qed.

(** A finite result of [to_double] is a binary64 number nearest to the
    argument. *)
Lemma to_double_nearest q r d :
  to_double q = FNum r → representable d →
  (Qabs (r - q) <= Qabs (d - q))%Q.
Proof.
  intros [Hr _]%to_double_FNum (m & e & Hm & He & Hd).
  assert (Hn : (Qabs (rounded q - q) <= Qabs (d - q))%Q).
  { apply rounded_nearest. exists m, e. split; [done|]. split; [lia|done]. }
  assert (Heq : (r - q == rounded q - q)%Q) by (rewrite Hr; reflexivity).
  by rewrite Heq.
Qed.

(** ** Metric formatting *)

Section FormatFacts.

Context (float_of_str : string → option pyfloat).
Context (METRICS_CONFIG : gmap string metric_config).

Local Abbreviation format := (format_metric_value float_of_str METRICS_CONFIG).
Local Abbreviation to_float := (py_float float_of_str).

Lemma count_like_test metric cb :
  (String.eqb metric "Rebills" && cb = true) ↔ count_like metric cb.
Proof.
  unfold count_like. rewrite andb_true_iff, String.eqb_eq. done.
Qed.

Lemma percent_format_test metric :
  String.eqb
    (default "number"%string
       (cfg_format (default empty_config (METRICS_CONFIG !! metric))))
    "percent" = true
  ↔ percent_format METRICS_CONFIG metric.
Proof.
  unfold percent_format. rewrite String.eqb_eq.
  destruct (cfg_format _) as [f|]; simpl; [|done].
  split; [by intros ->|by intros [= ->]].
Qed.

(** C4, amended.  [format_metric_value] returns [None] for [None] and NaN.
    Otherwise the value is first converted to a float: when [float(value)]
    raises, the result is [None].  When it gives the float [x], the result
    is, for Rebills under the crystal-ball flag, the integer nearest to
    [x] (ties to even), and [None] when [x] is infinite or a NaN parsed
    from a string, for which [round] raises; else, for a percent metric,
    the float product [x * 100] rounded to two decimals; else [x] rounded
    to two decimals.  The product of a finite float is the float nearest
    to the exact product; the two-decimal rounding of a finite float is
    the float nearest to the multiple of 1/100 nearest to it, a zero
    taking the sign of [x]; infinities, NaN and minus zero are returned
    unchanged by both.  A finite result of [to_double] is a binary64
    number nearest to its argument.  The conversion returns a float as it
    is, rounds an [int] or a [Decimal] to the nearest float, and raises
    for an [int] whose float would be infinite, for a string that is no
    number and for a date. *)
Theorem format_metric_value_spec value metric cb :
  let r := format value metric cb in
  (value = PyNone ∨ value = PyFloat FNaN → r = None)
  ∧ (value ≠ PyNone → value ≠ PyFloat FNaN →
       (∀ e, to_float value = Raise e → r = None)
     ∧ (∀ x, to_float value = Ok x →
          (count_like metric cb →
             r = match x with
                 | FNum q => Some (RInt (round_half_even q))
                 | FNegZero => Some (RInt 0)
                 | FInf _ | FNaN => None
                 end)
        ∧ (¬ count_like metric cb → percent_format METRICS_CONFIG metric →
             r = Some (RFloat (float_round2 (mul100 x))))
        ∧ (¬ count_like metric cb → ¬ percent_format METRICS_CONFIG metric →
             r = Some (RFloat (float_round2 x)))))
  ∧ (∀ q, mul100 (FNum q) = to_double (q * inject_Z 100))
  ∧ (∀ q, float_round2 (FNum q)
          = if (Qnum (round_2 q) =? 0)%Z
            then (if Qle_bool 0 q then FNum 0 else FNegZero)
            else to_double (round_2 q))
  ∧ (∀ x, (∀ q, x ≠ FNum q) → mul100 x = x ∧ float_round2 x = x)
  ∧ (∀ q z, (Qabs (q - inject_Z (round_half_even q))
              <= Qabs (q - inject_Z z))%Q)
  ∧ (∀ q z, (Qabs (q - round_2 q) <= Qabs (q - (z # 100)))%Q)
  ∧ (∀ q, (q - inject_Z (Qfloor q) == 1 # 2)%Q →
       Z.even (round_half_even q) = true)
  ∧ (∀ q r, to_double q = FNum r →
       representable r
       ∧ ∀ d, representable d → (Qabs (r - q) <= Qabs (d - q))%Q)
  ∧ (∀ f, to_float (PyFloat f) = Ok f)
  ∧ (∀ z, to_float (PyInt z)
          = match to_double (inject_Z z) with
            | FInf _ => Raise OverflowError
            | f => Ok f
            end)
  ∧ (∀ s c e, c ≠ 0%N →
       to_float (PyDecimal s c e) = Ok (to_double (decimal_value s c e)))
  ∧ (∀ s, float_of_str s = None → to_float (PyStr s) = Raise ValueError)
  ∧ (∀ d, to_float (PyDate d) = Raise TypeError).
Proof.
  intros r.
  split; [|split; [|split; [|split; [|split; [|split; [|split; [|split;
    [|split; [|split; [|split; [|split; [|split]]]]]]]]]]]].
  - intros [->| ->]; reflexivity.
  - intros Hnone Hnan.
    assert (Hr : r = try_except
      (if String.eqb metric "Rebills" && cb then
         x ← to_float value; r ← py_round x; mret (Some r)
       else if String.eqb
                 (default "number"%string
                    (cfg_format (default empty_config
                                   (METRICS_CONFIG !! metric))))
                 "percent" then
         x ← to_float value; r ← py_round2 (mul100 x); mret (Some r)
       else
         x ← to_float value; r ← py_round2 x; mret (Some r)) None).
    { subst r. unfold format_metric_value.
      destruct value as [| |[]| | |]; try reflexivity; congruence. }
    pose proof (count_like_test metric cb) as Hc.
    pose proof (percent_format_test metric) as Hp.
    destruct (String.eqb metric "Rebills" && cb) eqn:Ec;
      [|destruct (String.eqb _ "percent") eqn:Ep].
    all: split.
    all: try (intros e He; rewrite Hr, He; reflexivity).
    all: intros x Hx; rewrite Hr, Hx;
         split; [|split]; intros; try (exfalso; intuition congruence);
         try reflexivity; by destruct x.
  - reflexivity.
  - reflexivity.
  - intros x Hx. destruct x as [q| | |]; try done. by destruct (Hx q).
  - apply round_half_even_nearest.
  - apply round_2_nearest.
  - apply round_half_even_tie.
  - intros q r' Hq. split; [by apply (to_double_representable q)|].
    intros d. by apply to_double_nearest.
  - reflexivity.
  - reflexivity.
  - intros s c e Hc. simpl. by destruct (N.eqb_spec c 0).
  - intros s Hs. simpl. by rewrite Hs.
  - reflexivity.
Qed.

End FormatFacts.

(** ** Sorting *)

Section SortFacts.

Context {A : Type} (lt : A → A → bool).

Lemma insert_by_Permutation x l : insert_by lt x l ≡ₚ x :: l.
Proof.
  induction l as [|y l IH]; simpl; [done|].
  destruct (lt y x); [|done]. rewrite IH. apply Permutation_swap.
Qed.

Lemma py_sorted_Permutation l : py_sorted lt l ≡ₚ l.
Proof.
  induction l as [|x l IH]; simpl; [done|].
  rewrite insert_by_Permutation. by constructor.
Qed.

Lemma py_sorted_reverse_Permutation l : py_sorted_reverse lt l ≡ₚ l.
Proof.
  unfold py_sorted_reverse.
  by rewrite reverse_Permutation, py_sorted_Permutation, reverse_Permutation.
Qed.

Lemma elem_of_py_sorted x l : x ∈ py_sorted lt l ↔ x ∈ l.
Proof. by rewrite py_sorted_Permutation. Qed.

Lemma elem_of_py_sorted_reverse x l : x ∈ py_sorted_reverse lt l ↔ x ∈ l.
Proof. by rewrite py_sorted_reverse_Permutation. Qed.

Lemma StronglySorted_flip_reverse (R : relation A) l :
  StronglySorted R l → StronglySorted (flip R) (reverse l).
Proof.
  induction 1 as [|x l Hl IH Hx]; [constructor|].
  rewrite reverse_cons. apply StronglySorted_app_2.
  - intros y1 y2 Hy1 Hy2. apply list_elem_of_singleton in Hy2 as ->.
    rewrite elem_of_reverse in Hy1. rewrite Forall_forall in Hx.
    exact (Hx _ Hy1).
  - done.
  - repeat constructor.
Qed.

Section weak.

Context `{!WeakOrderB lt}.

Lemma insert_by_sorted x l :
  StronglySorted (not_above lt) l →
  StronglySorted (not_above lt) (insert_by lt x l).
Proof.
  induction 1 as [|y l Hl IH Hy]; simpl; [repeat constructor|].
  destruct (lt y x) eqn:Hyx.
  - constructor; [done|].
    rewrite insert_by_Permutation. constructor; [|done].
    by apply ltb_asym.
  - constructor; [by constructor|].
    constructor; [done|].
    eapply Forall_impl; [exact Hy|]. intros z Hz. unfold not_above in *.
    by eapply ltb_negtrans.
Qed.

Lemma py_sorted_sorted l : StronglySorted (not_above lt) (py_sorted lt l).
Proof.
  induction l as [|x l IH]; simpl; [constructor|]. by apply insert_by_sorted.
Qed.

End weak.

Section total.

Context `{!TotalOrderB lt}.

Lemma not_above_below x y : not_above lt x y → x ≠ y → below lt x y.
Proof.
  unfold not_above, below. intros Hyx Hne.
  destruct (lt x y) eqn:Hxy; [done|]. destruct Hne. by apply ltb_connex.
Qed.

Lemma sorted_strict l :
  NoDup l → StronglySorted (not_above lt) l → StronglySorted (below lt) l.
Proof.
  intros Hnd. induction 1 as [|x l Hl IH Hx]; [constructor|].
  apply NoDup_cons in Hnd as [Hx' Hnd]. constructor; [by apply IH|].
  rewrite Forall_forall in Hx |- *. intros y Hy.
  apply not_above_below; [by apply Hx|]. by intros ->.
Qed.

Lemma py_sorted_strict l :
  NoDup l → StronglySorted (below lt) (py_sorted lt l).
Proof.
  intros Hnd. apply sorted_strict; [|apply py_sorted_sorted].
  by rewrite py_sorted_Permutation.
Qed.

Lemma py_sorted_reverse_strict l :
  NoDup l → StronglySorted (flip (below lt)) (py_sorted_reverse lt l).
Proof.
  intros Hnd. apply StronglySorted_flip_reverse, py_sorted_strict.
  by rewrite reverse_Permutation.
Qed.

(** The sorted list of a duplicate-free list only depends on its set of
    elements: the iteration order of a Python set is immaterial. *)
Lemma py_sorted_set_order l1 l2 :
  NoDup l1 → NoDup l2 → (∀ x, x ∈ l1 ↔ x ∈ l2) →
  py_sorted lt l1 = py_sorted lt l2.
Proof.
  intros H1 H2 Heq.
  apply (StronglySorted_unique_strong (below lt)).
  - unfold below. intros x y _ _ Hxy Hyx.
    apply ltb_asym in Hxy. congruence.
  - by apply py_sorted_strict.
  - by apply py_sorted_strict.
  - rewrite !py_sorted_Permutation. by apply NoDup_Permutation.
Qed.

Lemma py_sorted_reverse_set_order l1 l2 :
  NoDup l1 → NoDup l2 → (∀ x, x ∈ l1 ↔ x ∈ l2) →
  py_sorted_reverse lt l1 = py_sorted_reverse lt l2.
Proof.
  intros H1 H2 Heq. unfold py_sorted_reverse. f_equal.
  apply py_sorted_set_order.
  - by rewrite reverse_Permutation.
  - by rewrite reverse_Permutation.
  - intros x. by rewrite !elem_of_reverse.
Qed.

End total.

End SortFacts.

(** ** The orders of the program *)

Lemma total_order_from_strict {A} (lt : A → A → bool) :
  (∀ x, lt x x = false) →
  (∀ x y z, lt x y = true → lt y z = true → lt x z = true) →
  (∀ x y, lt x y = true ∨ x = y ∨ lt y x = true) →
  TotalOrderB lt.
Proof.
  intros Hirr Htr Htot.
  assert (Hasym : ∀ x y, lt x y = true → lt y x = false).
  { intros x y Hxy. destruct (lt y x) eqn:Hyx; [|done].
    by rewrite <- (Hirr x), (Htr x y x). }
  split; [split|].
  - exact Hasym.
  - intros x y z Hyx Hzy. destruct (lt z x) eqn:Hzx; [|done].
    destruct (Htot x y) as [Hxy| [->|Hxy]]; [|congruence..].
    by rewrite <- Hzy, (Htr z x y).
  - intros x y Hxy Hyx. destruct (Htot x y) as [?|[?|?]]; congruence.
Qed.

Global Instance str_ltb_total : TotalOrderB str_ltb.
Proof.
  apply total_order_from_strict; unfold str_ltb.
  - intros x. destruct (String_as_OT.compare_spec x x) as [_|H|H]; try done.
    by apply (irreflexivity String_as_OT.lt) in H.
  - intros x y z.
    destruct (String_as_OT.compare_spec x y) as [|Hxy|]; try done.
    destruct (String_as_OT.compare_spec y z) as [|Hyz|]; try done.
    intros _ _. pose proof (transitivity Hxy Hyz) as Hxz.
    unfold String_as_OT.lt in Hxz. by rewrite Hxz.
  - intros x y.
    destruct (String_as_OT.compare_spec x y) as [Heq|Hlt|Hgt]; [auto..|].
    right; right. unfold String_as_OT.lt in Hgt. by rewrite Hgt.
Qed.

Global Instance date_ltb_total : TotalOrderB date_ltb.
Proof.
  apply total_order_from_strict; unfold date_ltb.
  - intros [y m d]; simpl. rewrite !bool_decide_eq_true_2 by done.
    apply N.ltb_irrefl.
  - intros [y1 m1 d1] [y2 m2 d2] [y3 m3 d3]; simpl.
    repeat case_bool_decide; rewrite ?N.ltb_lt; intros; subst; try lia.
  - intros [y1 m1 d1] [y2 m2 d2]; simpl.
    repeat case_bool_decide; rewrite ?N.ltb_lt; subst.
    all: try (destruct (N.lt_trichotomy d1 d2) as [?|[->|?]]; by auto).
    all: try (destruct (N.lt_trichotomy m1 m2) as [?|[?|?]]; by auto).
    all: destruct (N.lt_trichotomy y1 y2) as [?|[?|?]]; by auto.
Qed.

Global Instance pair_ltb_weak {A B} `{EqDecision A}
    (lta : A → A → bool) (ltb : B → B → bool)
    `{!TotalOrderB lta, !WeakOrderB ltb} : WeakOrderB (pair_ltb lta ltb).
Proof.
  split; unfold pair_ltb.
  - intros [a1 b1] [a2 b2]; simpl.
    repeat case_bool_decide; subst; try done; apply ltb_asym.
  - intros [a1 b1] [a2 b2] [a3 b3]; simpl. intros H1 H2.
    repeat case_bool_decide; subst;
      first [ done
            | by eapply (ltb_negtrans (lt:=ltb))
            | by eapply (ltb_negtrans (lt:=lta))
            | exfalso;
              match goal with
              | Ha : lta ?u ?v = false, Hb : lta ?v ?u = false |- _ =>
                  pose proof (ltb_connex (lt:=lta) _ _ Ha Hb); congruence
              end ].
Qed.

Global Instance pair_ltb_total {A B} `{EqDecision A}
    (lta : A → A → bool) (ltb : B → B → bool)
    `{!TotalOrderB lta, !TotalOrderB ltb} : TotalOrderB (pair_ltb lta ltb).
Proof.
  split; [apply _|]. unfold pair_ltb.
  intros [a1 b1] [a2 b2]; simpl.
  repeat case_bool_decide; subst; try done; intros H1 H2.
  - f_equal. by apply (ltb_connex (lt:=ltb)).
  - by destruct (ltb_connex (lt:=lta) _ _ H1 H2).
Qed.

Global Instance num_ltb_weak : WeakOrderB charts.num_ltb.
Proof.
  assert (H : ∀ a b, charts.num_ltb a b = false ↔ (b <= a)%Q).
  { intros a b. unfold charts.num_ltb.
    rewrite negb_false_iff. apply Qle_bool_iff. }
  split.
  - intros a b Hab. apply H.
    destruct (Qlt_le_dec a b) as [Hlt|Hle]; [lra|].
    apply H in Hle. congruence.
  - intros a b c. rewrite !H. lra.
Qed.

(** ** Loops *)

Lemma exc_bind_Ok {A B} (a : A) (f : A → exc B) : Ok a ≫= f = f a.
Proof. reflexivity. Qed.

Lemma for_each_app {A S} (l1 l2 : list A) (body : A → S → exc S) s :
  for_each (l1 ++ l2) body s
  = match for_each l1 body s with
    | Ok s' => for_each l2 body s'
    | Raise e => Raise e
    end.
Proof.
  revert s. induction l1 as [|x l1 IH]; intros s; simpl; [done|].
  destruct (body x s); [apply IH|done].
Qed.

(** A loop whose body keeps an invariant of the part of the list already
    visited does not raise and establishes the invariant for the list. *)
Lemma for_each_invariant {A S} (P : list A → S → Prop) (l : list A)
    (body : A → S → exc S) (s0 : S) :
  P [] s0 →
  (∀ pre x post s, l = pre ++ x :: post → P pre s →
     ∃ s', body x s = Ok s' ∧ P (pre ++ [x]) s') →
  ∃ s, for_each l body s0 = Ok s ∧ P l s.
Proof.
  intros H0 Hstep.
  cut (∀ post pre s, l = pre ++ post → P pre s →
         ∃ s', for_each post body s = Ok s' ∧ P l s').
  { intros Hgen. by apply (Hgen l [] s0). }
  induction post as [|x post IH]; intros pre s Hl HP; simpl.
  - exists s. rewrite app_nil_r in Hl. by subst.
  - destruct (Hstep pre x post s Hl HP) as (s' & -> & HP').
    apply (IH (pre ++ [x])); [|done]. by rewrite <- app_assoc.
Qed.

Lemma seq_split_index n pre (x : nat) post :
  seq 0 n = pre ++ x :: post → x = length pre ∧ (x < n)%nat.
Proof.
  intros H.
  assert (Hx : seq 0 n !! length pre = Some x).
  { rewrite H. by rewrite list_lookup_middle. }
  apply lookup_seq in Hx. lia.
Qed.

(** The same for a loop over [range(n)], the invariant being indexed by
    the number of rounds done. *)
Lemma for_each_range_invariant {S} (P : nat → S → Prop) (n : nat)
    (body : nat → S → exc S) (s0 : S) :
  P 0%nat s0 →
  (∀ i s, (i < n)%nat → P i s → ∃ s', body i s = Ok s' ∧ P (Datatypes.S i) s') →
  ∃ s, for_each (seq 0 n) body s0 = Ok s ∧ P n s.
Proof.
  intros H0 Hstep.
  destruct (for_each_invariant (λ pre s, P (length pre) s) (seq 0 n) body s0)
    as (s & Hs & HP); [done| |].
  - intros pre x post s Hsplit HP.
    apply seq_split_index in Hsplit as [-> Hlt].
    destruct (Hstep _ s Hlt HP) as (s' & Hb & HP').
    exists s'. split; [done|]. rewrite length_app. simpl.
    by replace (length pre + 1)%nat with (Datatypes.S (length pre)) by lia.
  - exists s. split; [done|]. by rewrite length_seq in HP.
Qed.

(** ** Column labels *)

Lemma dec_of_length width n acc :
  String.length (dec_of width n acc) = (width + String.length acc)%nat.
Proof.
  revert n acc. induction width as [|k IH]; intros n acc; simpl; [done|].
  rewrite IH. simpl. lia.
Qed.

Lemma dec_digit_inj a b :
  (a < 10)%N → (b < 10)%N → dec_digit a = dec_digit b → a = b.
Proof.
  intros Ha Hb.
  assert (Hcases : ∀ c, (c < 10)%N →
    c = 0%N ∨ c = 1%N ∨ c = 2%N ∨ c = 3%N ∨ c = 4%N ∨ c = 5%N ∨ c = 6%N
    ∨ c = 7%N ∨ c = 8%N ∨ c = 9%N) by (intros; lia).
  destruct (Hcases a Ha) as [->|[->|[->|[->|[->|[->|[->|[->|[->| ->]]]]]]]]];
  destruct (Hcases b Hb) as [->|[->|[->|[->|[->|[->|[->|[->|[->| ->]]]]]]]]];
  simpl; intros H; first [reflexivity | discriminate H].
Qed.

Lemma dec_of_inj width n1 n2 acc1 acc2 :
  (n1 < 10 ^ N.of_nat width)%N → (n2 < 10 ^ N.of_nat width)%N →
  String.length acc1 = String.length acc2 →
  dec_of width n1 acc1 = dec_of width n2 acc2 →
  n1 = n2 ∧ acc1 = acc2.
Proof.
  revert n1 n2 acc1 acc2.
  induction width as [|k IH]; intros n1 n2 acc1 acc2 H1 H2 Hlen Heq.
  - simpl in *. split; [lia|done].
  - simpl in Heq.
    rewrite Nat2N.inj_succ, N.pow_succ_r' in H1, H2.
    apply IH in Heq as [Hdiv Hacc].
    + injection Hacc as Hd ->. split; [|done].
      apply dec_digit_inj in Hd; [|by apply N.mod_lt..].
      rewrite (N.div_mod n1 10), (N.div_mod n2 10) by done. congruence.
    + apply N.Div0.div_lt_upper_bound. lia.
    + apply N.Div0.div_lt_upper_bound. lia.
    + simpl. by rewrite Hlen.
Qed.

Lemma String_tail_inj a1 a2 s1 s2 : String a1 s1 = String a2 s2 → s1 = s2.
Proof. by intros [= _ ->]. Qed.

Lemma strftime_mdY_length d : String.length (strftime_mdY d) = 10%nat.
Proof. unfold strftime_mdY. by rewrite !dec_of_length. Qed.

(** Distinct calendar dates have distinct labels. *)
Lemma strftime_mdY_inj d1 d2 :
  valid_date d1 → valid_date d2 → strftime_mdY d1 = strftime_mdY d2 → d1 = d2.
Proof.
  destruct d1 as [y1 m1 d1], d2 as [y2 m2 d2].
  unfold valid_date, strftime_mdY; cbn [year month day].
  intros (Hy1 & Hm1 & Hd1) (Hy2 & Hm2 & Hd2) Heq.
  assert (H2 : (10 ^ N.of_nat 2 = 100)%N) by reflexivity.
  assert (H4 : (10 ^ N.of_nat 4 = 10000)%N) by reflexivity.
  apply dec_of_inj in Heq as [-> Heq];
    [|lia|lia|cbn [String.length]; by rewrite !dec_of_length].
  apply String_tail_inj in Heq.
  apply dec_of_inj in Heq as [-> Heq];
    [|lia|lia|cbn [String.length]; by rewrite !dec_of_length].
  apply String_tail_inj in Heq.
  apply dec_of_inj in Heq as [-> _]; [done|lia|lia|done].
Qed.

(** ** Row dicts and data frames *)

Lemma dict_set_fresh {V} k (v : V) d :
  k ∉ d.*1 → dict_set k v d = d ++ [(k, v)].
Proof.
  induction d as [|[k' v'] d IH]; simpl; [done|].
  rewrite not_elem_of_cons. intros [Hne Hnin].
  destruct (String.eqb_spec k' k) as [->|_]; [done|]. by rewrite IH.
Qed.

Lemma dict_get_fresh {V} k (d : list (string * V)) :
  k ∉ d.*1 → dict_get k d = None.
Proof.
  induction d as [|[k' v'] d IH]; simpl; [done|].
  rewrite not_elem_of_cons. intros [Hne Hnin].
  destruct (String.eqb_spec k' k) as [->|_]; [done|]. by apply IH.
Qed.

Lemma dict_get_keys {V} (d : list (string * V)) :
  NoDup d.*1 → (λ c, dict_get c d) <$> d.*1 = Some <$> d.*2.
Proof.
  induction d as [|[k v] d IH]; [done|].
  rewrite fmap_cons, NoDup_cons. cbn [fst]. intros [Hk Hnd].
  rewrite !fmap_cons. cbn [snd dict_get]. rewrite String.eqb_refl. f_equal.
  rewrite <- IH by done. apply Forall_fmap_ext, Forall_forall.
  intros c Hc. destruct (String.eqb_spec k c) as [->|_]; done.
Qed.

Lemma foldl_add_key_new cols ks :
  NoDup ks → (∀ k, k ∈ ks → k ∉ cols) → foldl add_key cols ks = cols ++ ks.
Proof.
  revert cols. induction ks as [|k ks IH]; intros cols Hnd Hnew; simpl.
  - by rewrite app_nil_r.
  - apply NoDup_cons in Hnd as [Hk Hnd]. unfold add_key at 2.
    rewrite bool_decide_eq_false_2 by (apply Hnew; left).
    rewrite IH, <- app_assoc; [done..|].
    intros k' Hk'. rewrite elem_of_app, list_elem_of_singleton.
    intros [Hc| ->]; [|done]. eapply Hnew; [|done]. by right.
Qed.

Lemma foldl_add_key_old cols ks :
  (∀ k, k ∈ ks → k ∈ cols) → foldl add_key cols ks = cols.
Proof.
  induction ks as [|k ks IH]; intros Hold; simpl; [done|].
  unfold add_key at 2. rewrite bool_decide_eq_true_2 by (apply Hold; left).
  apply IH. intros k' Hk'. apply Hold. by right.
Qed.

(** The frame of rows that all have the same keys, in the same order. *)
Lemma pd_DataFrame_uniform (rows : list row) (ks : list string) :
  NoDup ks → rows ≠ [] → Forall (λ r, r.*1 = ks) rows →
  pd_DataFrame rows
  = {| df_columns := ks; df_data := (λ r, Some <$> r.*2) <$> rows |}.
Proof.
  intros Hnd Hne Hrows. unfold pd_DataFrame.
  assert (frame_columns rows = ks) as ->.
  { unfold frame_columns. destruct rows as [|r rows]; [done|].
    apply Forall_cons in Hrows as [Hr Hrows]. simpl.
    rewrite Hr, (foldl_add_key_new [] ks) by (done || set_solver). simpl.
    clear Hne Hr. induction Hrows as [|r' rows Hr' _ IH]; simpl; [done|].
    by rewrite Hr', foldl_add_key_old. }
  cbv zeta. f_equal.
  apply Forall_fmap_ext. eapply Forall_impl; [exact Hrows|].
  intros r Hr. simpl in *. rewrite <- Hr. apply dict_get_keys. by rewrite Hr.
Qed.

(** Loops that append one element per round. *)
Lemma for_each_append {A B} (f : A → exc B) (g : A → B) (l : list A)
    (acc : list B) :
  (∀ x, x ∈ l → f x = Ok (g x)) →
  for_each l (λ x acc, r ← f x; Ok (acc ++ [r])) acc = Ok (acc ++ (g <$> l)).
Proof.
  revert acc. induction l as [|x l IH]; intros acc Hf; simpl.
  - by rewrite app_nil_r.
  - rewrite (Hf x) by left. simpl. rewrite IH.
    + by rewrite <- app_assoc.
    + intros y Hy. apply Hf. by right.
Qed.

Lemma for_each_append_nested {A B C} (f : A → B → exc C) (g : A → B → C)
    (la : list A) (lb : list B) (acc : list C) :
  (∀ a b, a ∈ la → b ∈ lb → f a b = Ok (g a b)) →
  for_each la
    (λ a acc, for_each lb (λ b acc, r ← f a b; Ok (acc ++ [r])) acc) acc
  = Ok (acc ++ (a ← la; b ← lb; [g a b])).
Proof.
  revert acc. induction la as [|a la IH]; intros acc Hf; simpl.
  - by rewrite app_nil_r.
  - rewrite (for_each_append (f a) (g a)) by (intros; apply Hf; [left|done]).
    rewrite IH by (intros; apply Hf; [right|]; done).
    rewrite <- app_assoc. do 2 f_equal.
Qed.

Lemma for_each_ext {A S} (body1 body2 : A → S → exc S) l s :
  (∀ x s, body1 x s = body2 x s) →
  for_each l body1 s = for_each l body2 s.
Proof.
  intros Hext. revert s. induction l as [|x l IH]; intros s; simpl; [done|].
  rewrite Hext. destruct (body2 x s); [apply IH|done].
Qed.

(** ** The last row bearing a key *)

Lemma last_row_from_snoc i keys k key :
  last_row_from i (keys ++ [k]) key
  = if decide (k = key) then Some (i + length keys)%nat
    else last_row_from i keys key.
Proof.
  revert i. induction keys as [|k' keys IH]; intros i; simpl.
  - destruct (decide (k = key)); [f_equal; lia|done].
  - rewrite IH. destruct (decide (k = key)); [f_equal; lia|done].
Qed.

Lemma last_row_from_None i keys key :
  last_row_from i keys key = None ↔ key ∉ keys.
Proof.
  revert i. induction keys as [|k keys IH]; intros i; simpl.
  - split; [intros _; apply not_elem_of_nil|done].
  - rewrite not_elem_of_cons, <- (IH (S i)).
    destruct (last_row_from (S i) keys key).
    { split; [done|]. by intros [_ ?]. }
    destruct (decide (k = key)) as [->|Hne].
    + split; [done|]. by intros [? _].
    + split; [|done]. intros _. split; [congruence|done].
Qed.

(** [last_row_from 0] finds the row after which the key does not occur. *)
Lemma last_row_from_spec keys key i :
  keys !! i = Some key →
  (∀ j, (i < j)%nat → keys !! j ≠ Some key) →
  last_row_from 0 keys key = Some i.
Proof.
  revert i. induction keys as [|k keys IH] using rev_ind; intros i Hi Hlast.
  - by rewrite lookup_nil in Hi.
  - rewrite last_row_from_snoc. simpl.
    destruct (decide (k = key)) as [->|Hne].
    + f_equal. apply lookup_lt_Some in Hi as Hlt.
      rewrite length_app in Hlt. simpl in Hlt.
      destruct (decide (i = length keys)) as [->|Hneq]; [done|].
      destruct (Hlast (length keys)); [lia|].
      by rewrite list_lookup_middle.
    + assert (Hlt : (i < length keys)%nat).
      { apply lookup_lt_Some in Hi as Hlt. rewrite length_app in Hlt.
        simpl in Hlt. destruct (decide (i = length keys)) as [->|]; [|lia].
        rewrite list_lookup_middle in Hi by done. congruence. }
      rewrite lookup_app_l in Hi by done. apply IH; [done|].
      intros j Hj Hkey. apply (Hlast j Hj).
      apply lookup_lt_Some in Hkey as Hjlt. by rewrite lookup_app_l.
Qed.

Lemma list_to_map_label {B} (f : pydate → B) (l : list pydate) d :
  d ∈ l →
  (list_to_map ((λ d, (d, f d)) <$> l) : gmap pydate B) !! d = Some (f d).
Proof.
  induction l as [|x l IH]; [by intros ?%elem_of_nil|].
  intros Hd. simpl. destruct (decide (x = d)) as [->|Hne].
  - by rewrite lookup_insert_eq.
  - rewrite lookup_insert_ne by done. apply IH.
    apply elem_of_cons in Hd as [->|Hd]; done.
Qed.

(** ** The pivot of a well-formed query result *)

Section PivotFacts.

Context (float_of_str : string → option pyfloat).
Context (METRICS_CONFIG : gmap string metric_config).
Context (pd : records) (metrics : list string) (cb : bool).
Context (Hwf : well_formed pd).

Local Abbreviation n := (length (dates_of pd)).

Lemma wf_apps : App_Name pd = Some (apps_of pd).
Proof. destruct Hwf as ([x Hx] & _). unfold apps_of. by rewrite Hx. Qed.

Lemma wf_plans : Plan_Name pd = Some (plans_of pd).
Proof. destruct Hwf as (_ & [x Hx] & _). unfold plans_of. by rewrite Hx. Qed.

Lemma wf_dates : Reporting_Date pd = Some (dates_of pd).
Proof.
  destruct Hwf as (_ & _ & [x Hx] & _). unfold dates_of. by rewrite Hx.
Qed.

Lemma wf_apps_length : length (apps_of pd) = n.
Proof. by destruct Hwf as (_ & _ & _ & H & _). Qed.

Lemma wf_plans_length : length (plans_of pd) = n.
Proof. by destruct Hwf as (_ & _ & _ & _ & H & _). Qed.

Lemma wf_valid d : d ∈ dates_of pd → valid_date d.
Proof.
  destruct Hwf as (_ & _ & _ & _ & _ & _ & H).
  rewrite Forall_forall in H. apply H.
Qed.

Lemma row_keys_length : length (row_keys pd) = n.
Proof.
  unfold row_keys, row_combos.
  rewrite !length_zip_with, wf_apps_length, wf_plans_length. lia.
Qed.

(** Row [i] of the query result. *)
Lemma row_lookup i :
  (i < n)%nat →
  ∃ a p d,
    apps_of pd !! i = Some a ∧ plans_of pd !! i = Some p
    ∧ dates_of pd !! i = Some d
    ∧ row_combos pd !! i = Some (a, p)
    ∧ row_keys pd !! i = Some (a, p, d).
Proof.
  intros Hi.
  destruct (lookup_lt_is_Some_2 (apps_of pd) i) as [a Ha];
    [rewrite wf_apps_length; lia|].
  destruct (lookup_lt_is_Some_2 (plans_of pd) i) as [p Hp];
    [rewrite wf_plans_length; lia|].
  destruct (lookup_lt_is_Some_2 (dates_of pd) i) as [d Hd]; [lia|].
  exists a, p, d.
  assert (Hc : row_combos pd !! i = Some (a, p)).
  { unfold row_combos. by rewrite lookup_zip_with, Ha, Hp. }
  repeat split; try done.
  unfold row_keys. by rewrite lookup_zip_with, Hc, Hd.
Qed.

Lemma column_length m col : column pd m = Some col → length col = n.
Proof.
  unfold column.
  destruct (String.eqb m "App_Name");
    [rewrite wf_apps; intros [= <-]; by rewrite length_fmap, wf_apps_length|].
  destruct (String.eqb m "Plan_Name");
    [rewrite wf_plans; intros [= <-];
     by rewrite length_fmap, wf_plans_length|].
  destruct (String.eqb m "Reporting_Date");
    [rewrite wf_dates; intros [= <-]; by rewrite length_fmap|].
  destruct Hwf as (_ & _ & _ & _ & _ & H & _). apply H.
Qed.

(** The first loop collects every pair of the input once. *)
Lemma collect_combos_ok :
  ∃ st,
    for_each (seq 0 (length (apps_of pd))) (collect_combo pd) ([], ∅) = Ok st
    ∧ NoDup st.1 ∧ ∀ c, c ∈ st.1 ↔ c ∈ row_combos pd.
Proof.
  destruct (for_each_range_invariant
    (λ i (st : list combo * gset combo),
       NoDup st.1 ∧ (∀ c, c ∈ st.2 ↔ c ∈ st.1)
       ∧ (∀ c, c ∈ st.1 ↔ c ∈ take i (row_combos pd)))
    (length (apps_of pd)) (collect_combo pd) ([], ∅))
    as (st & Hst & Hnd & _ & Hel).
  - simpl. split; [constructor|]. split; [set_solver|]. done.
  - intros i [l seen] Hi (Hnd & Hseen & Hel). simpl in *.
    rewrite wf_apps_length in Hi.
    destruct (row_lookup i Hi) as (a & p & d & Ha & Hp & Hd & Hc & Hk).
    unfold collect_combo. rewrite wf_apps, wf_plans. simpl. unfold index.
    rewrite Ha, Hp. simpl. rewrite (take_S_r _ _ _ Hc).
    destruct (decide ((a, p) ∈ seen)) as [Hin|Hin].
    + rewrite bool_decide_eq_false_2 by auto.
      eexists. split; [done|]. simpl. split; [done|]. split; [done|].
      intros c. rewrite elem_of_app, list_elem_of_singleton, <- Hel.
      split; [auto|]. intros [?| ->]; [done|]. by apply Hseen.
    + rewrite bool_decide_eq_true_2 by done.
      eexists. split; [done|]. simpl. split; [|split].
      * apply NoDup_app. split; [done|]. split; [|apply NoDup_singleton].
        intros x Hx ->%list_elem_of_singleton. by apply Hin, Hseen.
      * intros c.
        rewrite elem_of_union, elem_of_singleton, elem_of_app,
          list_elem_of_singleton, Hseen. done.
      * intros c. rewrite !elem_of_app, Hel. done.
  - exists st. split; [done|]. split; [done|]. intros c. rewrite Hel.
    rewrite take_ge; [done|].
    unfold row_combos. rewrite length_zip_with. lia.
Qed.

Lemma collect_combos_sorted :
  ∃ st,
    for_each (seq 0 (length (apps_of pd))) (collect_combo pd) ([], ∅) = Ok st
    ∧ py_sorted (pair_ltb str_ltb str_ltb) st.1 = sorted_combos pd.
Proof.
  destruct collect_combos_ok as (st & Hst & Hnd & Hel).
  exists st. split; [done|]. apply py_sorted_set_order; [apply _|done| |].
  - apply NoDup_remove_dups.
  - intros c. by rewrite Hel, elem_of_remove_dups.
Qed.

(** The inner loop of the lookup construction, at row [i]: the entry of
    [key] receives the value at row [i] of every selected metric that is a
    column; nothing else changes. *)
Lemma store_metrics_ok (i : nat) (key : lookup_key)
    (L1 : gmap lookup_key (gmap string pyval)) (inner1 : gmap string pyval) :
  (i < n)%nat →
  L1 !! key = Some inner1 →
  ∃ L' inner',
    for_each metrics (store_metric pd i key) L1 = Ok L'
    ∧ (∀ k, k ≠ key → L' !! k = L1 !! k)
    ∧ L' !! key = Some inner'
    ∧ ∀ m, inner' !! m
           = match column pd m with
             | Some col => if decide (m ∈ metrics) then col !! i
                           else inner1 !! m
             | None => inner1 !! m
             end.
Proof.
  intros Hi H1.
  destruct (for_each_invariant
    (λ pre (L : gmap lookup_key (gmap string pyval)),
       (∀ k, k ≠ key → L !! k = L1 !! k)
       ∧ ∃ inner, L !! key = Some inner
         ∧ ∀ m, inner !! m
                = match column pd m with
                  | Some col => if decide (m ∈ pre) then col !! i
                                else inner1 !! m
                  | None => inner1 !! m
                  end)
    metrics (store_metric pd i key) L1) as (L' & HL' & Hframe & inner' & Hk & Hin).
  - split; [done|]. exists inner1. split; [done|]. intros m.
    destruct (column pd m); [|done].
    destruct (decide (m ∈ [])) as [?%elem_of_nil|]; done.
  - intros pre x post L _ (Hframe & inner & Hk & Hin).
    unfold store_metric. destruct (column pd x) as [col|] eqn:Hcol.
    + destruct (lookup_lt_is_Some_2 col i) as [v Hv];
        [by rewrite (column_length _ _ Hcol)|].
      unfold index. rewrite Hv. simpl. rewrite Hk. simpl.
      eexists. split; [done|]. split.
      * intros k Hne. by rewrite lookup_insert_ne, Hframe.
      * eexists. split; [by rewrite lookup_insert_eq|]. intros m.
        destruct (decide (x = m)) as [<-|Hne].
        -- rewrite lookup_insert_eq, Hcol.
           rewrite decide_True by (apply elem_of_app; right; by left). done.
        -- rewrite lookup_insert_ne, Hin by done.
           destruct (column pd m); [|done].
           destruct (decide (m ∈ pre)) as [Hm|Hm].
           ++ rewrite decide_True by (apply elem_of_app; by left). done.
           ++ rewrite decide_False; [done|].
              rewrite elem_of_app, list_elem_of_singleton.
              intros [?|?]; [done|congruence].
    + exists L. split; [done|]. split; [done|].
      exists inner. split; [done|]. intros m. rewrite Hin.
      destruct (column pd m) eqn:Hm; [|done].
      destruct (decide (m ∈ pre)) as [Hp|Hp].
      * rewrite decide_True by (apply elem_of_app; by left). done.
      * rewrite decide_False; [done|].
        rewrite elem_of_app, list_elem_of_singleton. intros [?| ->]; [done|].
        congruence.
  - by exists L', inner'.
Qed.

Lemma stored_value_absent keys (key : lookup_key) m :
  key ∉ keys → stored_value pd metrics keys key m = None.
Proof.
  intros Hk. unfold stored_value. destruct (decide _); [|done].
  apply (last_row_from_None 0) in Hk. rewrite Hk.
  by destruct (column pd m).
Qed.

Lemma stored_value_snoc_ne keys (k key : lookup_key) m :
  k ≠ key →
  stored_value pd metrics (keys ++ [k]) key m
  = stored_value pd metrics keys key m.
Proof.
  intros Hne. unfold stored_value.
  by rewrite last_row_from_snoc, (decide_False (P:=k = key)).
Qed.

Lemma stored_value_snoc_eq keys (key : lookup_key) m :
  stored_value pd metrics (keys ++ [key]) key m
  = if decide (m ∈ metrics) then col ← column pd m; col !! length keys
    else None.
Proof.
  unfold stored_value.
  rewrite last_row_from_snoc, (decide_True (P:=key = key)) by done.
  destruct (decide _); [|done]. by destruct (column pd m).
Qed.

(** The second loop leaves in [lookup], for every key, the values of the
    last row that bears it. *)
Lemma fill_lookup_ok :
  ∃ L : gmap lookup_key (gmap string pyval),
    for_each (seq 0 n) (fill_lookup pd metrics) ∅ = Ok L
    ∧ ∀ key m, m ∈ metrics →
        default PyNone (default ∅ (L !! key) !! m) = raw_value pd key m.
Proof.
  destruct (for_each_range_invariant
    (λ i (L : gmap lookup_key (gmap string pyval)),
       ∀ key, match L !! key with
              | Some inner =>
                  key ∈ take i (row_keys pd)
                  ∧ ∀ m, inner !! m
                         = stored_value pd metrics (take i (row_keys pd)) key m
              | None => key ∉ take i (row_keys pd)
              end)
    n (fill_lookup pd metrics) ∅) as (L & HL & Hinv).
  - intros key. rewrite lookup_empty. apply not_elem_of_nil.
  - intros i L Hi Hinv.
    destruct (row_lookup i Hi) as (a & p & d & Ha & Hp & Hd & Hc & Hk).
    unfold fill_lookup. rewrite wf_apps, wf_plans, wf_dates. simpl.
    unfold index. rewrite Ha, Hp, Hd. simpl.
    set (key := (a, p, d)) in *.
    set (L1 := if bool_decide (key ∉ dom L) then <[key:=∅]> L else L).
    assert (∃ inner1, L1 !! key = Some inner1
              ∧ (∀ k, k ≠ key → L1 !! k = L !! k)
              ∧ ∀ m, inner1 !! m
                     = stored_value pd metrics (take i (row_keys pd)) key m)
      as (inner1 & H1 & Hframe1 & Hin1).
    { subst L1. pose proof (Hinv key) as Hkey.
      destruct (L !! key) as [inner|] eqn:E.
      - rewrite bool_decide_eq_false_2
          by (intros Hn; apply Hn, elem_of_dom; by eexists).
        exists inner. split; [done|]. split; [done|]. apply Hkey.
      - rewrite bool_decide_eq_true_2 by by apply not_elem_of_dom.
        exists ∅. split; [by rewrite lookup_insert_eq|].
        split; [intros k Hne; by rewrite lookup_insert_ne|].
        intros m. by rewrite lookup_empty, stored_value_absent. }
    destruct (store_metrics_ok i key L1 inner1 Hi H1)
      as (L' & inner' & HL' & Hframe & Hk' & Hin').
    exists L'. split; [done|]. rewrite (take_S_r _ _ _ Hk).
    assert (Hlen : length (take i (row_keys pd)) = i).
    { rewrite length_take, row_keys_length. lia. }
    intros k. destruct (decide (k = key)) as [->|Hne].
    + rewrite Hk'. split; [apply elem_of_app; right; by left|].
      intros m. rewrite Hin', stored_value_snoc_eq, Hlen, Hin1.
      unfold stored_value.
      destruct (column pd m), (decide (m ∈ metrics)); simpl; done.
    + rewrite Hframe, Hframe1 by done. pose proof (Hinv k) as Hkinv.
      destruct (L !! k) as [inner|].
      * destruct Hkinv as [Hel Hst]. split; [apply elem_of_app; by left|].
        intros m. by rewrite stored_value_snoc_ne.
      * rewrite elem_of_app, list_elem_of_singleton. by intros [?|?].
  - exists L. split; [done|]. intros key m Hm.
    rewrite take_ge in Hinv by (rewrite row_keys_length; lia).
    pose proof (Hinv key) as Hkey. unfold raw_value.
    destruct (L !! key) as [inner|]; simpl.
    + destruct Hkey as [_ ->]. unfold stored_value.
      by rewrite decide_True.
    + rewrite lookup_empty. apply (last_row_from_None 0) in Hkey.
      rewrite Hkey. by destruct (column pd m).
Qed.

Lemma sorted_dates_NoDup : NoDup (sorted_dates pd).
Proof.
  unfold sorted_dates. rewrite py_sorted_reverse_Permutation.
  apply NoDup_remove_dups.
Qed.

Lemma elem_of_sorted_dates d : d ∈ sorted_dates pd ↔ d ∈ dates_of pd.
Proof.
  unfold sorted_dates.
  by rewrite elem_of_py_sorted_reverse, elem_of_remove_dups.
Qed.

Lemma elem_of_sorted_combos c : c ∈ sorted_combos pd ↔ c ∈ row_combos pd.
Proof.
  unfold sorted_combos. by rewrite elem_of_py_sorted, elem_of_remove_dups.
Qed.

Lemma strftime_not_key d : strftime_mdY d ∉ key_columns.
Proof.
  intros H. pose proof (strftime_mdY_length d) as Hl.
  unfold key_columns in H.
  repeat (apply elem_of_cons in H as [H|H]; [rewrite H in Hl; discriminate Hl|]).
  by apply elem_of_nil in H.
Qed.

Lemma date_labels_NoDup : NoDup (date_labels pd).
Proof.
  unfold date_labels. apply NoDup_fmap_2_strong; [|apply sorted_dates_NoDup].
  intros d1 d2 H1%elem_of_sorted_dates H2%elem_of_sorted_dates.
  apply strftime_mdY_inj; by apply wf_valid.
Qed.

Lemma frame_columns_NoDup : NoDup (key_columns ++ date_labels pd).
Proof.
  apply NoDup_app. split; [|split; [|apply date_labels_NoDup]].
  - unfold key_columns. repeat (apply NoDup_cons; split);
      [| |  |apply NoDup_nil_2];
      rewrite ?elem_of_cons, ?elem_of_nil; intuition discriminate.
  - intros k Hk (d & -> & _)%list_elem_of_fmap. by apply strftime_not_key in Hk.
Qed.

Lemma expected_dict_keys c m :
  (expected_dict float_of_str METRICS_CONFIG pd cb c m).*1
  = key_columns ++ date_labels pd.
Proof.
  unfold expected_dict, date_labels. rewrite fmap_app, <- list_fmap_compose.
  done.
Qed.

Lemma expected_dict_values c m :
  (expected_dict float_of_str METRICS_CONFIG pd cb c m).*2
  = expected_row float_of_str METRICS_CONFIG pd cb c m.
Proof.
  unfold expected_dict, expected_row. rewrite fmap_app, <- list_fmap_compose.
  done.
Qed.

(** The row loop: every date adds one new key to the dict. *)
Lemma build_row_ok (L : gmap lookup_key (gmap string pyval))
    (date_map : gmap pydate string) a p m :
  (∀ key, default PyNone (default ∅ (L !! key) !! m) = raw_value pd key m) →
  (∀ d, d ∈ sorted_dates pd → date_map !! d = Some (strftime_mdY d)) →
  build_row float_of_str METRICS_CONFIG L date_map (sorted_dates pd) cb a p m
  = Ok (expected_dict float_of_str METRICS_CONFIG pd cb (a, p) m).
Proof.
  intros Hraw Hmap. unfold build_row, expected_dict. simpl.
  set (row0 := [("App"%string, CStr a); ("Plan"%string, CStr p);
                ("Metric"%string,
                 CStr (get_display_metric_name METRICS_CONFIG m))]).
  set (f := λ d, (strftime_mdY d,
                  CNum (format_metric_value float_of_str METRICS_CONFIG
                          (raw_value pd (a, p, d) m) m cb))).
  destruct (for_each_invariant (λ pre (r : row), r = row0 ++ (f <$> pre))
    (sorted_dates pd)
    (λ d r,
       label ← getitem (date_map !! d);
       Ok (dict_set label
             (CNum (format_metric_value float_of_str METRICS_CONFIG
                      (default PyNone (default ∅ (L !! (a, p, d)) !! m))
                      m cb)) r))
    row0) as (r & Hr & ->); [by rewrite app_nil_r| |done].
  intros pre d post r Hsplit ->.
  assert (Hd : d ∈ sorted_dates pd).
  { rewrite Hsplit. apply elem_of_app; right; by left. }
  rewrite (Hmap d Hd), Hraw. cbn [getitem mbind exc_bind]. eexists.
  split; [done|].
  rewrite dict_set_fresh.
  - by rewrite fmap_app, <- app_assoc.
  - rewrite fmap_app, <- list_fmap_compose.
    change (row0.*1) with key_columns.
    rewrite elem_of_app. intros [Hk|Hk]; [by apply strftime_not_key in Hk|].
    apply list_elem_of_fmap in Hk as (d' & Heq & Hd'). simpl in Heq.
    pose proof sorted_dates_NoDup as Hnd. rewrite Hsplit in Hnd.
    apply NoDup_app in Hnd as (_ & Hdisj & _).
    assert (Hd'' : d' ∈ sorted_dates pd).
    { rewrite Hsplit. apply elem_of_app; by left. }
    apply strftime_mdY_inj in Heq;
      [|by apply wf_valid, elem_of_sorted_dates..].
    subst d'. apply (Hdisj d Hd'). by left.
Qed.

Lemma fmap_bind_single {B C D} (h : C → D) (g : B → C) (lb : list B) :
  h <$> (b ← lb; [g b]) = (b ← lb; [h (g b)]).
Proof.
  induction lb as [|b lb IH]; [done|].
  rewrite !bind_cons, fmap_app, IH. done.
Qed.

Lemma fmap_bind_nested {A B C D} (h : C → D) (g : A → B → C)
    (la : list A) (lb : list B) :
  h <$> (a ← la; b ← lb; [g a b]) = (a ← la; b ← lb; [h (g a b)]).
Proof.
  induction la as [|a la IH]; [done|].
  rewrite !bind_cons, fmap_app, IH. f_equal. apply fmap_bind_single.
Qed.

Lemma bind_no_inner {A B C} (g : A → B → list C) (la : list A) :
  (a ← la; b ← []; g a b) = [].
Proof. induction la as [|a la IH]; [done|]. rewrite bind_cons. exact IH. Qed.

Lemma bind_ext_single {B C} (g1 g2 : B → C) (lb : list B) :
  (∀ b, g1 b = g2 b) → (b ← lb; [g1 b]) = (b ← lb; [g2 b]).
Proof.
  intros Hext. induction lb as [|b lb IHb]; [done|].
  by rewrite !bind_cons, IHb, Hext.
Qed.

Lemma bind_ext_nested {A B C} (g1 g2 : A → B → C) (la : list A) (lb : list B) :
  (∀ a b, g1 a b = g2 a b) →
  (a ← la; b ← lb; [g1 a b]) = (a ← la; b ← lb; [g2 a b]).
Proof.
  intros Hext. induction la as [|a la IH]; [done|].
  rewrite !bind_cons, IH. f_equal. by apply bind_ext_single.
Qed.

Lemma sorted_combos_nonempty : dates_of pd ≠ [] → sorted_combos pd ≠ [].
Proof.
  intros Hne. destruct (row_lookup 0) as (a & p & d & _ & _ & _ & Hc & _).
  { destruct (dates_of pd); [done|simpl; lia]. }
  apply list_elem_of_lookup_2, elem_of_sorted_combos in Hc.
  intros Heq. rewrite Heq in Hc. by apply elem_of_nil in Hc.
Qed.

(** The frame returned for a well-formed, non-empty query result. *)
Lemma process_pivot_data_wf :
  dates_of pd ≠ [] →
  process_pivot_data float_of_str METRICS_CONFIG (Some pd) metrics cb
  = Ok (Some (expected_frame float_of_str METRICS_CONFIG pd metrics cb)).
Proof.
  intros Hne. unfold process_pivot_data.
  assert (is_empty_dict pd = false) as ->.
  { unfold is_empty_dict. by rewrite wf_apps. }
  rewrite wf_dates.
  assert ((length (dates_of pd) =? 0)%nat = false) as ->.
  { destruct (dates_of pd); [done|reflexivity]. }
  rewrite wf_apps. cbn [getitem mbind exc_bind].
  destruct collect_combos_sorted as (st & Hst & Hsorted).
  rewrite Hst. cbn [mbind exc_bind]. rewrite Hsorted.
  destruct fill_lookup_ok as (L & HL & Hraw).
  rewrite HL. cbn [mbind exc_bind].
  fold (sorted_dates pd).
  set (date_map := list_to_map _).
  rewrite (for_each_ext _
    (λ c rows,
       for_each metrics
         (λ m rows,
            r ← build_row float_of_str METRICS_CONFIG L date_map
                  (sorted_dates pd) cb c.1 c.2 m;
            Ok (rows ++ [r]))
         rows)) by (by intros [??] ?).
  rewrite (for_each_append_nested _
    (expected_dict float_of_str METRICS_CONFIG pd cb)).
  2:{ intros [a p] m _ Hm. simpl. apply build_row_ok.
      - intros key. by apply Hraw.
      - intros d Hd. subst date_map. by apply list_to_map_label. }
  rewrite app_nil_l, exc_bind_Ok. do 2 f_equal. unfold expected_frame.
  destruct metrics as [|m0 ms] eqn:Hms.
  { rewrite !bind_no_inner. reflexivity. }
  rewrite <- Hms.
  rewrite (pd_DataFrame_uniform _ (key_columns ++ date_labels pd)).
  - f_equal. rewrite fmap_bind_nested. apply bind_ext_nested.
    intros c m. by rewrite expected_dict_values.
  - apply frame_columns_NoDup.
  - pose proof (sorted_combos_nonempty Hne) as Hc.
    destruct (sorted_combos pd) as [|c l]; [done|]. rewrite Hms. simpl. done.
  - apply Forall_forall. intros r (c & Hr & _)%list_elem_of_bind.
    apply list_elem_of_bind in Hr as (m & Hr & _).
    apply list_elem_of_singleton in Hr as ->. apply expected_dict_keys.
Qed.

End PivotFacts.

(** ** Shape of nested comprehensions *)

Lemma bind_single_fmap {B C} (g : B → C) (lb : list B) :
  (b ← lb; [g b]) = g <$> lb.
Proof.
  induction lb as [|b lb IH]; [done|]. by rewrite bind_cons, IH.
Qed.

Lemma bind_nested_length {A B C} (g : A → B → C) (la : list A) (lb : list B) :
  length (a ← la; b ← lb; [g a b]) = (length la * length lb)%nat.
Proof.
  induction la as [|a la IH]; [done|].
  rewrite bind_cons, length_app, IH, bind_single_fmap, length_fmap. simpl. lia.
Qed.

Lemma bind_nested_lookup {A B C} (g : A → B → C) (la : list A) (lb : list B)
    i j a b :
  la !! i = Some a → lb !! j = Some b →
  (a ← la; b ← lb; [g a b]) !! (i * length lb + j)%nat = Some (g a b).
Proof.
  revert i. induction la as [|a' la IH]; intros i Hi Hj.
  - by rewrite lookup_nil in Hi.
  - rewrite bind_cons, bind_single_fmap.
    apply lookup_lt_Some in Hj as Hlt. destruct i as [|i]; simpl in *.
    + injection Hi as ->.
      rewrite lookup_app_l by (by rewrite length_fmap).
      by rewrite list_lookup_fmap, Hj.
    + rewrite lookup_app_r by (rewrite length_fmap; lia).
      rewrite length_fmap.
      replace (length lb + i * length lb + j - length lb)%nat
        with (i * length lb + j)%nat by lia.
      by apply IH.
Qed.

Lemma list_find_NoDup {A} `{EqDecision A} (l : list A) k x :
  NoDup l → l !! k = Some x → list_find (λ c, c = x) l = Some (k, x).
Proof.
  intros Hnd Hk. apply list_find_Some. split; [done|]. split; [done|].
  intros j y Hj Hlt ->. pose proof (NoDup_lookup _ _ _ _ Hnd Hk Hj). lia.
Qed.

Lemma exc_bind_inv {A B} (m : exc A) (f : A → exc B) b :
  m ≫= f = Ok b → ∃ a, m = Ok a ∧ f a = Ok b.
Proof. destruct m as [a|e]; [by exists a|done]. Qed.

(** ** The pivot transform *)

Section PivotClaims.

Context (float_of_str : string → option pyfloat).
Context (METRICS_CONFIG : gmap string metric_config).

Local Abbreviation pivot := (process_pivot_data float_of_str METRICS_CONFIG).
Local Abbreviation format := (format_metric_value float_of_str METRICS_CONFIG).
Local Abbreviation display := (get_display_metric_name METRICS_CONFIG).

(** C3, amended.  [process_pivot_data] returns [None] exactly when its
    argument is
    [None] or the empty dict, has no [Reporting_Date] key, or has an empty
    [Reporting_Date] list; on any other query result of the data model it
    returns a data frame. *)
Theorem process_pivot_data_none (pivot_data : option records)
    (selected_metrics : list string) (is_crystal_ball : bool) :
  (pivot pivot_data selected_metrics is_crystal_ball = Ok None
   ↔ pivot_data = None
     ∨ ∃ pd, pivot_data = Some pd
             ∧ (is_empty_dict pd = true
                ∨ Reporting_Date pd = None
                ∨ Reporting_Date pd = Some []))
  ∧ (∀ pd, pivot_data = Some pd → well_formed pd → dates_of pd ≠ [] →
       ∃ df, pivot pivot_data selected_metrics is_crystal_ball = Ok (Some df)).
Proof.
  split.
  - unfold process_pivot_data. destruct pivot_data as [pd|]; [|by split; auto].
    destruct (is_empty_dict pd) eqn:He; [split; eauto 6|].
    destruct (Reporting_Date pd) as [[|d ds]|] eqn:Hd; simpl;
      [split; eauto 6| |split; eauto 6].
    split.
    + intros H.
      apply exc_bind_inv in H as (apps & _ & H).
      apply exc_bind_inv in H as (st & _ & H).
      apply exc_bind_inv in H as (L & _ & H).
      apply exc_bind_inv in H as (rows & _ & H). discriminate H.
    + intros [H|(pd' & [= <-] & [H|[H|H]])]; congruence.
  - intros pd -> Hwf Hne. eexists. by apply process_pivot_data_wf.
Qed.

Lemma raw_value_absent pd key m : column pd m = None → raw_value pd key m = PyNone.
Proof. unfold raw_value. by intros ->. Qed.

(** C1, amended.  For a non-empty query result of the data model (the
    three key columns present and of one length, calendar dates with
    four-digit years) the frame has one
    row per distinct (app, plan) pair and selected metric: the row of the
    [i]-th pair in ascending order and the [j]-th selected metric is row
    [i * len(selected_metrics) + j]; it holds the pair, the display name of
    the metric and one cell per distinct date, most recent date first;
    these cells are all [None] for a metric that is not a column of the
    query result; the columns are App, Plan, Metric and the date labels in
    that order. *)
Theorem process_pivot_data_rows (pd : records)
    (selected_metrics : list string) (is_crystal_ball : bool) :
  well_formed pd →
  dates_of pd ≠ [] →
  ∃ df combos dates,
    pivot (Some pd) selected_metrics is_crystal_ball = Ok (Some df)
    ∧ StronglySorted (below (pair_ltb str_ltb str_ltb)) combos
    ∧ (∀ c, c ∈ combos ↔ c ∈ row_combos pd)
    ∧ StronglySorted (flip (below date_ltb)) dates
    ∧ (∀ d, d ∈ dates ↔ d ∈ dates_of pd)
    ∧ length (df_data df) = (length combos * length selected_metrics)%nat
    ∧ (∀ i j c m,
         combos !! i = Some c → selected_metrics !! j = Some m →
         ∃ cells,
           df_data df !! (i * length selected_metrics + j)%nat
           = Some (Some (CStr c.1) :: Some (CStr c.2)
                   :: Some (CStr (display m))
                   :: ((λ v, Some (CNum v)) <$> cells))
           ∧ length cells = length dates
           ∧ (column pd m = None → Forall (λ v, v = None) cells))
    ∧ (selected_metrics ≠ [] →
         df_columns df = ["App"; "Plan"; "Metric"]%string
                         ++ (strftime_mdY <$> dates)).
Proof.
  intros Hwf Hne.
  exists (expected_frame float_of_str METRICS_CONFIG pd selected_metrics
            is_crystal_ball), (sorted_combos pd), (sorted_dates pd).
  split; [by apply process_pivot_data_wf|].
  split; [apply py_sorted_strict; [apply _|apply NoDup_remove_dups]|].
  split; [apply elem_of_sorted_combos|].
  split; [apply py_sorted_reverse_strict; [apply _|apply NoDup_remove_dups]|].
  split; [apply elem_of_sorted_dates|].
  split; [apply bind_nested_length|].
  split.
  - intros i j c m Hi Hj.
    exists ((λ d, format (raw_value pd (c, d) m) m is_crystal_ball)
            <$> sorted_dates pd).
    split; [|split].
    + unfold expected_frame. cbn [df_data].
      rewrite (bind_nested_lookup _ _ _ _ _ _ _ Hi Hj).
      unfold expected_row. rewrite fmap_app, <- !list_fmap_compose. done.
    + by rewrite length_fmap.
    + intros Hcol. apply Forall_fmap, Forall_forall. intros d _. simpl.
      by rewrite raw_value_absent.
  - intros Hm. simpl. by destruct selected_metrics.
Qed.

(** C9, amended.  For a non-empty query result of the data model and at
    least one selected metric, the columns after App, Plan and Metric are
    the labels of the distinct dates of the input: every date of the
    input has its label among them, every label comes from a date of the
    input, no label occurs twice and distinct dates have distinct
    labels. *)
Theorem process_pivot_data_date_columns (pd : records)
    (selected_metrics : list string) (is_crystal_ball : bool) :
  well_formed pd →
  dates_of pd ≠ [] →
  selected_metrics ≠ [] →
  ∃ df labels,
    pivot (Some pd) selected_metrics is_crystal_ball = Ok (Some df)
    ∧ df_columns df = ["App"; "Plan"; "Metric"]%string ++ labels
    ∧ NoDup labels
    ∧ (∀ l, l ∈ labels ↔ ∃ d, d ∈ dates_of pd ∧ strftime_mdY d = l)
    ∧ (∀ d1 d2, d1 ∈ dates_of pd → d2 ∈ dates_of pd →
         strftime_mdY d1 = strftime_mdY d2 → d1 = d2)
    ∧ length labels = length (remove_dups (dates_of pd)).
Proof.
  intros Hwf Hne Hm.
  exists (expected_frame float_of_str METRICS_CONFIG pd selected_metrics
            is_crystal_ball), (date_labels pd).
  split; [by apply process_pivot_data_wf|].
  split; [simpl; by destruct selected_metrics|].
  split; [by apply date_labels_NoDup|].
  split; [|split].
  - intros l. unfold date_labels. rewrite list_elem_of_fmap.
    split; intros (d & H1 & H2).
    + exists d. by rewrite <- (elem_of_sorted_dates pd).
    + exists d. by rewrite (elem_of_sorted_dates pd).
  - intros d1 d2 H1 H2. apply strftime_mdY_inj; by eapply wf_valid.
  - unfold date_labels, sorted_dates.
    by rewrite length_fmap, py_sorted_reverse_Permutation.
Qed.

(** C2, amended.  When several rows bear the same (app, plan, date) key,
    the cell shown for that key and a selected metric that is a column of
    the query result is formatted from the last such row: if row [i] bears
    the key and no later row does, the cell in the row of the pair and the
    metric, under the label of the date, is the formatted value of the
    metric at row [i]. *)
Theorem lookup_last_occurrence (pd : records)
    (selected_metrics : list string) (is_crystal_ball : bool)
    (i ci mj : nat) (a p : string) (d : pydate) (m : string)
    (col : list pyval) :
  well_formed pd →
  row_keys pd !! i = Some (a, p, d) →
  (∀ j, (i < j)%nat → row_keys pd !! j ≠ Some (a, p, d)) →
  column pd m = Some col →
  sorted_combos pd !! ci = Some (a, p) →
  selected_metrics !! mj = Some m →
  ∃ df v,
    pivot (Some pd) selected_metrics is_crystal_ball = Ok (Some df)
    ∧ col !! i = Some v
    ∧ frame_cell df (ci * length selected_metrics + mj) (strftime_mdY d)
      = Some (CNum (format v m is_crystal_ball)).
Proof.
  intros Hwf Hi Hlast Hcol Hci Hmj.
  assert (Hlen : (i < length (dates_of pd))%nat).
  { apply lookup_lt_Some in Hi. by rewrite row_keys_length in Hi. }
  assert (Hne : dates_of pd ≠ []).
  { intros H. rewrite H in Hlen. simpl in Hlen. lia. }
  destruct (lookup_lt_is_Some_2 col i) as [v Hv];
    [by rewrite (column_length pd Hwf m col Hcol)|].
  assert (Hd : d ∈ sorted_dates pd).
  { apply elem_of_sorted_dates. unfold row_keys in Hi.
    apply lookup_zip_with_Some in Hi as (c & d' & [= _ <-] & _ & Hd).
    by eapply list_elem_of_lookup_2. }
  apply list_elem_of_lookup_1 in Hd as [k Hk].
  exists (expected_frame float_of_str METRICS_CONFIG pd selected_metrics
            is_crystal_ball), v.
  split; [by apply process_pivot_data_wf|]. split; [done|].
  unfold frame_cell, expected_frame. cbn [df_data df_columns].
  rewrite (bind_nested_lookup _ _ _ _ _ _ _ Hci Hmj).
  assert (match selected_metrics with
          | [] => []
          | _ :: _ => key_columns ++ date_labels pd
          end = key_columns ++ date_labels pd) as ->.
  { destruct selected_metrics; [by rewrite lookup_nil in Hmj|done]. }
  rewrite (list_find_NoDup _ (3 + k)%nat _ (frame_columns_NoDup pd Hwf)).
  - cbn [mbind option_bind fmap option_fmap option_map fst].
    unfold expected_row.
    rewrite fmap_app, (lookup_app_r _ _ (3 + k)) by (simpl; lia).
    cbn [fmap list_fmap length]. rewrite Nat.add_comm, Nat.add_sub.
    rewrite !list_lookup_fmap, Hk.
    cbn [mjoin option_join fmap option_fmap option_map].
    unfold raw_value. rewrite Hcol.
    cbn [mbind option_bind].
    rewrite (last_row_from_spec _ _ _ Hi Hlast).
    cbn [mbind option_bind]. by rewrite Hv.
  - unfold key_columns, date_labels.
    rewrite (lookup_app_r _ _ (3 + k)) by (simpl; lia).
    cbn [length]. rewrite Nat.add_comm, Nat.add_sub.
    by rewrite list_lookup_fmap, Hk.
Qed.

End PivotClaims.

(** ** The pivot transform on the sample query result *)

Lemma sample_records_well_formed : well_formed sample_records.
Proof.
  unfold well_formed, sample_records, apps_of, plans_of, dates_of; simpl.
  repeat split; try (by eexists); try reflexivity.
  - by apply map_Forall_singleton.
  - repeat constructor; unfold valid_date; simpl; lia.
Qed.

Lemma process_pivot_data_rows_witness :
  ∃ df,
    process_pivot_data no_float sample_config (Some sample_records)
      ["Revenue"; "Rebills"]%string true = Ok (Some df)
    ∧ length (df_data df) = 4%nat.
Proof.
  destruct (process_pivot_data_rows no_float sample_config sample_records
              ["Revenue"; "Rebills"]%string true)
    as (df & combos & dates & Hdf & _ & _ & _ & _ & _).
  - exact sample_records_well_formed.
  - discriminate.
  - exists df. split; [exact Hdf|].
    assert (Heq : Some df = Some (expected_frame no_float sample_config
                   sample_records ["Revenue"; "Rebills"]%string true)).
    { assert (Hok : ∀ x y : option DataFrame, Ok x = Ok y → x = y)
        by (by intros x y [= ->]).
      apply Hok. rewrite <- Hdf. vm_compute. reflexivity. }
    injection Heq as ->. vm_compute. reflexivity.
Defined.

(** C1, counterexample.  A query result with a non-empty
    [Reporting_Date] list whose [Plan_Name] list is shorter than its
    [App_Name] list: the call raises [IndexError] and no row is emitted
    for the two pairs of applications. *)
Lemma ragged_rows_counterexample :
  Reporting_Date uneven_records = Some [jan; feb]
  ∧ App_Name uneven_records = Some ["A"; "B"]%string
  ∧ process_pivot_data no_float sample_config (Some uneven_records)
      ["Revenue"]%string false = Raise IndexError.
Proof. repeat split; vm_compute; reflexivity. Qed.

(** C3, counterexample.  A query result that is not empty and has a
    non-empty [Reporting_Date] list, but no [App_Name] list: the call
    returns neither [None] nor a frame, it raises [KeyError]. *)
Lemma missing_column_counterexample :
  is_empty_dict headless_records = false
  ∧ Reporting_Date headless_records = Some [jan]
  ∧ process_pivot_data no_float sample_config (Some headless_records)
      ["Revenue"]%string false = Raise KeyError
  ∧ ∀ result,
      process_pivot_data no_float sample_config (Some headless_records)
        ["Revenue"]%string false ≠ Ok result.
Proof.
  assert (H : process_pivot_data no_float sample_config
                (Some headless_records) ["Revenue"]%string false
              = Raise KeyError) by (vm_compute; reflexivity).
  repeat split; try done; intros result; by rewrite H.
Qed.

(** C2, counterexample.  Rows 0 and 2 of the sample bear the key
    [("A", "P2", jan)] with Revenue 1 and 2: the cell shows the value of
    row 2, not that of the first row bearing the key. *)
Lemma first_occurrence_counterexample :
  ∃ df,
    process_pivot_data no_float sample_config (Some sample_records)
      ["Revenue"]%string false = Ok (Some df)
    ∧ row_keys sample_records !! 0%nat = Some ("A", "P2", jan)%string
    ∧ row_keys sample_records !! 2%nat = Some ("A", "P2", jan)%string
    ∧ column sample_records "Revenue"
      = Some [PyInt 1; PyNone; PyInt 2]
    ∧ frame_cell df 1 "01/01/2024"
      = Some (CNum (format_metric_value no_float sample_config
                      (PyInt 2) "Revenue" false))
    ∧ frame_cell df 1 "01/01/2024"
      ≠ Some (CNum (format_metric_value no_float sample_config
                      (PyInt 1) "Revenue" false)).
Proof.
  eexists. split; [vm_compute; reflexivity|].
  repeat split; try (vm_compute; reflexivity).
  vm_compute. discriminate.
Qed.

Lemma lookup_last_occurrence_witness :
  ∃ df v,
    process_pivot_data no_float sample_config (Some sample_records)
      ["Revenue"]%string false = Ok (Some df)
    ∧ [PyInt 1; PyNone; PyInt 2] !! 2%nat = Some v
    ∧ frame_cell df (1 * length ["Revenue"%string] + 0) (strftime_mdY jan)
      = Some (CNum (format_metric_value no_float sample_config v
                      "Revenue" false)).
Proof.
  apply (lookup_last_occurrence no_float sample_config sample_records
           ["Revenue"%string] false 2 1 0 "A" "P2" jan "Revenue").
  - exact sample_records_well_formed.
  - vm_compute. reflexivity.
  - intros j Hj. do 3 (destruct j as [|j]; [lia|]). vm_compute. discriminate.
  - vm_compute. reflexivity.
  - vm_compute. reflexivity.
  - reflexivity.
Defined.

(** C9, counterexample.  With no selected metric the frame of the sample
    has no column at all, though the input has dates. *)
Lemma date_columns_counterexample :
  ∃ df,
    process_pivot_data no_float sample_config (Some sample_records) [] false
    = Ok (Some df)
    ∧ jan ∈ dates_of sample_records
    ∧ strftime_mdY jan ∉ df_columns df.
Proof.
  exists {| df_columns := []; df_data := [] |}.
  split; [vm_compute; reflexivity|]. split; [left|apply not_elem_of_nil].
Qed.

Lemma process_pivot_data_date_columns_witness :
  ∃ df labels,
    process_pivot_data no_float sample_config (Some sample_records)
      ["Revenue"]%string false = Ok (Some df)
    ∧ df_columns df = ["App"; "Plan"; "Metric"]%string ++ labels
    ∧ length labels = 2%nat.
Proof.
  destruct (process_pivot_data_date_columns no_float sample_config
              sample_records ["Revenue"]%string false)
    as (df & labels & Hdf & Hcols & _ & _ & _ & Hlen).
  - exact sample_records_well_formed.
  - discriminate.
  - discriminate.
  - exists df, labels. split; [exact Hdf|]. split; [exact Hcols|].
    rewrite Hlen. vm_compute. reflexivity.
Defined.

(** ** Line charts *)

Section ChartFacts.

Context (data : charts.chart_data) (format_type : string).
Context (Hwf : chart_well_formed data).

Local Abbreviation cn := (length (chart_plans data)).

Lemma chart_wf_plans : charts.Plan_Name data = Some (chart_plans data).
Proof. destruct Hwf as ([x Hx] & _). unfold chart_plans. by rewrite Hx. Qed.

Lemma chart_wf_dates : charts.Reporting_Date data = Some (chart_dates data).
Proof.
  destruct Hwf as (_ & [x Hx] & _). unfold chart_dates. by rewrite Hx.
Qed.

Lemma chart_wf_values : charts.metric_value data = Some (chart_values data).
Proof.
  destruct Hwf as (_ & _ & [x Hx] & _). unfold chart_values. by rewrite Hx.
Qed.

Lemma chart_rows_length : length (chart_rows data) = cn.
Proof.
  destruct Hwf as (_ & _ & _ & H1 & H2).
  unfold chart_rows. rewrite !length_zip_with. lia.
Qed.

Lemma chart_row_lookup i :
  (i < cn)%nat →
  ∃ p d v,
    chart_plans data !! i = Some p ∧ chart_dates data !! i = Some d
    ∧ chart_values data !! i = Some v
    ∧ chart_rows data !! i = Some (p, d, v).
Proof.
  intros Hi. destruct Hwf as (_ & _ & _ & H1 & H2).
  destruct (lookup_lt_is_Some_2 (chart_plans data) i) as [p Hp]; [lia|].
  destruct (lookup_lt_is_Some_2 (chart_dates data) i) as [d Hd]; [lia|].
  destruct (lookup_lt_is_Some_2 (chart_values data) i) as [v Hv]; [lia|].
  exists p, d, v. repeat split; try done.
  unfold chart_rows. by rewrite !lookup_zip_with, Hp, Hd, Hv.
Qed.

Lemma chart_rows_plans : (chart_rows data).*1.*1 = chart_plans data.
Proof.
  destruct Hwf as (_ & _ & _ & H1 & H2). unfold chart_rows.
  rewrite fst_zip by (rewrite length_zip_with; lia).
  rewrite fst_zip by lia. done.
Qed.

Lemma plan_points_snoc rows (r : chart_row) plan :
  plan_points (rows ++ [r]) plan
  = plan_points rows plan
    ++ (if decide (r.1.1 = plan) then [(r.1.2, default (0 # 1)%Q r.2)] else []).
Proof.
  unfold plan_points. rewrite omap_app. f_equal. simpl. unfold point_of.
  by destruct (decide _).
Qed.

Lemma plan_points_absent rows plan :
  plan ∉ rows.*1.*1 → plan_points rows plan = [].
Proof.
  induction rows as [|r rows IH]; [done|].
  rewrite !fmap_cons, not_elem_of_cons. intros [Hne Hnin].
  unfold plan_points. simpl. unfold point_of at 1.
  rewrite decide_False by done. by apply IH.
Qed.

(** The loop over the rows files every point under its plan. *)
Lemma organize_ok :
  ∃ PD : gmap string (list pydate * list Q),
    for_each (seq 0 cn) (charts.organize data) ∅ = Ok PD
    ∧ ∀ plan,
        PD !! plan
        = if decide (plan ∈ chart_plans data)
          then Some ((plan_points (chart_rows data) plan).*1,
                     (plan_points (chart_rows data) plan).*2)
          else None.
Proof.
  destruct (for_each_range_invariant
    (λ i (PD : gmap string (list pydate * list Q)),
       ∀ plan,
         PD !! plan
         = if decide (plan ∈ (take i (chart_rows data)).*1.*1)
           then Some ((plan_points (take i (chart_rows data)) plan).*1,
                      (plan_points (take i (chart_rows data)) plan).*2)
           else None)
    cn (charts.organize data) ∅) as (PD & HPD & Hinv).
  - intros plan. rewrite lookup_empty, take_0.
    by rewrite decide_False by apply not_elem_of_nil.
  - intros i PD Hi Hinv.
    destruct (chart_row_lookup i Hi) as (p & d & v & Hp & Hd & Hv & Hr).
    unfold charts.organize.
    rewrite chart_wf_plans, chart_wf_dates, chart_wf_values.
    cbn [getitem mbind exc_bind]. unfold index. rewrite Hp, Hd, Hv.
    cbn [mbind exc_bind].
    set (rows := take i (chart_rows data)) in *.
    set (PD1 := if bool_decide (p ∉ dom PD)
                then <[p:=([], [])]> PD else PD).
    assert (H1 : PD1 !! p = Some ((plan_points rows p).*1,
                                  (plan_points rows p).*2)
                 ∧ ∀ k, k ≠ p → PD1 !! k = PD !! k).
    { subst PD1. pose proof (Hinv p) as Hpinv.
      destruct (decide (p ∈ rows.*1.*1)) as [Hin|Hin].
      - rewrite bool_decide_eq_false_2
          by (intros Hn; apply Hn, elem_of_dom; by eexists).
        done.
      - rewrite bool_decide_eq_true_2 by by apply not_elem_of_dom.
        rewrite lookup_insert_eq, plan_points_absent by done.
        split; [done|]. intros k Hk. by rewrite lookup_insert_ne. }
    destruct H1 as [H1 Hframe]. rewrite H1. cbn [getitem mbind exc_bind fst snd].
    eexists. split; [done|]. rewrite (take_S_r _ _ _ Hr). fold rows.
    intros plan. rewrite !fmap_app, plan_points_snoc. cbn [fst snd fmap list_fmap].
    destruct (decide (plan = p)) as [->|Hne].
    + rewrite lookup_insert_eq.
      rewrite decide_True by (apply elem_of_app; right; by left).
      rewrite (decide_True (P:=p = p)) by done.
      by rewrite !fmap_app.
    + rewrite lookup_insert_ne, Hframe, Hinv by done.
      rewrite (decide_False (P:=p = plan)) by done. rewrite app_nil_r.
      destruct (decide (plan ∈ rows.*1.*1)) as [Hin|Hin].
      * rewrite decide_True by (apply elem_of_app; by left). done.
      * rewrite decide_False; [done|].
        rewrite elem_of_app, list_elem_of_singleton. by intros [?|?].
  - exists PD. split; [done|]. intros plan. rewrite Hinv.
    rewrite take_ge by (rewrite chart_rows_length; lia).
    by rewrite chart_rows_plans.
Qed.

Lemma add_plan_traces_ok (PD : gmap string (list pydate * list Q))
    (l : list string) (acc : list charts.Scatter) :
  (∀ plan, plan ∈ l →
     PD !! plan = Some ((plan_points (chart_rows data) plan).*1,
                        (plan_points (chart_rows data) plan).*2)) →
  foldl (λ traces plan, charts.add_plan_trace PD format_type plan traces) acc l
  = acc ++ (expected_trace data format_type <$> l).
Proof.
  revert acc. induction l as [|plan l IH]; intros acc HPD; simpl.
  - by rewrite app_nil_r.
  - rewrite IH by (intros; apply HPD; by right).
    unfold charts.add_plan_trace. rewrite HPD by left.
    cbn [fst snd]. rewrite zip_fst_snd, <- app_assoc. done.
Qed.

(** The figure returned for a well-formed, non-empty chart input. *)
Lemma build_line_chart_wf date_range :
  chart_plans data ≠ [] →
  ∃ tickprefix tickformat,
    charts.build_line_chart (Some data) format_type date_range
    = Ok ({| charts.fig_data :=
               expected_trace data format_type
               <$> py_sorted str_ltb (remove_dups (chart_plans data));
             charts.annotations := [];
             charts.xaxis_range := date_range;
             charts.yaxis_tickprefix := tickprefix;
             charts.yaxis_tickformat := tickformat |},
          py_sorted str_ltb (remove_dups (chart_plans data))).
Proof.
  intros Hne. unfold charts.build_line_chart.
  assert (charts.is_empty_dict data = false) as ->.
  { unfold charts.is_empty_dict. by rewrite chart_wf_plans. }
  rewrite chart_wf_plans.
  assert ((length (chart_plans data) =? 0)%nat = false) as ->.
  { destruct (chart_plans data); [done|reflexivity]. }
  destruct organize_ok as (PD & -> & HPD). rewrite exc_bind_Ok.
  rewrite add_plan_traces_ok.
  - destruct (if String.eqb format_type "dollar" then _ else _) as [tp tf].
    by exists tp, tf.
  - intros plan Hplan. rewrite HPD, decide_True; [done|].
    by rewrite elem_of_py_sorted, elem_of_remove_dups in Hplan.
Qed.

End ChartFacts.

Lemma plan_points_length rows plan :
  length (plan_points rows plan)
  = length (filter (λ p, p = plan) rows.*1.*1).
Proof.
  induction rows as [|r rows IH]; [done|].
  rewrite !fmap_cons, filter_cons. unfold plan_points. simpl.
  unfold point_of at 1.
  destruct (decide (r.1.1 = plan)); simpl; by rewrite <- IH.
Qed.

Lemma pair_not_above_fst (p1 p2 : pydate * Q) :
  not_above (pair_ltb date_ltb charts.num_ltb) p1 p2 →
  not_above date_ltb p1.1 p2.1.
Proof.
  unfold not_above, pair_ltb. case_bool_decide as Heq; [|done].
  intros _. rewrite Heq.
  destruct (date_ltb p1.1 p1.1) eqn:H; [|done].
  by rewrite (ltb_asym _ _ H) in H.
Qed.

Section ChartClaims.

Context (format_type : string) (date_range : option (pydate * pydate)).

Local Abbreviation chart := (λ data,
  charts.build_line_chart data format_type date_range).

(** The traces of the expected figure. *)
Lemma expected_trace_points data plan :
  let t := expected_trace data format_type plan in
  length (charts.x t) = length (charts.y t)
  ∧ zip (charts.x t) (charts.y t) ≡ₚ plan_points (chart_rows data) plan
  ∧ StronglySorted (not_above (pair_ltb date_ltb charts.num_ltb))
                   (zip (charts.x t) (charts.y t))
  ∧ StronglySorted (not_above date_ltb) (charts.x t).
Proof.
  unfold expected_trace. cbn [charts.x charts.y].
  split; [by rewrite !length_fmap|].
  rewrite zip_fst_snd.
  split; [apply py_sorted_Permutation|].
  split; [apply py_sorted_sorted; apply _|].
  eapply StronglySorted_fmap; [|apply py_sorted_sorted; apply _].
  apply pair_not_above_fst.
Qed.

(** C8, amended.  Without data ([None], the empty dict, no [Plan_Name] key
    or an
    empty [Plan_Name] list) the result is the figure that only carries the
    no-data annotation, with the empty list of plans.  On a chart input of
    the data model the list of plans is that of the distinct plan names in
    ascending order and the figure has one trace per plan, in that order;
    the points of a trace are the rows of its plan, 0 standing for a NULL
    value, nothing added and nothing dropped, and they come in ascending
    order of the date; gaps are left as they are. *)
Theorem build_line_chart_series (data : option charts.chart_data) :
  (data = None
   ∨ (∃ d, data = Some d
           ∧ (charts.is_empty_dict d = true
              ∨ charts.Plan_Name d = None
              ∨ charts.Plan_Name d = Some [])) →
   ∃ fig,
     chart data = Ok (fig, [])
     ∧ charts.fig_data fig = []
     ∧ charts.annotations fig
       = ["No data available for selected filters"%string])
  ∧ (∀ d, data = Some d → chart_well_formed d → chart_plans d ≠ [] →
     ∃ fig plans,
       chart data = Ok (fig, plans)
       ∧ StronglySorted (below str_ltb) plans
       ∧ (∀ p, p ∈ plans ↔ p ∈ chart_plans d)
       ∧ charts.name <$> charts.fig_data fig = plans
       ∧ Forall (λ t,
                   length (charts.x t) = length (charts.y t)
                   ∧ zip (charts.x t) (charts.y t)
                     ≡ₚ plan_points (chart_rows d) (charts.name t)
                   ∧ StronglySorted (not_above date_ltb) (charts.x t)
                   ∧ charts.connectgaps t = false)
                (charts.fig_data fig)).
Proof.
  split.
  - intros Hno. exists charts.no_data_figure. split; [|done].
    unfold charts.build_line_chart.
    destruct Hno as [->|(d & -> & [He|[Hp|Hp]])]; [done|by rewrite He| |].
    + rewrite Hp. by destruct (charts.is_empty_dict d).
    + rewrite Hp. by destruct (charts.is_empty_dict d).
  - intros d -> Hwf Hne.
    destruct (build_line_chart_wf d format_type Hwf date_range Hne)
      as (tp & tf & Hfig).
    eexists _, _. split; [exact Hfig|]. cbn [charts.fig_data].
    split; [apply py_sorted_strict; [apply _|apply NoDup_remove_dups]|].
    split; [intros p; by rewrite elem_of_py_sorted, elem_of_remove_dups|].
    split; [by rewrite <- list_fmap_compose, list_fmap_id|].
    apply Forall_fmap, Forall_forall. intros plan _.
    destruct (expected_trace_points d plan) as (H1 & H2 & _ & H4).
    done.
Qed.


End ChartClaims.

(** ** The examples of the specification *)

Lemma format_metric_value_spec_witness :
  format_metric_value no_float sample_config
    (PyFloat (to_double (1234 # 10000))) "Conversion" false
  = Some (RFloat (to_double (1234 # 100)))
  ∧ format_metric_value no_float sample_config PyNone "Conversion" false
    = None.
Proof.
  pose proof (format_metric_value_spec no_float sample_config
                (PyFloat (to_double (1234 # 10000))) "Conversion" false)
    as Hnum.
  pose proof (format_metric_value_spec no_float sample_config
                PyNone "Conversion" false) as Hnone.
  cbv zeta in Hnum, Hnone. split.
  - destruct Hnum as (_ & Hnum & _).
    destruct Hnum as (_ & Hfin); [discriminate|vm_compute; discriminate|].
    destruct (Hfin _ eq_refl) as (_ & Hpercent & _).
    rewrite Hpercent.
    + vm_compute. reflexivity.
    + intros [H _]. discriminate H.
    + vm_compute. reflexivity.
  - destruct Hnone as (Hnone & _). apply Hnone. by left.
Defined.

(** C4, counterexample.  Every step is rounded in binary, so the result
    is not always the two-decimal rounding of the value itself.  The float
    0.00125 is slightly above 1/800: times 100 and rounded to two decimals
    it gives 0.13, but the float product is 0.125 exactly and the tie goes
    to 0.12.  The [Decimal] 2.675 rounds to 2.68, but its float is below
    2.675 and rounds to 2.67. *)
Lemma binary_rounding_counterexample :
  (∃ q, to_double (125 # 100000) = FNum q
        ∧ round_2 (q * inject_Z 100) = (13 # 100)%Q
        ∧ format_metric_value no_float sample_config (PyFloat (FNum q))
            "Conversion" false
          = Some (RFloat (to_double (12 # 100)))
        ∧ to_double (12 # 100) ≠ to_double (13 # 100))
  ∧ round_2 (decimal_value false 2675 (-3)) = (268 # 100)%Q
  ∧ format_metric_value no_float sample_config (PyDecimal false 2675 (-3))
      "Revenue" false
    = Some (RFloat (to_double (267 # 100)))
  ∧ to_double (267 # 100) ≠ to_double (268 # 100).
Proof.
  split; [eexists; split; [vm_compute; reflexivity|]|].
  all: repeat split; try (vm_compute; reflexivity); vm_compute; discriminate.
Qed.

Lemma sample_series_well_formed : chart_well_formed sample_series.
Proof. repeat split; by eexists. Qed.


(** C8, counterexample.  A chart input with a plan but without the
    [Reporting_Date] list: the call returns neither the no-data result nor
    a series, it raises [KeyError]. *)
Lemma missing_dates_counterexample :
  charts.Plan_Name dateless_chart = Some ["P"%string]
  ∧ charts.build_line_chart (Some dateless_chart) "dollar" None
    = Raise KeyError.
Proof. split; vm_compute; reflexivity. Qed.

Lemma build_line_chart_series_witness :
  ∃ fig,
    charts.build_line_chart (Some sample_series) "dollar" None
    = Ok (fig, ["P"%string])
    ∧ charts.x <$> charts.fig_data fig = [[jan; feb]]
    ∧ charts.y <$> charts.fig_data fig = [[5 # 1; 0 # 1]%Q].
Proof.
  destruct (proj2 (build_line_chart_series "dollar" None (Some sample_series))
              sample_series eq_refl sample_series_well_formed)
    as (fig & plans & Hfig & _); [discriminate|].
  vm_compute in Hfig. injection Hfig as <- <-.
  eexists. split; [vm_compute; reflexivity|]. split; reflexivity.
Defined.


Lemma process_pivot_data_none_witness :
  process_pivot_data no_float sample_config None ["Revenue"]%string false
  = Ok None
  ∧ ∃ df,
      process_pivot_data no_float sample_config (Some sample_records)
        ["Revenue"]%string false = Ok (Some df).
Proof.
  destruct (process_pivot_data_none no_float sample_config None
              ["Revenue"]%string false) as [Hnone _].
  destruct (process_pivot_data_none no_float sample_config
              (Some sample_records) ["Revenue"]%string false) as [_ Hsome].
  split.
  - apply Hnone. by left.
  - apply (Hsome sample_records eq_refl sample_records_well_formed).
    discriminate.
Defined.

Lemma authenticate_failure_witness :
  authenticate true demo_users 7 1000 "admin" "guess" demo_store
  = ((false, None, None), demo_store)
  ∧ authenticate true demo_users 7 1000 "nobody" "s3cret" demo_store
    = ((false, None, None), demo_store)
  ∧ authenticate false demo_users 7 1000 "admin" "s3cret" demo_store
    = ((false, None, None), demo_store).
Proof.
  split; [|split].
  - apply (proj1 (authenticate_failure true demo_users 7 1000 "admin" "guess"
                    demo_store)).
    right; right. exists (User "s3cret" "Administrator" "admin").
    split; [vm_compute; reflexivity|discriminate].
  - apply (proj1 (authenticate_failure true demo_users 7 1000 "nobody"
                    "s3cret" demo_store)).
    right; left. vm_compute. reflexivity.
  - apply (proj1 (authenticate_failure false demo_users 7 1000 "admin"
                    "s3cret" demo_store)).
    by left.
Defined.

(** * Further properties *)

(** ** Sessions *)

(** X1.  [get_session] returns a session exactly when the id is a
    non-empty key of the store whose entry has not expired, the instant
    of expiry itself still counting as valid; it then returns the stored
    entry and leaves the store as it is. *)
Theorem get_session_returns now sid (st : store) s :
  ((get_session now sid st).1 = Some s
   ↔ ∃ k, sid = Some k ∧ k ≠ EmptyString ∧ st !! k = Some s
          ∧ now ≤ s_expires_at s)
  ∧ ((get_session now sid st).1 = Some s → (get_session now sid st).2 = st).
Proof.
  unfold get_session. split.
  - split.
    + destruct sid as [[|c k]|]; simpl; [done| |done].
      destruct (st !! String c k) as [sess|] eqn:Hk; [|done].
      destruct (Z.gtb_spec now (s_expires_at sess)); simpl; [done|].
      intros [= ->]. exists (String c k). repeat split; try done; lia.
    + intros (k & -> & Hne & Hk & Hle). rewrite (truthy_id_Some _ Hne), Hk.
      destruct (Z.gtb_spec now (s_expires_at s)); [lia|done].
  - destruct (truthy_id sid) as [k|]; [|done].
    destruct (st !! k) as [sess|]; [|done].
    by destruct (now >? s_expires_at sess).
Qed.

(** X2.  [get_session] never adds or alters an entry and only ever
    touches the id it is asked about: sessions of other ids stay, expired
    or not. *)
Theorem get_session_frame now sid (st : store) :
  (get_session now sid st).2 ⊆ st
  ∧ ∀ k, sid ≠ Some k → (get_session now sid st).2 !! k = st !! k.
Proof.
  unfold get_session.
  destruct (truthy_id sid) as [k0|] eqn:Hsid; [|done].
  assert (sid = Some k0) as -> by (by destruct sid as [[|??]|]; simplify_eq).
  destruct (st !! k0) as [sess|]; [|done].
  destruct (now >? s_expires_at sess); [|done]. simpl. split.
  - apply delete_subseteq.
  - intros k Hk. apply lookup_delete_ne. congruence.
Qed.

(** X3.  After a successful [authenticate] at [now] the returned token
    validates up to and including [now] plus one day, with the id, name
    and role of the user, and is rejected and removed at any later
    instant. *)
Theorem authenticate_then_get_session users r now uid pw (st : store) usr t :
  users !! uid = Some usr →
  u_password usr = pw →
  let st' := (authenticate true users r now uid pw st).2 in
  let sess := Session uid (u_name usr) (u_role usr) (now + ONE_DAY) in
  (t ≤ now + ONE_DAY →
     get_session t (Some (token_hex 32 r)) st' = (Some sess, st'))
  ∧ (t > now + ONE_DAY →
     get_session t (Some (token_hex 32 r)) st'
     = (None, delete (token_hex 32 r) st')).
Proof.
  intros Hu Hpw st' sess.
  assert (Hst' : st' = <[token_hex 32 r := sess]> st).
  { subst st'. unfold authenticate. rewrite Hu. simpl.
    apply String.eqb_eq in Hpw. by rewrite Hpw. }
  unfold get_session.
  rewrite (truthy_id_Some _ (token_hex_nonempty r)), Hst', lookup_insert_eq.
  simpl. split; intros Ht;
    destruct (Z.gtb_spec t (now + ONE_DAY)); try lia; done.
Qed.

Lemma authenticate_then_get_session_witness :
  get_session (1000 + ONE_DAY) (Some (token_hex 32 7)) demo_store
  = (Some (Session "admin" "Administrator" "admin" (1000 + ONE_DAY)),
     demo_store).
Proof.
  apply (authenticate_then_get_session demo_users 7 1000 "admin" "s3cret" ∅
           (User "s3cret" "Administrator" "admin") (1000 + ONE_DAY)).
  - vm_compute. reflexivity.
  - reflexivity.
  - lia.
Defined.

(** X4.  [logout] removes the entry of the id and nothing else; it is
    idempotent, does nothing for an id that is not a key, and the id no
    longer validates afterwards. *)
Theorem logout_spec sid (st : store) :
  logout sid st !! sid = None
  ∧ (∀ k, k ≠ sid → logout sid st !! k = st !! k)
  ∧ logout sid (logout sid st) = logout sid st
  ∧ (st !! sid = None → logout sid st = st)
  ∧ ∀ now, get_session now (Some sid) (logout sid st)
           = (None, logout sid st).
Proof.
  assert (Hgone : logout sid st !! sid = None).
  { unfold logout. destruct (st !! sid) eqn:H; [apply lookup_delete_eq|done]. }
  split; [done|]. split; [|split; [|split]].
  - intros k Hk. unfold logout.
    destruct (st !! sid); [by apply lookup_delete_ne|done].
  - unfold logout at 1. by rewrite Hgone.
  - intros H. unfold logout. by rewrite H.
  - intros now. by apply get_session_unknown.
Qed.

(** X5.  Logging out the token drawn by a call of [authenticate] restores
    the store as it was before the call, whatever the outcome of the
    call, provided the token was not already a key. *)
Theorem authenticate_logout_roundtrip ok users r now uid pw (st : store) :
  st !! token_hex 32 r = None →
  logout (token_hex 32 r) (authenticate ok users r now uid pw st).2 = st.
Proof.
  intros Hfresh. unfold authenticate.
  assert (Hsame : logout (token_hex 32 r) st = st)
    by (unfold logout; by rewrite Hfresh).
  destruct (negb ok); [done|].
  destruct (users !! uid) as [usr|]; [|done].
  destruct (negb _); [done|]. simpl.
  unfold logout. rewrite lookup_insert_eq. by apply delete_insert_id.
Qed.

Lemma authenticate_logout_roundtrip_witness :
  logout (token_hex 32 8)
    (authenticate true demo_users 8 2000 "admin" "s3cret" demo_store).2
  = demo_store.
Proof.
  apply (authenticate_logout_roundtrip true demo_users 8 2000 "admin"
           "s3cret" demo_store).
  vm_compute. reflexivity.
Defined.

(** ** Tokens *)

Lemma below_16_cases (c : N) :
  (c < 16)%N →
  c = 0%N ∨ c = 1%N ∨ c = 2%N ∨ c = 3%N ∨ c = 4%N ∨ c = 5%N ∨ c = 6%N
  ∨ c = 7%N ∨ c = 8%N ∨ c = 9%N ∨ c = 10%N ∨ c = 11%N ∨ c = 12%N
  ∨ c = 13%N ∨ c = 14%N ∨ c = 15%N.
Proof. lia. Qed.

Lemma hex_digit_inj a b :
  (a < 16)%N → (b < 16)%N → hex_digit a = hex_digit b → a = b.
Proof.
  intros Ha Hb.
  destruct (below_16_cases a Ha)
    as [->|[->|[->|[->|[->|[->|[->|[->|[->|[->|[->|[->|[->|[->|[->| ->]]]]]]]]]]]]]]];
  destruct (below_16_cases b Hb)
    as [->|[->|[->|[->|[->|[->|[->|[->|[->|[->|[->|[->|[->|[->|[->| ->]]]]]]]]]]]]]]];
  simpl; intros H; first [reflexivity | discriminate H].
Qed.

Lemma hex_digit_lower_hex a : is_lower_hex (hex_digit (a mod 16)%N) = true.
Proof.
  assert (Ha : (a mod 16 < 16)%N) by (by apply N.mod_lt).
  destruct (below_16_cases _ Ha)
    as [->|[->|[->|[->|[->|[->|[->|[->|[->|[->|[->|[->|[->|[->|[->| ->]]]]]]]]]]]]]]];
  reflexivity.
Qed.

Lemma hex_of_inj digits r1 r2 acc1 acc2 :
  (r1 < 16 ^ N.of_nat digits)%N → (r2 < 16 ^ N.of_nat digits)%N →
  String.length acc1 = String.length acc2 →
  hex_of digits r1 acc1 = hex_of digits r2 acc2 →
  r1 = r2 ∧ acc1 = acc2.
Proof.
  revert r1 r2 acc1 acc2.
  induction digits as [|k IH]; intros r1 r2 acc1 acc2 H1 H2 Hlen Heq.
  - simpl in *. split; [lia|done].
  - simpl in Heq.
    rewrite Nat2N.inj_succ, N.pow_succ_r' in H1, H2.
    apply IH in Heq as [Hdiv Hacc].
    + injection Hacc as Hd ->. split; [|done].
      apply hex_digit_inj in Hd; [|by apply N.mod_lt..].
      rewrite (N.div_mod r1 16), (N.div_mod r2 16) by done. congruence.
    + apply N.Div0.div_lt_upper_bound. lia.
    + apply N.Div0.div_lt_upper_bound. lia.
    + simpl. by rewrite Hlen.
Qed.

Lemma hex_of_mod digits r acc :
  hex_of digits (r mod 16 ^ N.of_nat digits) acc = hex_of digits r acc.
Proof.
  revert r acc. induction digits as [|k IH]; intros r acc; [done|].
  simpl hex_of. rewrite Nat2N.inj_succ, N.pow_succ_r'.
  rewrite N.Div0.mod_mul_r.
  set (x := ((r / 16) mod 16 ^ N.of_nat k)%N).
  assert (H16 : ((r mod 16 + 16 * x) mod 16 = r mod 16)%N).
  { rewrite (N.mul_comm 16 x), N.Div0.mod_add. by apply N.Div0.mod_mod. }
  assert (Hdiv : ((r mod 16 + 16 * x) / 16 = x)%N).
  { rewrite (N.mul_comm 16 x), N.div_add by done.
    rewrite (N.div_small (r mod 16) 16) by (by apply N.mod_lt). lia. }
  rewrite H16, Hdiv. subst x. by rewrite IH.
Qed.

Lemma hex_of_lower_hex digits r acc :
  string_forallb is_lower_hex acc = true →
  string_forallb is_lower_hex (hex_of digits r acc) = true.
Proof.
  revert r acc. induction digits as [|k IH]; intros r acc Hacc; [done|].
  simpl hex_of. apply IH. cbn [string_forallb].
  by rewrite hex_digit_lower_hex, Hacc.
Qed.

(** X6.  A session token has 64 characters, all of them lower-case
    hexadecimal digits; it is determined by the low 256 bits of the random
    draw, and two draws below 2^256 give the same token only if they are
    equal. *)
Theorem token_hex_spec (r1 r2 : N) :
  String.length (token_hex 32 r1) = 64%nat
  ∧ string_forallb is_lower_hex (token_hex 32 r1) = true
  ∧ token_hex 32 (r1 mod 2 ^ 256) = token_hex 32 r1
  ∧ ((r1 < 2 ^ 256)%N → (r2 < 2 ^ 256)%N →
     token_hex 32 r1 = token_hex 32 r2 → r1 = r2).
Proof.
  assert (Hpow : (16 ^ N.of_nat (2 * 32) = 2 ^ 256)%N) by reflexivity.
  split; [apply token_hex_length|]. split; [by apply hex_of_lower_hex|].
  split.
  - unfold token_hex. rewrite <- Hpow. apply hex_of_mod.
  - intros H1 H2 Heq. unfold token_hex in Heq.
    apply hex_of_inj in Heq as [Heq _]; [done| | |done]; by rewrite Hpow.
Qed.

(** X7.  Every entry of a store the process can hold is keyed by a token
    and copies the id, display name and role of an entry of the user
    directory. *)
Theorem reachable_sessions_of_users users (st : store) k s :
  reachable users st →
  st !! k = Some s →
  (∃ r, k = token_hex 32 r)
  ∧ ∃ usr, users !! s_user_id s = Some usr
           ∧ s_name s = u_name usr ∧ s_role s = u_role usr.
Proof.
  intros Hreach. revert k s.
  induction Hreach as [|ok r now uid pw st _ IH|now sid' st _ IH|sid' st _ IH];
    intros k s Hk.
  - by rewrite lookup_empty in Hk.
  - unfold authenticate in Hk.
    destruct (negb ok); [by eapply IH|].
    destruct (users !! uid) as [usr|] eqn:Hu; [|by eapply IH].
    destruct (negb _); [by eapply IH|]. simpl in Hk.
    destruct (decide (token_hex 32 r = k)) as [<-|Hne].
    + rewrite lookup_insert_eq in Hk. injection Hk as <-. simpl.
      split; [by exists r|]. by exists usr.
    + rewrite lookup_insert_ne in Hk by done. by eapply IH.
  - unfold get_session in Hk.
    destruct (truthy_id sid') as [k'|]; [|by eapply IH].
    destruct (st !! k') as [sess|] eqn:Hk'; [|by eapply IH].
    destruct (now >? s_expires_at sess); [|by eapply IH]. simpl in Hk.
    apply lookup_delete_Some in Hk as [_ Hk]. by eapply IH.
  - unfold logout in Hk.
    destruct (st !! sid') eqn:Hk'; [|by eapply IH].
    apply lookup_delete_Some in Hk as [_ Hk]. by eapply IH.
Qed.

Lemma reachable_sessions_of_users_witness :
  ∃ usr, demo_users !! "admin"%string = Some usr
         ∧ u_name usr = "Administrator"%string.
Proof.
  destruct (reachable_sessions_of_users demo_users demo_store (token_hex 32 7)
              (Session "admin" "Administrator" "admin" (1000 + ONE_DAY)))
    as (_ & usr & Hu & Hname & _).
  - apply reach_authenticate, reach_init.
  - vm_compute. reflexivity.
  - exists usr. split; [exact Hu|]. by rewrite <- Hname.
Defined.

(** ** Login and logout handlers *)

Lemma truthy_str_true s : truthy_str s = true ↔ s ≠ EmptyString.
Proof. by destruct s. Qed.

(** X8.  [do_login] moves to the landing page exactly when both fields
    are filled in, the imports succeeded and the directory holds the
    user with that password; it then records in [session_store] the token
    under which [_sessions] holds the new session of that user, and the
    directory entry.  In every other case [_sessions] and [session_store]
    are left as they were. *)
Theorem do_login_spec ok users r now username password (s : app_state) :
  let s' := do_login ok users r now username password s in
  (st_view s' = LandingPage
   ↔ username ≠ EmptyString ∧ password ≠ EmptyString ∧ ok = true
     ∧ ∃ usr, users !! username = Some usr ∧ u_password usr = password)
  ∧ (st_view s' ≠ LandingPage →
       st_sessions s' = st_sessions s
       ∧ st_session_store s' = st_session_store s)
  ∧ (st_view s' = LandingPage →
       ss_session_id (st_session_store s') = Some (token_hex 32 r)
       ∧ ss_user (st_session_store s') = users !! username
       ∧ ∃ sess, st_sessions s' !! token_hex 32 r = Some sess
                 ∧ s_user_id sess = username
                 ∧ s_expires_at sess = now + ONE_DAY).
Proof.
  intros s'. subst s'. unfold do_login.
  pose proof (truthy_str_true username) as Hu.
  pose proof (truthy_str_true password) as Hp.
  destruct (truthy_str username); simpl.
  2:{ split; [split; [done|]|split; [done|done]].
      intros (H & _). by apply Hu in H. }
  destruct (truthy_str password); simpl.
  2:{ split; [split; [done|]|split; [done|done]].
      intros (_ & H & _). by apply Hp in H. }
  unfold authenticate. destruct ok; simpl.
  2:{ split; [split; [done|]|split; [done|done]]. by intros (_ & _ & ? & _). }
  destruct (users !! username) as [usr|] eqn:Husr; simpl.
  2:{ split; [split; [done|]|split; [done|done]].
      by intros (_ & _ & _ & ? & ? & _). }
  destruct (String.eqb_spec (u_password usr) password) as [Heq|Hne]; simpl.
  - split; [split; [|done]|split; [done|]].
    + intros _. repeat split; try tauto. by exists usr.
    + intros _. split; [done|]. split; [done|].
      eexists. by rewrite lookup_insert_eq.
  - split; [split; [done|]|split; [done|done]].
    intros (_ & _ & _ & usr' & [= <-] & ?). done.
Qed.

(** X9.  [do_logout] removes from [_sessions] the session named in
    [session_store], empties [session_store] and shows the login page;
    the other sessions are untouched, the id no longer validates, and a
    second logout changes nothing more.  Without a session id in
    [session_store] the store of sessions is left as it is. *)
Theorem do_logout_spec (s : app_state) :
  let s' := do_logout s in
  st_session_store s' = SessionDict None None
  ∧ st_view s' = LoginPage NoMessage
  ∧ (∀ sid, ss_session_id (st_session_store s) = Some sid →
       ∀ now, get_session now (Some sid) (st_sessions s')
              = (None, st_sessions s'))
  ∧ (∀ k, ss_session_id (st_session_store s) ≠ Some k →
       st_sessions s' !! k = st_sessions s !! k)
  ∧ (ss_session_id (st_session_store s) = None →
       st_sessions s' = st_sessions s)
  ∧ do_logout s' = s'.
Proof.
  intros s'. subst s'. unfold do_logout. simpl.
  split; [done|]. split; [done|]. split; [|split; [|split]].
  - intros sid Hsid now. rewrite Hsid.
    destruct sid as [|c sid]; simpl; [done|].
    apply (proj2 (proj2 (proj2 (proj2 (logout_spec _ _))))).
  - intros k Hk.
    destruct (ss_session_id (st_session_store s)) as [[|c sid]|]; simpl;
      try done.
    apply (proj1 (proj2 (logout_spec _ _))). congruence.
  - by intros ->.
  - done.
Qed.

(** X10.  A successful login followed by a logout leaves [_sessions] as
    it was before the login, when the token drawn was not yet a key. *)
Theorem do_login_do_logout ok users r now username password (s : app_state) :
  st_sessions s !! token_hex 32 r = None →
  st_view (do_login ok users r now username password s) = LandingPage →
  do_logout (do_login ok users r now username password s)
  = {| st_sessions := st_sessions s;
       st_session_store := SessionDict None None;
       st_view := LoginPage NoMessage |}.
Proof.
  intros Hfresh Hview.
  pose proof (do_login_spec ok users r now username password s) as Hspec.
  cbv zeta in Hspec. destruct Hspec as (Hiff & _ & Hland).
  destruct (Hland Hview) as (Hid & _).
  apply Hiff in Hview as (Hu & Hp & -> & usr & Husr & Hpw).
  unfold do_logout. rewrite Hid.
  rewrite (truthy_id_Some _ (token_hex_nonempty r)). f_equal.
  assert (Hst : st_sessions (do_login true users r now username password s)
                = (authenticate true users r now username password
                     (st_sessions s)).2).
  { unfold do_login. apply truthy_str_true in Hu, Hp. rewrite Hu, Hp. simpl.
    unfold authenticate. rewrite Husr. simpl.
    apply String.eqb_eq in Hpw. by rewrite Hpw. }
  rewrite Hst. by apply authenticate_logout_roundtrip.
Qed.

Lemma do_login_do_logout_witness :
  do_logout (do_login true demo_users 8 2000 "admin" "s3cret" demo_state)
  = demo_state.
Proof.
  apply (do_login_do_logout true demo_users 8 2000 "admin" "s3cret" demo_state).
  - vm_compute. reflexivity.
  - vm_compute. reflexivity.
Defined.

(** ** Plans by application *)

Lemma elem_of_first_seen x l : x ∈ first_seen l ↔ x ∈ l.
Proof.
  induction l as [|y l IH]; [done|]. cbn [first_seen].
  rewrite !elem_of_cons, list_elem_of_filter, IH.
  destruct (decide (x = y)); tauto.
Qed.

Lemma NoDup_first_seen l : NoDup (first_seen l).
Proof.
  induction l as [|y l IH]; cbn [first_seen]; [constructor|].
  apply NoDup_cons. split; [|by apply NoDup_filter].
  rewrite list_elem_of_filter. by intros [? _].
Qed.

Lemma first_seen_snoc l x :
  first_seen (l ++ [x])
  = if decide (x ∈ first_seen l) then first_seen l else first_seen l ++ [x].
Proof.
  induction l as [|y l IH].
  - cbn [first_seen app filter]. rewrite decide_False by apply not_elem_of_nil.
    done.
  - change ((y :: l) ++ [x]) with (y :: (l ++ [x])). cbn [first_seen].
    rewrite IH. destruct (decide (x = y)) as [->|Hne].
    + rewrite (decide_True (P:=y ∈ y :: _)) by left.
      destruct (decide (y ∈ first_seen l)); [done|].
      rewrite filter_app, filter_cons_False, filter_nil, app_nil_r; [done|].
      by intros ?.
    + destruct (decide (x ∈ first_seen l)) as [Hin|Hin].
      * rewrite decide_True; [done|]. right.
        apply list_elem_of_filter. by split.
      * rewrite decide_False.
        -- by rewrite filter_app, filter_cons_True, filter_nil.
        -- rewrite elem_of_cons, list_elem_of_filter. tauto.
Qed.

Lemma plans_of_app_snoc rows (row : string * string) app :
  plans_of_app (rows ++ [row]) app
  = plans_of_app rows app ++ (if decide (row.1 = app) then [row.2] else []).
Proof.
  unfold plans_of_app. rewrite filter_app, fmap_app. f_equal.
  destruct (decide (row.1 = app)).
  - by rewrite filter_cons_True.
  - by rewrite filter_cons_False.
Qed.

Lemma plans_of_app_absent rows app :
  app ∉ rows.*1 → plans_of_app rows app = [].
Proof.
  induction rows as [|row rows IH]; [done|].
  rewrite fmap_cons, not_elem_of_cons. intros [Hne Hnin].
  unfold plans_of_app. rewrite filter_cons_False by done. by apply IH.
Qed.

Lemma elem_of_plans_of_app rows app plan :
  plan ∈ plans_of_app rows app ↔ (app, plan) ∈ rows.
Proof.
  unfold plans_of_app. rewrite list_elem_of_fmap. split.
  - intros ([a p] & -> & [Ha Hin]%list_elem_of_filter). simpl in *. by subst.
  - intros Hin. exists (app, plan). split; [done|].
    by apply list_elem_of_filter.
Qed.

(** X11.  [get_plans_by_app] raises [KeyError] when one of the two lists
    is missing.  Otherwise it pairs the lists up to the shorter one and
    returns a dict whose keys are the applications met; the entry of an
    application lists, without repetition and in the order in which they
    are first met, the plans paired with it. *)
Theorem get_plans_by_app_spec (pg : plan_groups) :
  (pg_App_Name pg = None ∨ pg_Plan_Name pg = None →
     get_plans_by_app pg = Raise KeyError)
  ∧ ∀ apps plans,
      pg_App_Name pg = Some apps → pg_Plan_Name pg = Some plans →
      ∃ result,
        get_plans_by_app pg = Ok result
        ∧ (∀ app, result !! app
                  = if decide (app ∈ (zip apps plans).*1)
                    then Some (first_seen
                                 (plans_of_app (zip apps plans) app))
                    else None)
        ∧ (∀ app listed, result !! app = Some listed →
             NoDup listed
             ∧ ∀ plan, plan ∈ listed ↔ (app, plan) ∈ zip apps plans).
Proof.
  unfold get_plans_by_app. split.
  - intros [->| ->]; [done|]. by destruct (pg_App_Name pg).
  - intros apps plans -> ->. cbn [getitem mbind exc_bind].
    destruct (for_each_invariant
      (λ pre (result : gmap string (list string)),
         ∀ app, result !! app
                = if decide (app ∈ pre.*1)
                  then Some (first_seen (plans_of_app pre app)) else None)
      (zip apps plans) add_plan ∅) as (result & Hres & Hinv).
    + intros app. rewrite lookup_empty.
      by rewrite decide_False by apply not_elem_of_nil.
    + intros pre [a p] post result _ Hinv. unfold add_plan.
      set (result1 := if bool_decide (a ∉ dom result)
                      then <[a:=[]]> result else result).
      assert (H1 : result1 !! a = Some (first_seen (plans_of_app pre a))
                   ∧ ∀ k, k ≠ a → result1 !! k = result !! k).
      { subst result1. pose proof (Hinv a) as Ha.
        destruct (decide (a ∈ pre.*1)) as [Hin|Hin].
        - rewrite bool_decide_eq_false_2
            by (intros Hn; apply Hn, elem_of_dom; by eexists).
          done.
        - rewrite bool_decide_eq_true_2 by by apply not_elem_of_dom.
          rewrite lookup_insert_eq, plans_of_app_absent by done.
          split; [done|]. intros k Hk. by rewrite lookup_insert_ne. }
      destruct H1 as [H1 Hframe]. rewrite H1. cbn [getitem mbind exc_bind].
      assert (Hgoal : ∀ result' : gmap string (list string),
        result' !! a = Some (first_seen (plans_of_app (pre ++ [(a, p)]) a)) →
        (∀ k, k ≠ a → result' !! k = result !! k) →
        ∀ app, result' !! app
               = if decide (app ∈ (pre ++ [(a, p)]).*1)
                 then Some (first_seen (plans_of_app (pre ++ [(a, p)]) app))
                 else None).
      { intros result' Ha' Hframe' app. rewrite fmap_app.
        destruct (decide (app = a)) as [->|Hne].
        - by rewrite decide_True by (apply elem_of_app; right; by left).
        - rewrite Hframe', Hinv, plans_of_app_snoc by done. cbn [fst snd].
          rewrite (decide_False (P:=a = app)), app_nil_r by done.
          destruct (decide (app ∈ pre.*1)) as [Hin|Hin].
          + by rewrite decide_True by (apply elem_of_app; by left).
          + rewrite decide_False; [done|].
            intros [?|Hx]%elem_of_app; [done|]. cbn in Hx.
            by apply list_elem_of_singleton in Hx. }
      rewrite plans_of_app_snoc, (decide_True (P:=(a, p).1 = a)) in Hgoal
        by done.
      simpl in Hgoal. rewrite first_seen_snoc in Hgoal.
      destruct (decide (p ∈ first_seen (plans_of_app pre a))) as [Hin|Hin].
      * rewrite bool_decide_eq_false_2 by auto.
        eexists. split; [done|]. by apply Hgoal.
      * rewrite bool_decide_eq_true_2 by done.
        eexists. split; [done|]. apply Hgoal.
        -- by rewrite lookup_insert_eq.
        -- intros k Hk. by rewrite lookup_insert_ne, Hframe.
    + exists result. split; [done|]. split; [done|].
      intros app listed Happ. rewrite Hinv in Happ.
      destruct (decide _); [|done]. injection Happ as <-.
      split; [apply NoDup_first_seen|].
      intros plan. by rewrite elem_of_first_seen, elem_of_plans_of_app.
Qed.

Lemma get_plans_by_app_spec_witness :
  ∃ result,
    get_plans_by_app sample_plan_groups = Ok result
    ∧ result !! "A"%string = Some ["P1"; "P3"]%string
    ∧ result !! "B"%string = Some ["P2"]%string.
Proof.
  destruct (proj2 (get_plans_by_app_spec sample_plan_groups) _ _
              eq_refl eq_refl) as (result & Hres & Hlookup & _).
  exists result. split; [exact Hres|].
  rewrite !Hlookup. split; vm_compute; reflexivity.
Defined.

(** ** Theme colours *)

(** X12.  [get_theme_colors] needs the "dark" palette whatever theme is
    asked for: without it the call raises [KeyError], even for a theme
    that has a palette.  With it, a theme without a palette gets the dark
    one, so [get_plotly_layout] of an unknown theme is the dark layout;
    the layout is returned exactly when the palette in use has the four
    colours it reads, and its two backgrounds are then the same colour. *)
Theorem get_plotly_layout_spec
    (THEME_COLORS : gmap string (gmap string string)) (theme : string) :
  (THEME_COLORS !! "dark"%string = None →
     get_theme_colors THEME_COLORS theme = Raise KeyError
     ∧ get_plotly_layout THEME_COLORS theme = Raise KeyError)
  ∧ (THEME_COLORS !! theme = None →
     get_plotly_layout THEME_COLORS theme
     = get_plotly_layout THEME_COLORS "dark")
  ∧ (∀ dark, THEME_COLORS !! "dark"%string = Some dark →
     let colors := default dark (THEME_COLORS !! theme) in
     get_theme_colors THEME_COLORS theme = Ok colors
     ∧ (complete_palette colors
        ↔ ∃ layout, get_plotly_layout THEME_COLORS theme = Ok layout)
     ∧ (¬ complete_palette colors →
        get_plotly_layout THEME_COLORS theme = Raise KeyError)
     ∧ ∀ layout, get_plotly_layout THEME_COLORS theme = Ok layout →
         paper_bgcolor layout = plot_bgcolor layout
         ∧ colors !! "card_bg"%string = Some (paper_bgcolor layout)).
Proof.
  unfold get_plotly_layout, get_theme_colors. split; [|split].
  - by intros ->.
  - intros Hnone. rewrite Hnone.
    by destruct (THEME_COLORS !! "dark"%string) as [dark|] eqn:Hd.
  - intros dark Hdark. rewrite Hdark. cbn [getitem mbind exc_bind].
    set (colors := default dark (THEME_COLORS !! theme)).
    unfold complete_palette.
    assert (Hfail : ∀ (P : Prop) (Q : plotly_layout → Prop),
      (P → False) →
      (P ↔ ∃ layout : plotly_layout, Raise KeyError = Ok layout)
      ∧ (¬ P → @Raise plotly_layout KeyError = Raise KeyError)
      ∧ ∀ layout : plotly_layout, Raise KeyError = Ok layout → Q layout)
      by (intros P Q HP; split; [split; [done|by intros [? ?]]|done]).
    destruct (colors !! "card_bg"%string) as [c1|] eqn:H1;
      cbn [getitem mbind exc_bind].
    2:{ split; [done|]. apply Hfail. intros (Ha & _). by destruct Ha. }
    destruct (colors !! "text_primary"%string) as [c2|] eqn:H2;
      cbn [getitem mbind exc_bind].
    2:{ split; [done|]. apply Hfail. intros (_ & Ha & _). by destruct Ha. }
    destruct (colors !! "border"%string) as [c3|] eqn:H3;
      cbn [getitem mbind exc_bind].
    2:{ split; [done|]. apply Hfail. intros (_ & _ & Ha & _). by destruct Ha. }
    destruct (colors !! "text_secondary"%string) as [c4|] eqn:H4;
      cbn [getitem mbind exc_bind].
    2:{ split; [done|]. apply Hfail. intros (_ & _ & _ & Ha). by destruct Ha. }
    split; [done|]. split; [|split].
    + split; [intros _; by eexists|]. intros _. repeat split; by eexists.
    + intros Hn. destruct Hn. repeat split; by eexists.
    + intros layout [= <-]. done.
Qed.

Lemma get_plotly_layout_spec_witness :
  get_plotly_layout sample_themes "solarized"
  = get_plotly_layout sample_themes "dark"
  ∧ get_theme_colors {[ "light"%string := sample_palette "#FFFFFF" ]} "light"
    = Raise KeyError.
Proof.
  split.
  - apply (proj1 (proj2 (get_plotly_layout_spec sample_themes "solarized"))).
    vm_compute. reflexivity.
  - apply (proj1 (get_plotly_layout_spec
             {[ "light"%string := sample_palette "#FFFFFF" ]} "light")).
    vm_compute. reflexivity.
Defined.

(** ** More on the pivot transform *)

Section PivotMore.

Context (float_of_str : string → option pyfloat).
Context (METRICS_CONFIG : gmap string metric_config).

Local Abbreviation pivot := (process_pivot_data float_of_str METRICS_CONFIG).
Local Abbreviation format := (format_metric_value float_of_str METRICS_CONFIG).
Local Abbreviation frame := (expected_frame float_of_str METRICS_CONFIG).

(** The cell of the expected frame for a pair, a metric and a date. *)
Lemma frame_cell_expected (pd : records) (metrics : list string) (cb : bool)
    (ci mj : nat) (c : combo) (m : string) (d : pydate) :
  well_formed pd →
  sorted_combos pd !! ci = Some c →
  metrics !! mj = Some m →
  d ∈ dates_of pd →
  frame_cell (frame pd metrics cb) (ci * length metrics + mj) (strftime_mdY d)
  = Some (CNum (format (raw_value pd (c, d) m) m cb)).
Proof.
  intros Hwf Hci Hmj Hd.
  apply (elem_of_sorted_dates pd), list_elem_of_lookup_1 in Hd as [k Hk].
  unfold frame_cell, expected_frame. cbn [df_data df_columns].
  rewrite (bind_nested_lookup _ _ _ _ _ _ _ Hci Hmj).
  assert (match metrics with
          | [] => []
          | _ :: _ => key_columns ++ date_labels pd
          end = key_columns ++ date_labels pd) as ->.
  { destruct metrics; [by rewrite lookup_nil in Hmj|done]. }
  rewrite (list_find_NoDup _ (3 + k)%nat _ (frame_columns_NoDup pd Hwf)).
  - cbn [mbind option_bind fmap option_fmap option_map fst].
    unfold expected_row.
    rewrite fmap_app, (lookup_app_r _ _ (3 + k)) by (simpl; lia).
    cbn [fmap list_fmap length]. rewrite Nat.add_comm, Nat.add_sub.
    by rewrite !list_lookup_fmap, Hk.
  - unfold key_columns, date_labels.
    rewrite (lookup_app_r _ _ (3 + k)) by (simpl; lia).
    cbn [length]. rewrite Nat.add_comm, Nat.add_sub.
    by rewrite list_lookup_fmap, Hk.
Qed.

(** X13.  The frame is dense: with at least one selected metric it has
    three key columns and one column per distinct date, and every row has
    a cell under every column. *)
Theorem process_pivot_data_dense (pd : records) (metrics : list string)
    (cb : bool) :
  well_formed pd →
  dates_of pd ≠ [] →
  metrics ≠ [] →
  ∃ df,
    pivot (Some pd) metrics cb = Ok (Some df)
    ∧ length (df_columns df)
      = (3 + length (remove_dups (dates_of pd)))%nat
    ∧ Forall (λ cells, length cells = length (df_columns df)
                       ∧ Forall is_Some cells)
             (df_data df).
Proof.
  intros Hwf Hne Hm. exists (frame pd metrics cb).
  split; [by apply process_pivot_data_wf|].
  assert (Hlen : length (sorted_dates pd)
                 = length (remove_dups (dates_of pd))).
  { unfold sorted_dates. by rewrite py_sorted_reverse_Permutation. }
  assert (Hcols : df_columns (frame pd metrics cb)
                  = key_columns ++ date_labels pd)
    by (simpl; by destruct metrics).
  rewrite Hcols. unfold date_labels.
  rewrite length_app, length_fmap, Hlen. split; [done|].
  apply Forall_forall. intros cells Hcells.
  unfold expected_frame in Hcells. cbn [df_data] in Hcells.
  apply list_elem_of_bind in Hcells as (c & Hcells & _).
  apply list_elem_of_bind in Hcells as (m & Hcells & _).
  apply list_elem_of_singleton in Hcells. rewrite Hcells. clear Hcells.
  split.
  - unfold expected_row. rewrite length_fmap, length_app, length_fmap.
    by rewrite Hlen.
  - apply Forall_fmap, Forall_forall. intros x _. by eexists.
Qed.

(** X14.  A pair and a date that never occur on the same row of the input
    get a [None] cell under every selected metric: the frame is filled
    with [None], not with rows left out. *)
Theorem process_pivot_data_absent_key (pd : records) (metrics : list string)
    (cb : bool) (ci mj : nat) (c : combo) (m : string) (d : pydate) :
  well_formed pd →
  sorted_combos pd !! ci = Some c →
  metrics !! mj = Some m →
  d ∈ dates_of pd →
  (c, d) ∉ row_keys pd →
  ∃ df,
    pivot (Some pd) metrics cb = Ok (Some df)
    ∧ frame_cell df (ci * length metrics + mj) (strftime_mdY d)
      = Some (CNum None).
Proof.
  intros Hwf Hci Hmj Hd Hkey. exists (frame pd metrics cb).
  split.
  - apply process_pivot_data_wf; [done|]. intros H. rewrite H in Hd.
    by apply elem_of_nil in Hd.
  - rewrite (frame_cell_expected pd metrics cb ci mj c m d) by done.
    unfold raw_value. apply (last_row_from_None 0) in Hkey. rewrite Hkey.
    by destruct (column pd m).
Qed.

End PivotMore.

Lemma process_pivot_data_dense_witness :
  ∃ df,
    process_pivot_data no_float sample_config (Some sample_records)
      ["Revenue"; "Conversion"]%string false = Ok (Some df)
    ∧ length (df_columns df) = 5%nat.
Proof.
  destruct (process_pivot_data_dense no_float sample_config sample_records
              ["Revenue"; "Conversion"]%string false)
    as (df & Hdf & Hlen & _).
  - exact sample_records_well_formed.
  - discriminate.
  - discriminate.
  - exists df. split; [exact Hdf|]. rewrite Hlen. vm_compute. reflexivity.
Defined.

Lemma process_pivot_data_absent_key_witness :
  ∃ df,
    process_pivot_data no_float sample_config (Some sample_records)
      ["Revenue"]%string false = Ok (Some df)
    ∧ frame_cell df (0 * length ["Revenue"%string] + 0) (strftime_mdY jan)
      = Some (CNum None).
Proof.
  apply (process_pivot_data_absent_key no_float sample_config sample_records
           ["Revenue"%string] false 0 0 ("A", "P1")%string "Revenue" jan).
  - exact sample_records_well_formed.
  - vm_compute. reflexivity.
  - reflexivity.
  - left.
  - vm_compute. intros H.
    repeat (apply elem_of_cons in H as [H|H]; [discriminate H|]).
    by apply elem_of_nil in H.
Defined.

(** ** What the pivot depends on *)

Lemma for_each_ext_elem {A S} (body1 body2 : A → S → exc S) l s :
  (∀ x s, x ∈ l → body1 x s = body2 x s) →
  for_each l body1 s = for_each l body2 s.
Proof.
  revert s. induction l as [|x l IH]; intros s Hext; simpl; [done|].
  rewrite Hext by left. destruct (body2 x s); [|done].
  apply IH. intros y s' Hy. apply Hext. by right.
Qed.

Lemma bind_ext_nested_elem {A B C} (g1 g2 : A → B → C)
    (la : list A) (lb : list B) :
  (∀ a b, a ∈ la → b ∈ lb → g1 a b = g2 a b) →
  (a ← la; b ← lb; [g1 a b]) = (a ← la; b ← lb; [g2 a b]).
Proof.
  intros Hext. induction la as [|a la IH]; [done|].
  rewrite !bind_cons, IH by (intros; apply Hext; [by right|done]). f_equal.
  rewrite !bind_single_fmap. apply Forall_fmap_ext, Forall_forall.
  intros b Hb. apply Hext; [by left|done].
Qed.

Section PivotDependence.

Context (float_of_str : string → option pyfloat).
Context (METRICS_CONFIG : gmap string metric_config).

Local Abbreviation pivot := (process_pivot_data float_of_str METRICS_CONFIG).
Local Abbreviation format := (format_metric_value float_of_str METRICS_CONFIG).

(** X15.  Only the selected columns are read: two query results of the
    data model with the same key columns and the same columns for the
    selected metrics give the same frame, whatever their other
    columns. *)
Theorem process_pivot_data_selected_only (pd1 pd2 : records)
    (metrics : list string) (cb : bool) :
  well_formed pd1 →
  well_formed pd2 →
  App_Name pd1 = App_Name pd2 →
  Plan_Name pd1 = Plan_Name pd2 →
  Reporting_Date pd1 = Reporting_Date pd2 →
  (∀ m, m ∈ metrics → column pd1 m = column pd2 m) →
  pivot (Some pd1) metrics cb = pivot (Some pd2) metrics cb.
Proof.
  intros Hwf1 Hwf2 Ha Hp Hd Hcol.
  assert (Hdates : dates_of pd1 = dates_of pd2)
    by (unfold dates_of; by rewrite Hd).
  assert (Hcombos : row_combos pd1 = row_combos pd2)
    by (unfold row_combos, apps_of, plans_of; by rewrite Ha, Hp).
  assert (Hkeys : row_keys pd1 = row_keys pd2)
    by (unfold row_keys; by rewrite Hcombos, Hdates).
  destruct (decide (dates_of pd1 = [])) as [Hnil|Hne].
  - assert (H1 : Reporting_Date pd1 = Some [])
      by (by rewrite (wf_dates pd1 Hwf1), Hnil).
    assert (H2 : Reporting_Date pd2 = Some []) by (by rewrite <- Hd).
    unfold process_pivot_data. rewrite H1, H2.
    by destruct (is_empty_dict pd1), (is_empty_dict pd2).
  - rewrite !process_pivot_data_wf by (done || by rewrite <- Hdates).
    do 2 f_equal. unfold expected_frame, date_labels, sorted_dates,
      sorted_combos. rewrite Hdates, Hcombos. f_equal.
    apply bind_ext_nested_elem. intros c m _ Hm. f_equal.
    unfold expected_row, sorted_dates. rewrite Hdates. f_equal.
    apply Forall_fmap_ext, Forall_forall. intros d _.
    unfold raw_value. by rewrite Hkeys, (Hcol m Hm).
Qed.

Lemma format_metric_value_flag value metric :
  metric ≠ "Rebills"%string →
  format value metric true = format value metric false.
Proof.
  intros Hne. unfold format_metric_value.
  apply String.eqb_neq in Hne. by rewrite Hne.
Qed.

(** X16.  The crystal-ball flag only changes how Rebills is formatted:
    when Rebills is not among the selected metrics the two scenarios
    give the same result on every input. *)
Theorem process_pivot_data_flag (pivot_data : option records)
    (metrics : list string) :
  "Rebills"%string ∉ metrics →
  pivot pivot_data metrics true = pivot pivot_data metrics false.
Proof.
  intros Hno. unfold process_pivot_data.
  destruct pivot_data as [pd|]; [|done].
  destruct (is_empty_dict pd); [done|].
  destruct (Reporting_Date pd) as [dates|]; [|done].
  destruct (length dates =? 0)%nat; [done|].
  destruct (getitem (App_Name pd)) as [apps|e]; [|done].
  rewrite !exc_bind_Ok.
  destruct (for_each (seq 0 (length apps)) _ _) as [st|e]; [|done].
  rewrite !exc_bind_Ok.
  destruct (for_each (seq 0 (length dates)) _ _) as [L|e]; [|done].
  rewrite !exc_bind_Ok.
  match goal with
  | |- ?m1 ≫= ?k = ?m2 ≫= _ => assert (Hrows : m1 = m2); [|by rewrite Hrows]
  end.
  apply for_each_ext. intros [a p] rows.
  apply for_each_ext_elem. intros m rows' Hm.
  assert (Hne : m ≠ "Rebills"%string) by (by intros ->).
  match goal with
  | |- ?b1 ≫= _ = ?b2 ≫= _ => assert (Hrow : b1 = b2); [|by rewrite Hrow]
  end.
  unfold build_row. apply for_each_ext. intros d r.
  by rewrite (format_metric_value_flag _ _ Hne).
Qed.

End PivotDependence.

Lemma sample_records_wide_well_formed : well_formed sample_records_wide.
Proof.
  unfold well_formed, sample_records_wide, sample_records, apps_of, plans_of,
    dates_of; simpl.
  repeat split; try (by eexists); try reflexivity.
  - apply map_Forall_insert_2; [reflexivity|]. by apply map_Forall_singleton.
  - repeat constructor; unfold valid_date; simpl; lia.
Qed.

Lemma process_pivot_data_selected_only_witness :
  process_pivot_data no_float sample_config (Some sample_records)
    ["Revenue"]%string false
  = process_pivot_data no_float sample_config (Some sample_records_wide)
      ["Revenue"]%string false.
Proof.
  apply process_pivot_data_selected_only; try reflexivity.
  - exact sample_records_well_formed.
  - exact sample_records_wide_well_formed.
  - intros m Hm. apply list_elem_of_singleton in Hm as ->.
    vm_compute. reflexivity.
Defined.

Lemma process_pivot_data_flag_witness :
  process_pivot_data no_float sample_config (Some sample_records)
    ["Revenue"; "Conversion"]%string true
  = process_pivot_data no_float sample_config (Some sample_records)
      ["Revenue"; "Conversion"]%string false.
Proof.
  apply process_pivot_data_flag. intros H.
  repeat (apply elem_of_cons in H as [H|H]; [discriminate H|]).
  by apply elem_of_nil in H.
Defined.

(** ** Exceptions raised on malformed input *)

(** A loop raises [e] when one round raises [e] whatever the state and the
    rounds before it either succeed, keeping an invariant, or raise [e]
    themselves. *)
Lemma for_each_raises {A S} (P : S → Prop) (l1 : list A) (x : A)
    (l2 : list A) (body : A → S → exc S) (s0 : S) (e : pyexn) :
  P s0 →
  (∀ y s, y ∈ l1 → P s →
     body y s = Raise e ∨ ∃ s', body y s = Ok s' ∧ P s') →
  (∀ s, P s → body x s = Raise e) →
  for_each (l1 ++ x :: l2) body s0 = Raise e.
Proof.
  revert s0. induction l1 as [|y l1 IH]; intros s0 H0 Hpre Hx; simpl.
  - by rewrite Hx.
  - destruct (Hpre y s0) as [->|(s' & -> & Hs')]; [by left|done|done|].
    apply IH; [done| |done]. intros z s Hz. apply Hpre. by right.
Qed.

Lemma seq_split_at (k n : nat) :
  (k < n)%nat → seq 0 n = seq 0 k ++ k :: seq (S k) (n - S k).
Proof.
  intros Hk. replace n with (k + S (n - S k))%nat at 1 by lia.
  by rewrite seq_app.
Qed.

Lemma for_each_range_raises {S} (P : S → Prop) (k n : nat)
    (body : nat → S → exc S) (s0 : S) (e : pyexn) :
  (k < n)%nat →
  P s0 →
  (∀ i s, (i < k)%nat → P s →
     body i s = Raise e ∨ ∃ s', body i s = Ok s' ∧ P s') →
  (∀ s, P s → body k s = Raise e) →
  for_each (seq 0 n) body s0 = Raise e.
Proof.
  intros Hk H0 Hpre Hx. rewrite (seq_split_at k n Hk).
  apply (for_each_raises P); [done| |done].
  intros i s Hi. apply Hpre. apply elem_of_seq in Hi. lia.
Qed.

Section PivotErrors.

Context (float_of_str : string → option pyfloat).
Context (METRICS_CONFIG : gmap string metric_config).
Context (pd : records) (metrics : list string) (cb : bool).
Context (apps plans : list string) (dates : list pydate).
Context (Hdates : Reporting_Date pd = Some dates) (Hne : dates ≠ []).

Local Abbreviation pivot := (process_pivot_data float_of_str METRICS_CONFIG).

Lemma pivot_past_guard :
  pivot (Some pd) metrics cb
  = (apps ← getitem (App_Name pd);
     st ← for_each (seq 0 (length apps)) (collect_combo pd) ([], ∅);
     let plan_combos := py_sorted (pair_ltb str_ltb str_ltb) st.1 in
     lookup ← for_each (seq 0 (length dates))
                (fill_lookup pd metrics) ∅;
     rows ← for_each plan_combos
              (λ '(app_name, plan_name) rows,
                 for_each metrics
                   (λ metric rows,
                      r ← build_row float_of_str METRICS_CONFIG lookup
                            (list_to_map
                               ((λ d, (d, strftime_mdY d))
                                <$> py_sorted_reverse date_ltb
                                      (remove_dups dates)))
                            (py_sorted_reverse date_ltb (remove_dups dates))
                            cb app_name plan_name metric;
                      Ok (rows ++ [r]))
                   rows)
              [];
     Ok (Some (pd_DataFrame rows))).
Proof.
  unfold process_pivot_data.
  assert (is_empty_dict pd = false) as ->.
  { unfold is_empty_dict. rewrite Hdates.
    by destruct (App_Name pd), (Plan_Name pd). }
  rewrite Hdates.
  assert ((length dates =? 0)%nat = false) as ->
    by (by destruct dates).
  done.
Qed.

(** The first loop goes through when every application has a plan at its
    index. *)
Lemma collect_combos_total :
  App_Name pd = Some apps → Plan_Name pd = Some plans →
  (length apps ≤ length plans)%nat →
  ∃ st, for_each (seq 0 (length apps)) (collect_combo pd) ([], ∅) = Ok st.
Proof.
  intros Ha Hp Hlen.
  destruct (for_each_range_invariant (λ _ _, True) (length apps)
              (collect_combo pd) ([], ∅)) as (st & Hst & _); [done| |by eexists].
  intros i [l seen] Hi _. unfold collect_combo. rewrite Ha, Hp.
  cbn [getitem mbind exc_bind]. unfold index.
  destruct (lookup_lt_is_Some_2 apps i Hi) as [a ->].
  destruct (lookup_lt_is_Some_2 plans i) as [p ->]; [lia|].
  cbn [mbind exc_bind]. destruct (bool_decide _); by eexists.
Qed.

(** A round of the inner loop of the lookup construction succeeds, keeping
    the key in [lookup], or raises [IndexError]. *)
Lemma store_metric_outcome (i : nat) (key : lookup_key) (m : string)
    (L : gmap lookup_key (gmap string pyval)) :
  is_Some (L !! key) →
  store_metric pd i key m L = Raise IndexError
  ∨ ∃ L', store_metric pd i key m L = Ok L' ∧ is_Some (L' !! key).
Proof.
  intros [inner Hinner]. unfold store_metric.
  destruct (column pd m) as [col|]; [|right; by eexists].
  unfold index. destruct (col !! i) as [v|]; [|by left].
  cbn [mbind exc_bind]. rewrite Hinner. cbn [getitem mbind exc_bind].
  right. eexists. split; [done|]. by rewrite lookup_insert_eq.
Qed.

Lemma store_metrics_outcome (i : nat) (key : lookup_key) (ms : list string)
    (L : gmap lookup_key (gmap string pyval)) :
  is_Some (L !! key) →
  for_each ms (store_metric pd i key) L = Raise IndexError
  ∨ ∃ L', for_each ms (store_metric pd i key) L = Ok L'.
Proof.
  revert L. induction ms as [|m ms IH]; intros L HL; simpl.
  - right. by eexists.
  - destruct (store_metric_outcome i key m L HL) as [->|(L' & -> & HL')];
      [by left|]. by apply IH.
Qed.

Lemma ensure_key_is_Some (key : lookup_key)
    (L : gmap lookup_key (gmap string pyval)) :
  is_Some ((if bool_decide (key ∉ dom L) then <[key:=∅]> L else L) !! key).
Proof.
  destruct (decide (key ∈ dom L)) as [Hin|Hin].
  - rewrite bool_decide_eq_false_2 by auto. by apply elem_of_dom.
  - rewrite bool_decide_eq_true_2 by done. by rewrite lookup_insert_eq.
Qed.

(** A round of the second loop succeeds or raises [IndexError]. *)
Lemma fill_lookup_outcome (i : nat) (L : gmap lookup_key (gmap string pyval)) :
  App_Name pd = Some apps → Plan_Name pd = Some plans →
  fill_lookup pd metrics i L = Raise IndexError
  ∨ ∃ L', fill_lookup pd metrics i L = Ok L' ∧ True.
Proof.
  intros Ha Hp. unfold fill_lookup. rewrite Ha, Hp, Hdates.
  cbn [getitem mbind exc_bind]. unfold index.
  destruct (apps !! i) as [a|]; [|by left]. cbn [mbind exc_bind].
  destruct (plans !! i) as [p|]; [|by left]. cbn [mbind exc_bind].
  destruct (dates !! i) as [d|]; [|by left]. cbn [mbind exc_bind].
  destruct (store_metrics_outcome i (a, p, d) metrics
              (if bool_decide ((a, p, d) ∉ dom L)
               then <[(a, p, d):=∅]> L else L)) as [->|(L' & ->)].
  - apply ensure_key_is_Some.
  - by left.
  - right. by eexists.
Qed.

(** X17.  Past the guard a malformed query result makes
    [process_pivot_data] raise: [KeyError] when the [App_Name] or the
    [Plan_Name] list is missing, [IndexError] when [Plan_Name] is shorter
    than [App_Name], when [App_Name] is shorter than [Reporting_Date], or
    when the column of a selected metric is shorter than the key
    columns. *)
Theorem process_pivot_data_raises :
  (App_Name pd = None → pivot (Some pd) metrics cb = Raise KeyError)
  ∧ (App_Name pd = Some apps → apps ≠ [] → Plan_Name pd = None →
     pivot (Some pd) metrics cb = Raise KeyError)
  ∧ (App_Name pd = Some apps → Plan_Name pd = Some plans →
     (length plans < length apps)%nat →
     pivot (Some pd) metrics cb = Raise IndexError)
  ∧ (App_Name pd = Some apps → Plan_Name pd = Some plans →
     (length apps ≤ length plans)%nat →
     (length apps < length dates)%nat →
     pivot (Some pd) metrics cb = Raise IndexError)
  ∧ (∀ m col,
       App_Name pd = Some apps → Plan_Name pd = Some plans →
       length apps = length dates → length plans = length dates →
       m ∈ metrics → column pd m = Some col →
       (length col < length dates)%nat →
       pivot (Some pd) metrics cb = Raise IndexError).
Proof.
  rewrite pivot_past_guard. split; [|split; [|split; [|split]]].
  - by intros ->.
  - intros Ha Happs Hp. rewrite Ha. cbn [getitem mbind exc_bind].
    destruct apps as [|a apps']; [done|]. simpl.
    unfold collect_combo. by rewrite Ha, Hp.
  - intros Ha Hp Hlen. rewrite Ha. cbn [getitem mbind exc_bind].
    rewrite (for_each_range_raises (λ _, True) (length plans) (length apps)
               (collect_combo pd) ([], ∅) IndexError); [done|lia|done| |].
    + intros i [l seen] Hi _. right. unfold collect_combo. rewrite Ha, Hp.
      cbn [getitem mbind exc_bind]. unfold index.
      destruct (lookup_lt_is_Some_2 apps i) as [a ->]; [lia|].
      destruct (lookup_lt_is_Some_2 plans i Hi) as [p ->].
      cbn [mbind exc_bind]. destruct (bool_decide _); by eexists.
    + intros [l seen] _. unfold collect_combo. rewrite Ha, Hp.
      cbn [getitem mbind exc_bind]. unfold index.
      destruct (lookup_lt_is_Some_2 apps (length plans) Hlen) as [a ->].
      rewrite (lookup_ge_None_2 plans (length plans)) by lia. done.
  - intros Ha Hp Hlen1 Hlen2. rewrite Ha. cbn [getitem mbind exc_bind].
    destruct (collect_combos_total Ha Hp Hlen1) as [st ->].
    rewrite exc_bind_Ok. cbv zeta.
    rewrite (for_each_range_raises (λ _, True) (length apps) (length dates)
               (fill_lookup pd metrics) ∅ IndexError); [done|lia|done| |].
    + intros i L _ _. by apply fill_lookup_outcome.
    + intros L _. unfold fill_lookup. rewrite Ha.
      cbn [getitem mbind exc_bind]. unfold index.
      rewrite (lookup_ge_None_2 apps (length apps)) by lia. done.
  - intros m col Ha Hp Hlen1 Hlen2 Hm Hcol Hshort.
    rewrite Ha. cbn [getitem mbind exc_bind].
    destruct (collect_combos_total Ha Hp) as [st ->]; [lia|].
    rewrite exc_bind_Ok. cbv zeta.
    rewrite (for_each_range_raises (λ _, True) (length col) (length dates)
               (fill_lookup pd metrics) ∅ IndexError); [done|lia|done| |].
    + intros i L _ _. by apply fill_lookup_outcome.
    + intros L _. unfold fill_lookup. rewrite Ha, Hp, Hdates.
      cbn [getitem mbind exc_bind]. unfold index.
      destruct (lookup_lt_is_Some_2 apps (length col)) as [a ->]; [lia|].
      destruct (lookup_lt_is_Some_2 plans (length col)) as [p ->]; [lia|].
      destruct (lookup_lt_is_Some_2 dates (length col)) as [d ->]; [lia|].
      cbn [mbind exc_bind].
      apply list_elem_of_split in Hm as (ms1 & ms2 & ->).
      apply (for_each_raises (λ L, is_Some (L !! (a, p, d)))).
      * apply ensure_key_is_Some.
      * intros m' L' _ HL'. by apply store_metric_outcome.
      * intros L' [inner HL']. unfold store_metric. rewrite Hcol.
        unfold index. by rewrite (lookup_ge_None_2 col (length col)) by lia.
Qed.

End PivotErrors.

Lemma process_pivot_data_raises_witness :
  process_pivot_data no_float sample_config (Some ragged_records)
    ["Revenue"]%string false = Raise IndexError.
Proof.
  apply (proj1 (proj2 (proj2
    (process_pivot_data_raises no_float sample_config ragged_records
       ["Revenue"%string] false ["A"; "A"]%string ["P"%string] [jan; feb]
       eq_refl ltac:(discriminate)))));
    [reflexivity|reflexivity|simpl; lia].
Defined.

(** ** More on formatting *)

Lemma round_half_even_bounds q :
  Qfloor q ≤ round_half_even q ≤ Qfloor q + 1.
Proof. destruct (round_half_even_cases q) as [[-> _]|[-> _]]; lia. Qed.

(** Rounding to an integer never inverts an order. *)
Lemma round_half_even_mono q1 q2 :
  (q1 <= q2)%Q → round_half_even q1 ≤ round_half_even q2.
Proof.
  intros Hle. pose proof (Qfloor_resp_le _ _ Hle) as Hf.
  pose proof (round_half_even_bounds q1) as H1.
  pose proof (round_half_even_bounds q2) as H2.
  destruct (decide (Qfloor q1 = Qfloor q2)) as [Heq|Hne]; [|lia].
  unfold round_half_even. rewrite Heq.
  destruct (Qcompare_spec (q1 - inject_Z (Qfloor q2)) (1 # 2)) as [E1|L1|G1];
  destruct (Qcompare_spec (q2 - inject_Z (Qfloor q2)) (1 # 2)) as [E2|L2|G2];
    try lia; try lra; destruct (Z.even (Qfloor q2)); lia.
Qed.

Lemma round_2_mono q1 q2 : (q1 <= q2)%Q → (round_2 q1 <= round_2 q2)%Q.
Proof.
  intros Hle. unfold round_2, Qle. simpl.
  apply Z.mul_le_mono_nonneg_r; [lia|].
  apply round_half_even_mono. apply Qmult_le_compat_r; [done|]. done.
Qed.


Lemma rounded_binary53 q : binary53 (rounded q).
Proof.
  destruct (Qeq_dec q 0) as [Hq|Hq].
  { exists 0, 0. split; [done|]. split; [lia|].
    rewrite (rounded_zero q Hq). ring. }
  destruct (significand_bounds q Hq) as [Hm53 _].
  destruct (ulp_exponent_bounds q Hq) as (HE & _ & _).
  unfold rounded.
  set (E := ulp_exponent q) in *.
  set (m := round_half_even (q / pow2 E)) in *.
  destruct (Z.eq_dec (Z.abs m) (2 ^ 53)) as [Heq|Hne].
  - exists (m / 2), (E + 1).
    assert (Hm : m = 2 * (m / 2)).
    { apply Z.div_exact; [done|].
      destruct (Z.abs_spec m) as [[_ Ha]|[_ Ha]]; rewrite Ha in Heq.
      - by rewrite Heq.
      - replace m with (- 2 ^ 53) by lia. done. }
    split; [lia|]. split; [lia|].
    rewrite pow2_succ. rewrite Hm at 1. rewrite inject_Z_mult.
    change (inject_Z 2) with 2%Q. ring.
  - exists m, E. split; [lia|]. split; [done|]. reflexivity.
Qed.

(** The exponent of a positive rational does not depend on the fraction
    that denotes it. *)
Lemma Qlog2_unique q k :
  (pow2 k <= q)%Q → (q < pow2 (k + 1))%Q → Qlog2 q = k.
Proof.
  intros Hlo Hhi.
  assert (Hq : (0 < q)%Q).
  { apply Qlt_le_trans with (pow2 k); [apply pow2_pos|done]. }
  destruct (Qlog2_spec q Hq) as [Hlo' Hhi'].
  assert (H1 : (pow2 k < pow2 (Qlog2 q + 1))%Q) by lra.
  assert (H2 : (pow2 (Qlog2 q) < pow2 (k + 1))%Q) by lra.
  apply Qpower_lt_compat_l_inv in H1; [|done].
  apply Qpower_lt_compat_l_inv in H2; [|done]. lia.
Qed.

Lemma Qlog2_comp q1 q2 : (0 < q1)%Q → (q1 == q2)%Q → Qlog2 q1 = Qlog2 q2.
Proof.
  intros Hq Heq. symmetry. destruct (Qlog2_spec q1 Hq) as [Hlo Hhi].
  apply Qlog2_unique; lra.
Qed.

Lemma Qabs_pos_of_nonzero q : ¬ (q == 0)%Q → (0 < Qabs q)%Q.
Proof.
  intros Hq. destruct (Qlt_le_dec 0 (Qabs q)) as [|Hle]; [done|].
  destruct Hq. apply Qabs_Qle_condition in Hle. lra.
Qed.

Lemma rounded_comp q1 q2 : (q1 == q2)%Q → (rounded q1 == rounded q2)%Q.
Proof.
  intros Heq. destruct (Qeq_dec q1 0) as [Hq|Hq].
  { rewrite (rounded_zero q1 Hq), (rounded_zero q2); [done|]. lra. }
  assert (HE : ulp_exponent q1 = ulp_exponent q2).
  { unfold ulp_exponent. f_equal. f_equal.
    apply Qlog2_comp; [by apply Qabs_pos_of_nonzero|]. by rewrite Heq. }
  unfold rounded. rewrite <- HE.
  rewrite (round_half_even_comp (q2 / _) (q1 / pow2 (ulp_exponent q1)));
    [done|].
  unfold Qdiv. apply Qmult_comp; [by symmetry|reflexivity].
Qed.

(** Rounding to 53 bits never inverts an order. *)
Lemma rounded_mono q1 q2 : (q1 <= q2)%Q → (rounded q1 <= rounded q2)%Q.
Proof.
  intros Hle.
  destruct (Qlt_le_dec (rounded q2) (rounded q1)) as [Hlt|]; [|done].
  exfalso.
  pose proof (rounded_nearest q1 (rounded q2) (rounded_binary53 q2)) as H1.
  pose proof (rounded_nearest q2 (rounded q1) (rounded_binary53 q1)) as H2.
  set (v1 := rounded q1) in *. set (v2 := rounded q2) in *.
  assert (Hmid1 : (v1 + v2 <= 2 * q1)%Q).
  { destruct (Qlt_le_dec q1 v2) as [Ha|Ha].
    - rewrite (Qabs_pos (v1 - q1)), (Qabs_pos (v2 - q1)) in H1 by lra. lra.
    - destruct (Qlt_le_dec q1 v1) as [Hb|Hb].
      + rewrite (Qabs_pos (v1 - q1)), (Qabs_neg (v2 - q1)) in H1 by lra. lra.
      + lra. }
  assert (Hmid2 : (2 * q2 <= v1 + v2)%Q).
  { destruct (Qlt_le_dec v1 q2) as [Ha|Ha].
    - rewrite (Qabs_neg (v2 - q2)), (Qabs_neg (v1 - q2)) in H2 by lra. lra.
    - destruct (Qlt_le_dec v2 q2) as [Hb|Hb].
      + rewrite (Qabs_neg (v2 - q2)), (Qabs_pos (v1 - q2)) in H2 by lra. lra.
      + lra. }
  assert (Heq : (q1 == q2)%Q) by lra.
  pose proof (rounded_comp q1 q2 Heq) as Hc. fold v1 v2 in Hc. lra.
Qed.

Lemma to_double_cases q :
  (∃ r, to_double q = FNum r ∧ (r == rounded q)%Q
        ∧ (- pow2 1024 < rounded q)%Q ∧ (rounded q < pow2 1024)%Q)
  ∨ (to_double q = FNegZero ∧ (rounded q == 0)%Q)
  ∨ (to_double q = FInf false ∧ (pow2 1024 <= rounded q)%Q)
  ∨ (to_double q = FInf true ∧ (rounded q <= - pow2 1024)%Q).
Proof.
  pose proof (pow2_pos 1024) as HP.
  unfold to_double, rounded. cbv zeta.
  set (E := ulp_exponent q). set (m := round_half_even (q / pow2 E)).
  pose proof (pow2_pos E) as HE.
  destruct (Z.eqb_spec m 0) as [Hm|Hm].
  - rewrite Hm.
    assert (H0 : (inject_Z 0 * pow2 E == 0)%Q) by ring.
    destruct (Qle_bool 0 q).
    + left. exists 0%Q. rewrite H0. repeat split; try done; lra.
    + right; left. done.
  - destruct (Qle_bool (pow2 1024) (Qabs (inject_Z m * pow2 E))) eqn:Hov.
    + apply Qle_bool_iff in Hov. rewrite Qabs_scaled in Hov by done.
      change (Qabs (inject_Z m)) with (inject_Z (Z.abs m)) in Hov.
      destruct (Z.ltb_spec m 0) as [Hneg|Hpos].
      * right; right; right. split; [done|].
        rewrite Z.abs_neq, inject_Z_opp in Hov by lia. lra.
      * right; right; left. split; [done|].
        rewrite Z.abs_eq in Hov by lia. done.
    + left. exists (Qred (inject_Z m * pow2 E)).
      split; [done|]. split; [apply Qred_correct|].
      assert (Hlt : (Qabs (inject_Z m * pow2 E) < pow2 1024)%Q).
      { apply Qnot_le_lt. intros H. apply Qle_bool_iff in H. congruence. }
      by apply Qabs_Qlt_condition in Hlt.
Qed.

Lemma to_double_not_NaN q : to_double q ≠ FNaN.
Proof.
  destruct (to_double_cases q) as [(r & -> & _)|[[-> _]|[[-> _]|[-> _]]]];
    done.
Qed.

(** The conversion to a float never inverts an order. *)
Lemma to_double_mono q1 q2 :
  (q1 <= q2)%Q → float_le (to_double q1) (to_double q2).
Proof.
  intros Hle. pose proof (rounded_mono q1 q2 Hle) as Hr.
  pose proof (pow2_pos 1024) as HP.
  destruct (to_double_cases q1)
    as [(r1 & -> & Hr1 & Hlo1 & Hhi1)|[[-> Hz1]|[[-> Hi1]|[-> Hi1]]]];
  destruct (to_double_cases q2)
    as [(r2 & -> & Hr2 & Hlo2 & Hhi2)|[[-> Hz2]|[[-> Hi2]|[-> Hi2]]]];
    simpl; try done; lra.
Qed.

Lemma float_le_trans x y z : float_le x y → float_le y z → float_le x z.
Proof.
  destruct x as [a| |[]|], y as [b| |[]|], z as [c| |[]|]; simpl;
    try done; lra.
Qed.

Lemma float_le_refl x : x ≠ FNaN → float_le x x.
Proof. destruct x as [a| |[]|]; simpl; try done. intros _. lra. Qed.

(** [round(x, 2)] of a finite float is, up to the sign of zero, the float
    nearest to the two-decimal rounding. *)
Lemma float_round2_finite x v :
  float_Q x = Some v →
  float_le (float_round2 x) (to_double (round_2 v))
  ∧ float_le (to_double (round_2 v)) (float_round2 x).
Proof.
  destruct x as [q| | |]; try done; intros [= <-].
  - unfold float_round2. cbv zeta.
    destruct (Z.eqb_spec (Qnum (round_2 q)) 0) as [Hz|Hz].
    + assert (Hr : round_2 q = (0 # 100)%Q).
      { unfold round_2 in *. simpl in Hz. by rewrite Hz. }
      rewrite Hr. change (to_double (0 # 100)) with (FNum 0).
      destruct (Qle_bool 0 q); simpl; split; lra.
    + split; apply float_le_refl, to_double_not_NaN.
  - change (to_double (round_2 0)) with (FNum 0). simpl. split; lra.
Qed.

Lemma mul100_finite x v :
  float_Q x = Some v →
  float_le (mul100 x) (to_double (v * inject_Z 100))
  ∧ float_le (to_double (v * inject_Z 100)) (mul100 x).
Proof.
  destruct x as [q| | |]; try done; intros [= <-].
  - simpl. split; apply float_le_refl, to_double_not_NaN.
  - change (to_double (0 * inject_Z 100)) with (FNum 0). simpl. split; lra.
Qed.

Lemma float_le_finite x y v w :
  float_Q x = Some v → float_Q y = Some w → float_le x y ↔ (v <= w)%Q.
Proof.
  destruct x as [a| | |], y as [b| | |]; try done; intros [= <-] [= <-];
    simpl; split; try done; lra.
Qed.

Lemma float_cases x :
  x = FNaN ∨ x = FInf true ∨ x = FInf false ∨ ∃ v, float_Q x = Some v.
Proof. destruct x as [q| |[]|]; eauto. Qed.

Lemma float_le_top x : x ≠ FNaN → float_le x (FInf false).
Proof. by destruct x as [a| |[]|]. Qed.

Lemma float_le_bot x : x ≠ FNaN → float_le (FInf true) x.
Proof. by destruct x as [a| |[]|]. Qed.

Lemma float_le_not_NaN x y : float_le x y → x ≠ FNaN ∧ y ≠ FNaN.
Proof. by destruct x as [a| |[]|], y as [b| |[]|]. Qed.

Lemma float_round2_not_NaN x : x ≠ FNaN → float_round2 x ≠ FNaN.
Proof.
  destruct x as [q| | |]; try done. intros _. unfold float_round2. cbv zeta.
  destruct (Qnum (round_2 q) =? 0)%Z; [by destruct (Qle_bool 0 q)|].
  apply to_double_not_NaN.
Qed.

Lemma mul100_not_NaN x : x ≠ FNaN → mul100 x ≠ FNaN.
Proof.
  destruct x as [q| | |]; try done. intros _. apply to_double_not_NaN.
Qed.

(** A monotone function on the finite floats that fixes the infinities
    is monotone on all floats. *)
Lemma float_mono_lift (f : pyfloat → pyfloat) (g : Q → Q) :
  (∀ s, f (FInf s) = FInf s) →
  (∀ x, x ≠ FNaN → f x ≠ FNaN) →
  (∀ x v, float_Q x = Some v →
     float_le (f x) (to_double (g v)) ∧ float_le (to_double (g v)) (f x)) →
  (∀ v w, (v <= w)%Q → (g v <= g w)%Q) →
  ∀ x y, float_le x y → float_le (f x) (f y).
Proof.
  intros Hinf Hnan Hfin Hg x y Hle.
  destruct (float_le_not_NaN x y Hle) as [Hx Hy].
  destruct (float_cases x) as [?|[->|[->|[v Hv]]]]; [done| | |].
  - rewrite Hinf. by apply float_le_bot, Hnan.
  - destruct y as [b| |[]|]; try done. by rewrite Hinf.
  - destruct (float_cases y) as [?|[->|[->|[w Hw]]]]; [done| | |].
    + by destruct x as [a| |[]|].
    + rewrite Hinf. by apply float_le_top, Hnan.
    + destruct (Hfin x v Hv) as [H1 _]. destruct (Hfin y w Hw) as [_ H2].
      eapply float_le_trans; [exact H1|].
      eapply float_le_trans; [|exact H2].
      apply to_double_mono, Hg. by apply (float_le_finite x y v w).
Qed.

Lemma float_round2_mono x y :
  float_le x y → float_le (float_round2 x) (float_round2 y).
Proof.
  apply (float_mono_lift float_round2 round_2); [done| | |].
  - apply float_round2_not_NaN.
  - apply float_round2_finite.
  - apply round_2_mono.
Qed.

Lemma mul100_mono x y : float_le x y → float_le (mul100 x) (mul100 y).
Proof.
  apply (float_mono_lift mul100 (λ v, v * inject_Z 100)%Q); [done| | |].
  - apply mul100_not_NaN.
  - apply mul100_finite.
  - intros v w Hvw. by apply Qmult_le_compat_r.
Qed.

Section FormatMore.

Context (float_of_str : string → option pyfloat).
Context (METRICS_CONFIG : gmap string metric_config).

Local Abbreviation format := (format_metric_value float_of_str METRICS_CONFIG).

(** The formatted value of a float that is not NaN. *)
Lemma format_float x metric cb :
  x ≠ FNaN →
  format (PyFloat x) metric cb
  = if String.eqb metric "Rebills" && cb
    then match x with
         | FNum q => Some (RInt (round_half_even q))
         | FNegZero => Some (RInt 0)
         | _ => None
         end
    else if String.eqb
              (default "number"%string
                 (cfg_format (default empty_config
                                (METRICS_CONFIG !! metric))))
              "percent"
         then Some (RFloat (float_round2 (mul100 x)))
         else Some (RFloat (float_round2 x)).
Proof.
  intros Hx. unfold format_metric_value.
  assert (is_none (PyFloat x) || pd_isna (PyFloat x) = false) as ->
    by (by destruct x).
  destruct (String.eqb metric "Rebills" && cb);
    [by destruct x|].
  by destruct (String.eqb _ "percent").
Qed.

(** X18.  Formatting never inverts an order: of two floats formatted for
    the same metric under the same flag, the smaller one has the smaller
    or equal result, and a finite float always has a result. *)
Theorem format_metric_value_monotone x1 x2 metric cb :
  float_le x1 x2 →
  (∀ n1 n2,
     format (PyFloat x1) metric cb = Some n1 →
     format (PyFloat x2) metric cb = Some n2 →
     pynum_le n1 n2)
  ∧ (is_Some (float_Q x1) → is_Some (format (PyFloat x1) metric cb))
  ∧ (is_Some (float_Q x2) → is_Some (format (PyFloat x2) metric cb)).
Proof.
  intros Hle. destruct (float_le_not_NaN x1 x2 Hle) as [H1 H2].
  rewrite !format_float by done.
  destruct (String.eqb metric "Rebills" && cb);
    [|destruct (String.eqb _ "percent")].
  - split; [|split].
    + intros n1 n2 Hn1 Hn2.
      destruct x1 as [a| | |], x2 as [b| | |]; try done;
        injection Hn1 as <-; injection Hn2 as <-; simpl in *.
      * by apply round_half_even_mono.
      * rewrite <- (round_half_even_Z 0). by apply round_half_even_mono.
      * rewrite <- (round_half_even_Z 0) at 1. by apply round_half_even_mono.
      * done.
    + destruct x1; by intros [? [=]].
    + destruct x2; by intros [? [=]].
  - split; [|by split].
    intros n1 n2 [= <-] [= <-]. simpl.
    by apply float_round2_mono, mul100_mono.
  - split; [|by split].
    intros n1 n2 [= <-] [= <-]. simpl. by apply float_round2_mono.
Qed.

End FormatMore.

Lemma format_metric_value_monotone_witness :
  ∃ n1 n2,
    format_metric_value no_float sample_config
      (PyFloat (to_double (1234 # 10000))) "Conversion" false = Some n1
    ∧ format_metric_value no_float sample_config
        (PyFloat (to_double (1235 # 10000))) "Conversion" false = Some n2
    ∧ pynum_le n1 n2.
Proof.
  eexists _, _. split; [vm_compute; reflexivity|].
  split; [vm_compute; reflexivity|].
  apply (proj1 (format_metric_value_monotone no_float sample_config
                  (to_double (1234 # 10000)) (to_double (1235 # 10000))
                  "Conversion" false ltac:(vm_compute; discriminate)));
    vm_compute; reflexivity.
Defined.

(** ** Formatting twice *)

Lemma round_half_even_unique x k :
  (Qabs (x - inject_Z k) < 1 # 2)%Q → round_half_even x = k.
Proof.
  intros Hk. apply Qabs_Qlt_condition in Hk.
  pose proof (round_half_even_error x) as He.
  apply Qabs_Qle_condition in He.
  apply Z.le_antisymm.
  - apply Z_of_Q_lt. lra.
  - apply Z_of_Q_gt. lra.
Qed.

Lemma round_2_value q :
  (round_2 q == inject_Z (round_half_even (q * inject_Z 100)) * (1 # 100))%Q.
Proof.
  unfold round_2. rewrite (Qmake_Qdiv _ 100).
  change (inject_Z (Z.pos 100)) with (100 # 1)%Q. field.
Qed.

Lemma round_2_error q : (Qabs (q - round_2 q) <= 1 # 200)%Q.
Proof.
  pose proof (round_half_even_error (q * inject_Z 100)) as He.
  apply Qabs_Qle_condition in He. apply Qabs_Qle_condition.
  rewrite round_2_value. change (inject_Z 100) with (100 # 1)%Q in *.
  split; lra.
Qed.

Lemma round_2_comp q1 q2 : (q1 == q2)%Q → round_2 q1 = round_2 q2.
Proof.
  intros Heq. unfold round_2. f_equal. apply round_half_even_comp.
  by rewrite Heq.
Qed.

Lemma round_2_int z : (round_2 (inject_Z z) == inject_Z z)%Q.
Proof.
  rewrite round_2_value.
  rewrite (round_half_even_comp _ (inject_Z (z * 100))), round_half_even_Z.
  - rewrite inject_Z_mult. change (inject_Z 100) with (100 # 1)%Q. field.
  - by rewrite inject_Z_mult.
Qed.

(** A finite result of [to_double] is a reduced fraction. *)
Lemma to_double_reduced q r : to_double q = FNum r → Qred r = r.
Proof.
  unfold to_double. cbv zeta.
  destruct (_ =? 0)%Z.
  - destruct (Qle_bool 0 q); [|done]. by intros [= <-].
  - destruct (Qle_bool _ _); [done|]. intros [= <-].
    apply Qred_complete, Qred_correct.
Qed.

(** A rational that [rounded] maps to a nonzero finite float [r]
    converts to [r]. *)
Lemma to_double_of_rounded q r :
  (rounded q == r)%Q → ¬ (r == 0)%Q → (Qabs r < pow2 1024)%Q →
  Qred r = r → to_double q = FNum r.
Proof.
  intros Hr Hr0 Hfin Hred.
  apply Qabs_Qlt_condition in Hfin.
  destruct (to_double_cases q)
    as [(r' & Hq & Hr' & _)|[[_ Hz]|[[_ Hi]|[_ Hi]]]]; try lra.
  rewrite Hq. f_equal. rewrite <- Hred, <- (to_double_reduced q r' Hq).
  apply Qred_complete. by rewrite Hr'.
Qed.

Lemma rounded_fixed v : binary53 v → (rounded v == v)%Q.
Proof.
  intros Hv. pose proof (rounded_nearest v v Hv) as H.
  assert (H0 : (Qabs (v - v) == 0)%Q).
  { assert (Hvv : (v - v == 0)%Q) by ring. by rewrite Hvv. }
  rewrite H0 in H. apply Qabs_Qle_condition in H. lra.
Qed.

Lemma Qabs_close a b e :
  (Qabs (a - b) <= e)%Q →
  (Qabs a - e <= Qabs b)%Q ∧ (Qabs b <= Qabs a + e)%Q.
Proof.
  intros H. apply Qabs_Qle_condition in H.
  destruct (Qlt_le_dec a 0), (Qlt_le_dec b 0);
    rewrite ?(Qabs_neg a), ?(Qabs_pos a), ?(Qabs_neg b), ?(Qabs_pos b)
      by lra; split; lra.
Qed.

Lemma Qabs_eq_of_close a b :
  (Qabs (a - b) < 1)%Q → ∀ x y, a = inject_Z x → b = inject_Z y → x = y.
Proof.
  intros H x y -> ->. apply Qabs_Qlt_condition in H.
  apply Z.le_antisymm; [apply Z_of_Q_lt|apply Z_of_Q_gt]; lra.
Qed.

(** A float of at least [2^46] in magnitude is so coarse that the
    two-decimal rounding of it converts back to it. *)
Lemma rounded_round_2_grid r m E :
  -6 ≤ E → 2 ^ 52 ≤ Z.abs m → binary53 r →
  (r == inject_Z m * pow2 E)%Q →
  (rounded (round_2 r) == r)%Q.
Proof.
  intros HE6 Hm Hb Hr.
  set (q' := round_2 r).
  pose proof (pow2_pos E) as HE0.
  assert (HE64 : (1 # 64 <= pow2 E)%Q).
  { change (1 # 64)%Q with (pow2 (-6)). by apply pow2_le. }
  assert (HR : (Qabs r == inject_Z (Z.abs m) * pow2 E)%Q).
  { rewrite Hr, Qabs_scaled by done. done. }
  set (B := (inject_Z (2 ^ 52) * pow2 E)%Q).
  assert (HB : (B <= Qabs r)%Q).
  { rewrite HR. unfold B. apply Qmult_le_compat_r; [|lra].
    by rewrite <- Zle_Qle. }
  assert (HB46 : (inject_Z (2 ^ 46) <= B)%Q).
  { unfold B.
    setoid_replace (inject_Z (2 ^ 46)) with (inject_Z (2 ^ 52) * (1 # 64))%Q
      using relation Qeq by (vm_compute; reflexivity).
    apply Qmult_le_l; [done|done]. }
  assert (H46 : (1 < inject_Z (2 ^ 46))%Q) by done.
  pose proof (round_2_error r) as Herr. fold q' in Herr.
  destruct (Qabs_close r q' (1 # 200) Herr) as [Hq1 Hq2].
  assert (Hq0 : ¬ (q' == 0)%Q).
  { intros H0. assert (Ha : (Qabs q' == 0)%Q) by (by rewrite H0). lra. }
  (* the exponent of [q'] is not below [E] *)
  destruct (ulp_exponent_bounds q' Hq0) as (Hw1074 & Hwhi & _).
  set (Ew := ulp_exponent q') in *.
  assert (HEw : E ≤ Ew).
  { destruct (Z_le_gt_dec E Ew) as [|Hgt]; [done|]. exfalso.
    assert (Hlt : (Qabs q' < B)%Q).
    { apply Qlt_le_trans with (pow2 (Ew + 53)); [done|].
      unfold B. rewrite pow2_inject, <- pow2_plus by lia.
      apply pow2_le. lia. }
    destruct (Z.eq_dec (Z.abs m) (2 ^ 52)) as [Heq|Hne].
    - assert (Hint : ∃ z, (r == inject_Z z)%Q).
      { destruct (Z.abs_spec m) as [[_ Ha]|[_ Ha]]; rewrite Ha in Heq.
        - exists (2 ^ (52 + E)). rewrite Hr, Heq, !pow2_inject by lia.
          by rewrite pow2_plus.
        - exists (- 2 ^ (52 + E)).
          replace m with (- 2 ^ 52) in Hr by lia.
          rewrite Hr, !inject_Z_opp, !pow2_inject by lia.
          rewrite pow2_plus. ring. }
      destruct Hint as [z Hz].
      assert (Hq' : (q' == r)%Q).
      { unfold q'. rewrite (round_2_comp r (inject_Z z) Hz), round_2_int.
        by symmetry. }
      assert (Ha : (Qabs q' == Qabs r)%Q) by (by rewrite Hq').
      lra.
    - assert (Hm1 : 2 ^ 52 + 1 ≤ Z.abs m) by lia.
      assert (HB1 : (B + pow2 E <= Qabs r)%Q).
      { rewrite HR. unfold B.
        setoid_replace (inject_Z (2 ^ 52) * pow2 E + pow2 E)%Q
          with (inject_Z (2 ^ 52 + 1) * pow2 E)%Q using relation Qeq
          by (rewrite inject_Z_plus; change (inject_Z 1) with 1%Q; ring).
        apply Qmult_le_compat_r; [|lra]. by rewrite <- Zle_Qle. }
      lra. }
  (* [rounded q'] and [r] are multiples of [2^E] less than [2^E] apart *)
  set (mw := round_half_even (q' / pow2 Ew)).
  assert (Hw : (rounded q' == inject_Z (mw * 2 ^ (Ew - E)) * pow2 E)%Q).
  { unfold rounded. fold Ew mw.
    rewrite inject_Z_mult, pow2_inject by lia.
    rewrite <- Qmult_assoc, <- pow2_plus.
    by replace (Ew - E + E) with Ew by lia. }
  pose proof (rounded_nearest q' r Hb) as Hnear.
  assert (Hdist : (Qabs (rounded q' - r) <= 1 # 100)%Q).
  { apply Qabs_Qle_condition in Hnear. 
    apply Qabs_Qle_condition in Herr. apply Qabs_Qle_condition.
    assert (Hrq : (Qabs (r - q') <= 1 # 200)%Q)
      by (by apply Qabs_Qle_condition).
    lra. }
  assert (Hdiff : (rounded q' - r
                   == (inject_Z (mw * 2 ^ (Ew - E)) - inject_Z m) * pow2 E)%Q).
  { rewrite Hw, Hr. ring. }
  rewrite Hdiff, Qabs_scaled in Hdist by done.
  assert (Hone : (Qabs (inject_Z (mw * 2 ^ (Ew - E)) - inject_Z m) < 1)%Q).
  { apply (Qmult_lt_r _ _ (pow2 E) HE0). lra. }
  rewrite Hw, Hr.
  by rewrite (Qabs_eq_of_close _ _ Hone _ _ eq_refl eq_refl).
Qed.

(** [round(round(x, 2), 2) = round(x, 2)]. *)
Lemma float_round2_idempotent x :
  float_round2 (float_round2 x) = float_round2 x.
Proof.
  destruct x as [q| | |]; try reflexivity.
  unfold float_round2 at 2 3. cbv zeta.
  destruct (Z.eqb_spec (Qnum (round_2 q)) 0) as [Hz|Hz].
  { destruct (Qle_bool 0 q); reflexivity. }
  set (q0 := round_2 q) in *.
  destruct (to_double q0) as [r| | |] eqn:Hy; try reflexivity.
  assert (Hq0 : ¬ (q0 == 0)%Q).
  { intros H0. apply Hz. unfold Qeq in H0. cbn [Qnum Qden] in H0. lia. }
  destruct (to_double_FNum q0 r Hy) as [Hr Hfin].
  pose proof (to_double_error q0 r Hy) as Herr.
  pose proof (to_double_reduced q0 r Hy) as Hred.
  set (E := ulp_exponent q0) in *.
  set (m0 := round_half_even (q0 / pow2 E)) in *.
  destruct (Z_le_gt_dec E (-7)) as [Hsmall|Hlarge].
  - (* below [2^46] the two-decimal rounding of [r] is [q0] again *)
    assert (Hk : round_half_even (r * inject_Z 100) = Qnum q0).
    { apply round_half_even_unique.
      assert (Hq0v : (q0 == inject_Z (Qnum q0) * (1 # 100))%Q).
      { unfold q0, round_2. cbn [Qnum]. rewrite (Qmake_Qdiv _ 100).
        change (inject_Z (Z.pos 100)) with (100 # 1)%Q. field. }
      assert (Heq : (r * inject_Z 100 - inject_Z (Qnum q0)
                     == (r - q0) * inject_Z 100)%Q).
      { rewrite Hq0v at 2. change (inject_Z 100) with (100 # 1)%Q. ring. }
      rewrite Heq, Qabs_scaled by done.
      assert (H8 : (pow2 (E - 1) <= 1 # 256)%Q).
      { change (1 # 256)%Q with (pow2 (-8)). apply pow2_le. lia. }
      change (inject_Z 100) with (100 # 1)%Q. lra. }
    assert (Hr2 : round_2 r = q0).
    { unfold round_2. rewrite Hk. reflexivity. }
    unfold float_round2. cbv zeta. rewrite Hr2.
    destruct (Z.eqb_spec (Qnum q0) 0); [done|]. exact Hy.
  - destruct (significand_bounds q0 Hq0) as [_ [Hsub|Hm52]];
      [fold E in Hsub; lia|]. fold E m0 in Hm52.
    assert (Hb : binary53 r).
    { destruct (to_double_representable q0 r Hy) as (m & e & ? & ? & ?).
      exists m, e. split; [done|]. split; [lia|done]. }
    pose proof (rounded_round_2_grid r m0 E ltac:(lia) Hm52 Hb Hr) as Hgrid.
    pose proof (pow2_pos E) as HE0.
    assert (Hr0 : ¬ (r == 0)%Q).
    { intros H0. rewrite H0 in Hr. symmetry in Hr.
      apply Qmult_integral in Hr. destruct Hr as [Hr|Hr]; [|lra].
      unfold Qeq in Hr. cbn [Qnum Qden inject_Z] in Hr. lia. }
    assert (Hn0 : Qnum (round_2 r) ≠ 0).
    { intros H0. destruct Hr0. rewrite <- Hgrid. apply rounded_zero.
      unfold Qeq. cbn [Qnum Qden]. lia. }
    unfold float_round2. cbv zeta.
    destruct (Z.eqb_spec (Qnum (round_2 r)) 0); [done|].
    by apply to_double_of_rounded.
Qed.

Section FormatTwice.

Context (float_of_str : string → option pyfloat).
Context (METRICS_CONFIG : gmap string metric_config).

Local Abbreviation format := (format_metric_value float_of_str METRICS_CONFIG).

(** X19.  Formatting a formatted value again changes nothing, for a
    metric that is rounded to two decimals without scaling (not a percent
    one, and not Rebills under the crystal-ball flag): a float result
    other than NaN is its own formatted value. *)
Theorem format_metric_value_idempotent value metric cb y :
  ¬ count_like metric cb →
  ¬ percent_format METRICS_CONFIG metric →
  format value metric cb = Some (RFloat y) →
  y ≠ FNaN →
  format (PyFloat y) metric cb = Some (RFloat y).
Proof.
  intros Hc Hp Hfmt Hy.
  pose proof (count_like_test metric cb) as Hct.
  pose proof (percent_format_test METRICS_CONFIG metric) as Hpt.
  rewrite format_float by done.
  unfold format_metric_value in Hfmt.
  destruct (is_none value || pd_isna value); [done|].
  destruct (String.eqb metric "Rebills" && cb); [by destruct Hc; apply Hct|].
  destruct (String.eqb _ "percent"); [by destruct Hp; apply Hpt|].
  destruct (py_float float_of_str value) as [x|e]; [|done].
  simpl in Hfmt. injection Hfmt as <-.
  by rewrite float_round2_idempotent.
Qed.

End FormatTwice.

Lemma format_metric_value_idempotent_witness :
  format_metric_value no_float sample_config
    (PyFloat (to_double (314 # 100))) "Revenue" false
  = Some (RFloat (to_double (314 # 100))).
Proof.
  apply (format_metric_value_idempotent no_float sample_config
           (PyFloat (to_double (31415 # 10000))) "Revenue" false
           (to_double (314 # 100))).
  - intros [H _]. discriminate H.
  - vm_compute. discriminate.
  - vm_compute. reflexivity.
  - vm_compute. discriminate.
Defined.

(** ** More on line charts *)

Lemma add_plan_traces_series PD f1 f2 (l : list string)
    (acc1 acc2 : list charts.Scatter) :
  trace_series <$> acc1 = trace_series <$> acc2 →
  trace_series
    <$> foldl (λ traces plan, charts.add_plan_trace PD f1 plan traces) acc1 l
  = trace_series
    <$> foldl (λ traces plan, charts.add_plan_trace PD f2 plan traces) acc2 l.
Proof.
  revert acc1 acc2. induction l as [|plan l IH]; intros acc1 acc2 Hacc;
    [done|].
  cbn [foldl]. apply IH. unfold charts.add_plan_trace.
  destruct (PD !! plan) as [entry|]; [|done].
  cbv zeta. rewrite !fmap_app. by rewrite Hacc.
Qed.

(** X20.  [format_type] and [date_range] only reach the styling: whatever
    they are, [build_line_chart] raises the same exception or returns the
    same list of plans and traces of the same names and points. *)
Theorem build_line_chart_styling_only (data : option charts.chart_data)
    (f1 f2 : string) (r1 r2 : option (pydate * pydate)) :
  (charts.build_line_chart data f1 r1 ≫= λ r, Ok (chart_series r))
  = (charts.build_line_chart data f2 r2 ≫= λ r, Ok (chart_series r)).
Proof.
  unfold charts.build_line_chart.
  destruct data as [data|]; [|done].
  destruct (charts.is_empty_dict data); [done|].
  destruct (charts.Plan_Name data) as [plan_names|]; [|done].
  destruct (length plan_names =? 0)%nat; [done|].
  destruct (for_each (seq 0 (length plan_names)) (charts.organize data) ∅)
    as [PD|e]; [|done].
  rewrite !exc_bind_Ok.
  destruct (if String.eqb f1 "dollar" then _ else _) as [tp1 tf1].
  destruct (if String.eqb f2 "dollar" then _ else _) as [tp2 tf2].
  rewrite !exc_bind_Ok. unfold chart_series. cbn [fst snd charts.fig_data].
  do 2 f_equal. by apply add_plan_traces_series.
Qed.

Lemma sum_list_fmap_zero {A} (l : list A) :
  sum_list ((λ _, 0%nat) <$> l) = 0%nat.
Proof. induction l as [|x l IH]; [done|]. by rewrite fmap_cons. Qed.

Lemma sum_list_fmap_plus {A} (f g : A → nat) (l : list A) :
  sum_list ((λ x, f x + g x)%nat <$> l)
  = (sum_list (f <$> l) + sum_list (g <$> l))%nat.
Proof.
  induction l as [|x l IH]; [done|].
  rewrite !fmap_cons. simpl. rewrite IH. lia.
Qed.

Lemma sum_list_indicator (x : string) (L : list string) :
  NoDup L →
  sum_list ((λ p, if decide (x = p) then 1 else 0)%nat <$> L)
  = if decide (x ∈ L) then 1%nat else 0%nat.
Proof.
  induction 1 as [|y L Hy Hnd IH]; [done|].
  rewrite fmap_cons. simpl. rewrite IH.
  destruct (decide (x = y)) as [->|Hxy].
  - rewrite decide_False by done. rewrite decide_True by left. done.
  - destruct (decide (x ∈ L)) as [Hin|Hnin].
    + rewrite decide_True by (by right). done.
    + rewrite decide_False; [done|].
      intros [?|?]%elem_of_cons; done.
Qed.

(** Counting the entries of a list name by name counts each entry once. *)
Lemma count_by_name (L l : list string) :
  NoDup L → (∀ x, x ∈ l → x ∈ L) →
  sum_list ((λ p, length (filter (λ q, q = p) l)) <$> L) = length l.
Proof.
  intros Hnd. induction l as [|x l IH]; intros Hsub.
  - apply sum_list_fmap_zero.
  - assert (Hx : x ∈ L) by (apply Hsub; left).
    assert (Hl : ∀ y, y ∈ l → y ∈ L) by (intros y Hy; apply Hsub; by right).
    transitivity
      (sum_list ((λ p, (if decide (x = p) then 1 else 0)
                       + length (filter (λ q, q = p) l))%nat <$> L)).
    + f_equal. apply list_fmap_ext. intros _ p _. rewrite filter_cons.
      by destruct (decide (x = p)).
    + rewrite sum_list_fmap_plus, (sum_list_indicator x L Hnd), (IH Hl).
      by rewrite decide_True.
Qed.

Section ChartMore.

Context (data : charts.chart_data) (format_type : string).
Context (date_range : option (pydate * pydate)).

(** X21.  Every row is plotted once: on a chart input of the data model
    the figure has one trace per plan of the returned list and, over all
    traces, as many points as the input has rows; the x-axis range is the
    argument [date_range]. *)
Theorem build_line_chart_all_rows_plotted :
  chart_well_formed data → chart_plans data ≠ [] →
  ∃ fig plans,
    charts.build_line_chart (Some data) format_type date_range
    = Ok (fig, plans)
    ∧ charts.name <$> charts.fig_data fig = plans
    ∧ points_plotted fig = length (chart_plans data)
    ∧ charts.xaxis_range fig = date_range.
Proof.
  intros Hwf Hne.
  destruct (build_line_chart_wf data format_type Hwf date_range Hne)
    as (tp & tf & ->).
  eexists _, _. split; [done|]. unfold points_plotted.
  cbn [charts.fig_data charts.xaxis_range].
  split; [|split; [|done]].
  - generalize (py_sorted str_ltb (remove_dups (chart_plans data))).
    intros L. induction L as [|plan L IH]; [done|].
    rewrite !fmap_cons. by rewrite IH.
  - rewrite <- list_fmap_compose.
    rewrite <- (count_by_name
                  (py_sorted str_ltb (remove_dups (chart_plans data)))
                  (chart_plans data)).
    + f_equal. apply list_fmap_ext. intros _ plan _.
      unfold expected_trace. cbn [compose charts.x].
      rewrite length_fmap.
      rewrite (Permutation_length (py_sorted_Permutation _ _)).
      by rewrite plan_points_length, (chart_rows_plans data Hwf).
    + rewrite py_sorted_Permutation. apply NoDup_remove_dups.
    + intros x Hx. by rewrite elem_of_py_sorted, elem_of_remove_dups.
Qed.

Context (plans : list string).
Context (Hplans : charts.Plan_Name data = Some plans) (Hne : plans ≠ []).

Lemma organize_outcome ds vs i PD :
  charts.Reporting_Date data = Some ds →
  charts.metric_value data = Some vs →
  (i < length plans)%nat → (i < length ds)%nat → (i < length vs)%nat →
  ∃ PD', charts.organize data i PD = Ok PD'.
Proof.
  intros Hds Hvs Hp Hd Hv. unfold charts.organize.
  rewrite Hplans, Hds, Hvs. cbn [getitem]. rewrite !exc_bind_Ok.
  unfold index.
  destruct (lookup_lt_is_Some_2 plans i Hp) as [p ->].
  destruct (lookup_lt_is_Some_2 ds i Hd) as [d ->].
  destruct (lookup_lt_is_Some_2 vs i Hv) as [v ->].
  rewrite !exc_bind_Ok. cbv zeta.
  case_bool_decide as Hdom.
  - rewrite lookup_insert_eq. cbn [getitem]. rewrite exc_bind_Ok. by eexists.
  - apply elem_of_dom in Hdom. destruct Hdom as [entry ->].
    cbn [getitem]. rewrite exc_bind_Ok. by eexists.
Qed.

Lemma chart_past_guard :
  charts.build_line_chart (Some data) format_type date_range
  = (plan_data ← for_each (seq 0 (length plans)) (charts.organize data) ∅;
     charts.build_line_chart (Some data) format_type date_range).
Proof.
  destruct (for_each (seq 0 (length plans)) (charts.organize data) ∅)
    as [PD|e] eqn:Hloop; [by rewrite exc_bind_Ok|].
  unfold charts.build_line_chart at 1.
  assert (charts.is_empty_dict data = false) as ->.
  { unfold charts.is_empty_dict. by rewrite Hplans. }
  rewrite Hplans.
  assert ((length plans =? 0)%nat = false) as ->.
  { destruct plans; [done|reflexivity]. }
  by rewrite Hloop.
Qed.

(** X22.  A chart input with plans but without its other lists, or with a
    shorter one, makes [build_line_chart] raise rather than plot part of
    the rows: [KeyError] for a missing [Reporting_Date], or a missing
    [metric_value] beside a non-empty [Reporting_Date]; [IndexError] when
    [Reporting_Date] or [metric_value] is shorter than [Plan_Name]. *)
Theorem build_line_chart_raises :
  (charts.Reporting_Date data = None →
   charts.build_line_chart (Some data) format_type date_range
   = Raise KeyError)
  ∧ (∀ ds, charts.Reporting_Date data = Some ds → ds ≠ [] →
       charts.metric_value data = None →
       charts.build_line_chart (Some data) format_type date_range
       = Raise KeyError)
  ∧ (∀ ds vs, charts.Reporting_Date data = Some ds →
       charts.metric_value data = Some vs →
       (length ds < length plans ∨ length vs < length plans)%nat →
       charts.build_line_chart (Some data) format_type date_range
       = Raise IndexError).
Proof.
  assert (Hlen : (0 < length plans)%nat).
  { destruct plans; [done|simpl; lia]. }
  destruct (lookup_lt_is_Some_2 plans 0 Hlen) as [p0 Hp0].
  split; [|split].
  - intros Hds. rewrite chart_past_guard.
    rewrite (for_each_range_raises (λ _, True) 0 (length plans)
               (charts.organize data) ∅ KeyError); [done|done|done|lia|].
    intros s _. unfold charts.organize. rewrite Hplans, Hds.
    cbn [getitem]. rewrite exc_bind_Ok. unfold index. by rewrite Hp0.
  - intros ds Hds Hdne Hvs. rewrite chart_past_guard.
    rewrite (for_each_range_raises (λ _, True) 0 (length plans)
               (charts.organize data) ∅ KeyError); [done|done|done|lia|].
    intros s _. unfold charts.organize. rewrite Hplans, Hds, Hvs.
    cbn [getitem]. rewrite !exc_bind_Ok. unfold index. rewrite Hp0.
    destruct ds as [|d ds]; [done|]. done.
  - intros ds vs Hds Hvs Hshort. rewrite chart_past_guard.
    rewrite (for_each_range_raises (λ _, True)
               (Nat.min (length ds) (length vs)) (length plans)
               (charts.organize data) ∅ IndexError); [done|lia|done| |].
    + intros i s Hi _. right.
      destruct (organize_outcome ds vs i s Hds Hvs) as [PD' ->];
        [lia|lia|lia|]. by exists PD'.
    + intros s _. unfold charts.organize. rewrite Hplans, Hds, Hvs.
      cbn [getitem]. rewrite !exc_bind_Ok. unfold index.
      destruct (lookup_lt_is_Some_2 plans (Nat.min (length ds) (length vs)))
        as [p ->]; [lia|].
      rewrite exc_bind_Ok.
      destruct (ds !! (Nat.min (length ds) (length vs))) as [d|] eqn:Hd; [|done].
      rewrite exc_bind_Ok.
      apply lookup_lt_Some in Hd.
      rewrite (lookup_ge_None_2 vs) by lia. done.
Qed.

End ChartMore.

Lemma build_line_chart_all_rows_plotted_witness :
  ∃ fig plans,
    charts.build_line_chart (Some sample_chart) "dollar" None
    = Ok (fig, plans)
    ∧ charts.name <$> charts.fig_data fig = plans
    ∧ points_plotted fig = 4%nat
    ∧ charts.xaxis_range fig = None.
Proof.
  apply (build_line_chart_all_rows_plotted sample_chart "dollar" None).
  - unfold chart_well_formed. simpl. repeat split; by eexists.
  - discriminate.
Defined.

Lemma build_line_chart_raises_witness :
  charts.build_line_chart (Some ragged_chart) "dollar" None
  = Raise IndexError.
Proof.
  apply (proj2 (proj2
    (build_line_chart_raises ragged_chart "dollar" None
       ["P1"; "P2"; "P1"]%string eq_refl ltac:(discriminate)))
    [jan; feb; jan] [Some (5 # 1); None]%Q eq_refl eq_refl).
  right. simpl. lia.
Defined.
